(** * FUZZMASTER: the adaptive mutation policy engine

    A shallow embedding of the reinforcement-learning core of FUZZMASTER
    (feedback_analyzer.py, ppo_agent.py, mutation_selector.py and
    FuzzingController.training_step of fuzzing_controller.py), and the
    properties of it that the specification states.

    Python numbers are modelled as CPython has them: [int] is [Z], [float]
    is IEEE 754 binary64 (Rocq's primitive floats), and mixed arithmetic
    converts the integer operand, raising [OverflowError] when it does not
    fit.  The embedding is written once over an interface of float
    operations, with two instances: [binary64], which is what the
    interpreter executes, and the rationals [Q], in which every operation is
    exact and the algebra of the formulas can be read off. *)

From Stdlib Require Import ZArith QArith Qminmax Floats List Bool Lia Lqa.
From Stdlib Require Import Ascii String.
From stdpp Require Import gmap strings list.

#[local] Open Scope Z_scope.

(** ** Exceptions and fallible computations *)

Inductive exn : Type :=
  | OverflowError
  | ZeroDivisionError
  | ValueError
  | IndexError
  | KeyError
  | FileNotFoundError.

Inductive res (A : Type) : Type :=
  | Ok (a : A)
  | Raise (e : exn).

Arguments Ok {A} a.
Arguments Raise {A} e.

#[global] Instance res_ret : MRet res := fun _ a => Ok a.
#[global] Instance res_bind : MBind res := fun _ _ k c =>
  match c with
  | Ok a => k a
  | Raise e => Raise e
  end.

(** ** The float operations the code uses *)

Class PyFloat (F : Type) : Type := {
  fadd : F → F → F;
  fsub : F → F → F;
  fmul : F → F → F;
  fdiv : F → F → F;
  fltb : F → F → bool;
  fleb : F → F → bool;
  feqb : F → F → bool;
  (** [int.__float__]: [None] stands for [OverflowError]. *)
  of_int : Z → option F;
  (** [float("d...d.d...d")], also the value of a decimal literal:
      [of_decimal n k] is the float of n / 10^k. *)
  of_decimal : Z → nat → F;
  (** Python compares a float with an int exactly; [None] for NaN. *)
  cmp_int : F → Z → option comparison
}.

(** *** binary64, the arithmetic of CPython's [float] *)

Module Binary64.

(** CPython raises [OverflowError] when the integer rounds to 2^1024. *)
Definition int_overflows (z : Z) : bool :=
  2 ^ 1024 - 2 ^ 970 <=? Z.abs z.

Definition float_of_int (z : Z) : option float :=
  if int_overflows z then None
  else Some (SF2Prim (binary_normalize prec emax z 0 false)).

Definition float_of_decimal (n : Z) (k : nat) : float :=
  match n with
  | Zpos p =>
      SF2Prim (SFdiv prec emax (S754_finite false p 0)
                 (S754_finite false (Z.to_pos (10 ^ Z.of_nat k)) 0))
  | _ => 0%float
  end.

Definition compare_int (x : float) (z : Z) : option comparison :=
  match Prim2SF x with
  | S754_nan => None
  | S754_infinity s => Some (if s then Lt else Gt)
  | S754_zero _ => Some (0 ?= z)
  | S754_finite s m e =>
      let v := if s then Zneg m else Zpos m in
      Some (if 0 <=? e then (v * 2 ^ e ?= z) else (v ?= z * 2 ^ (- e)))
  end.

End Binary64.

#[global] Instance binary64 : PyFloat float := {
  fadd := PrimFloat.add;
  fsub := PrimFloat.sub;
  fmul := PrimFloat.mul;
  fdiv := PrimFloat.div;
  fltb := PrimFloat.ltb;
  fleb := PrimFloat.leb;
  feqb := PrimFloat.eqb;
  of_int := Binary64.float_of_int;
  of_decimal := Binary64.float_of_decimal;
  cmp_int := Binary64.compare_int
}.

(** *** The rationals: the same operations without rounding *)

Module Exact.

Definition ltb (x y : Q) : bool :=
  match (x ?= y)%Q with Lt => true | _ => false end.

Definition leb (x y : Q) : bool :=
  match (x ?= y)%Q with Gt => false | _ => true end.

Definition of_decimal (n : Z) (k : nat) : Q :=
  Qmake n (Z.to_pos (10 ^ Z.of_nat k)).

End Exact.

#[global] Instance exact : PyFloat Q := {
  fadd := Qplus;
  fsub := Qminus;
  fmul := Qmult;
  fdiv := Qdiv;
  fltb := Exact.ltb;
  fleb := Exact.leb;
  feqb := Qeq_bool;
  of_int := fun z => Some (inject_Z z);
  of_decimal := Exact.of_decimal;
  cmp_int := fun x z => Some (x ?= inject_Z z)%Q
}.

(** ** Python's numeric tower, as far as the code uses it *)

Section Numbers.

Context {F : Type} `{PyFloat F}.

Inductive pynum : Type :=
  | PInt (z : Z)
  | PFloat (x : F).

Definition to_float (a : pynum) : res F :=
  match a with
  | PInt z =>
      match of_int z with
      | Some x => Ok x
      | None => Raise OverflowError
      end
  | PFloat x => Ok x
  end.

(** [a - b] *)
Definition py_sub (a b : pynum) : res pynum :=
  match a, b with
  | PInt x, PInt y => Ok (PInt (x - y))
  | _, _ => x ← to_float a; y ← to_float b; Ok (PFloat (fsub x y))
  end.

(** [a * b] with [b] a float *)
Definition py_mul (a : pynum) (b : F) : res F :=
  x ← to_float a; Ok (fmul x b).

(** [a / b] with [b] a float *)
Definition py_truediv (a : pynum) (b : F) : res F :=
  x ← to_float a;
  if feqb b (of_decimal 0 0) then Raise ZeroDivisionError
  else Ok (fdiv x b).

(** [min(a, b)] and [max(a, b)]: the first argument unless the second
    is strictly better. *)
Definition py_min (a b : F) : F := if fltb b a then b else a.
Definition py_max (a b : F) : F := if fltb a b then b else a.

(** [a <= b] on numbers *)
Definition py_le (a b : pynum) : bool :=
  match a, b with
  | PInt x, PInt y => x <=? y
  | PFloat x, PFloat y => fleb x y
  | PFloat x, PInt y =>
      match cmp_int x y with Some Gt | None => false | Some _ => true end
  | PInt x, PFloat y =>
      match cmp_int y x with Some Lt | None => false | Some _ => true end
  end.

End Numbers.

Arguments pynum F : clear implicits.

(** ** feedback_analyzer.py *)

(** *** Scanning the stats file

    [parse_fuzzer_stats] looks each field up with [re.search] and a pattern
    of the shape [key\s*:\s*(class+)] or [key\s*:\s*(class+)%].  Neither
    [:] nor a character of the class is white space, and [%] is not in the
    class, so the greedy runs never need to give characters back: matching at
    a position is deterministic, and [search] takes the leftmost position
    that matches.  The file content is a string of ASCII characters. *)

Module Scan.

Definition is_space (c : ascii) : bool :=
  let n := N_of_ascii c in
  ((9 <=? n) && (n <=? 13) || (28 <=? n) && (n <=? 32))%N.

Definition is_digit (c : ascii) : bool :=
  let n := N_of_ascii c in
  ((48 <=? n) && (n <=? 57))%N.

Definition is_dot (c : ascii) : bool := Ascii.eqb c "."%char.

(** The class [\d] and the class [[\d.]]. *)
Definition digit_class : ascii → bool := is_digit.
Definition number_class (c : ascii) : bool := is_digit c || is_dot c.

Fixpoint strip_prefix (p s : string) : option string :=
  match p with
  | EmptyString => Some s
  | String a p' =>
      match s with
      | String b s' => if Ascii.eqb a b then strip_prefix p' s' else None
      | EmptyString => None
      end
  end.

Fixpoint skip_space (s : string) : string :=
  match s with
  | String c s' => if is_space c then skip_space s' else s
  | EmptyString => s
  end.

(** The longest prefix in the class, and what follows it. *)
Fixpoint span (cls : ascii → bool) (s : string) : string * string :=
  match s with
  | String c s' =>
      if cls c then let (tok, rest) := span cls s' in (String c tok, rest)
      else (EmptyString, s)
  | EmptyString => (EmptyString, EmptyString)
  end.

Definition match_at (key : string) (cls : ascii → bool) (percent : bool)
    (s : string) : option string :=
  match strip_prefix key s with
  | None => None
  | Some rest =>
      match skip_space rest with
      | String ":"%char rest' =>
          let (tok, after) := span cls (skip_space rest') in
          match tok with
          | EmptyString => None
          | _ =>
              if percent then
                match after with
                | String "%"%char _ => Some tok
                | _ => None
                end
              else Some tok
          end
      | _ => None
      end
  end.

(** [re.search(pattern, content)] followed by [match.group(1)]. *)
Fixpoint search (key : string) (cls : ascii → bool) (percent : bool)
    (content : string) : option string :=
  match match_at key cls percent content with
  | Some tok => Some tok
  | None =>
      match content with
      | String _ rest => search key cls percent rest
      | EmptyString => None
      end
  end.

Definition digit_value (c : ascii) : Z := Z.of_N (N_of_ascii c) - 48.

(** The number the digits of [s] spell, dots skipped, after [acc]. *)
Fixpoint digits_value (acc : Z) (s : string) : Z :=
  match s with
  | String c s' =>
      if is_digit c then digits_value (10 * acc + digit_value c) s'
      else digits_value acc s'
  | EmptyString => acc
  end.

Fixpoint count (f : ascii → bool) (s : string) : nat :=
  match s with
  | String c s' => (if f c then 1 else 0) + count f s'
  | EmptyString => 0
  end.

(** What follows the first dot. *)
Fixpoint after_dot (s : string) : string :=
  match s with
  | String c s' => if is_dot c then s' else after_dot s'
  | EmptyString => EmptyString
  end.

(** ['.' in value] *)
Definition has_dot (s : string) : bool := negb (count is_dot s =? 0)%nat.

End Scan.

Section Conversions.

Context {F : Type} `{PyFloat F}.

(** CPython refuses to convert more than 4300 digits to an [int]. *)
Definition int_max_str_digits : nat := 4300.

(** [int(value)] on a token of digits *)
Definition py_int (value : string) : res Z :=
  if (int_max_str_digits <? String.length value)%nat then Raise ValueError
  else Ok (Scan.digits_value 0 value).

(** [float(value)] on a token of digits and dots: one dot and at least
    one digit, or [ValueError]. *)
Definition py_float (value : string) : res F :=
  if (Scan.count Scan.is_dot value =? 1)%nat
     && negb (Scan.count Scan.is_digit value =? 0)%nat
  then Ok (of_decimal (Scan.digits_value 0 value)
             (Scan.count Scan.is_digit (Scan.after_dot value)))
  else Raise ValueError.

(** [float(value) if '.' in value else int(value)] *)
Definition convert (value : string) : res (pynum F) :=
  if Scan.has_dot value then x ← py_float value; Ok (PFloat x)
  else z ← py_int value; Ok (PInt z).

End Conversions.

Section Analyzer.

Context {F : Type} `{PyFloat F}.

(** *** [class FuzzingMetrics]

    Attributes hold whatever number was last assigned: [__init__] puts
    an [int] or a [float] there, the parser an [int] or a [float]
    depending on the text. *)
Record FuzzingMetrics : Type := {
  coverage : pynum F;
  unique_crashes : pynum F;
  unique_hangs : pynum F;
  total_execs : pynum F;
  execs_per_sec : pynum F;
  paths_total : pynum F;
  paths_found : pynum F;
  pending_favs : pynum F;
  pending_total : pynum F;
  bitmap_cvg : pynum F;
  stability : pynum F;
  levels : pynum F;
  last_crash : pynum F;
  last_hang : pynum F;
  last_path : pynum F;
  cycles_done : pynum F
}.

(** [FuzzingMetrics()] *)
Definition FuzzingMetrics_init : FuzzingMetrics := {|
  coverage := PFloat (of_decimal 0 1);
  unique_crashes := PInt 0;
  unique_hangs := PInt 0;
  total_execs := PInt 0;
  execs_per_sec := PFloat (of_decimal 0 1);
  paths_total := PInt 0;
  paths_found := PInt 0;
  pending_favs := PInt 0;
  pending_total := PInt 0;
  bitmap_cvg := PFloat (of_decimal 0 1);
  stability := PFloat (of_decimal 0 1);
  levels := PInt 0;
  last_crash := PInt 0;
  last_hang := PInt 0;
  last_path := PInt 0;
  cycles_done := PInt 0
|}.

(** *** [class FeedbackAnalyzer] *)
Record FeedbackAnalyzer : Type := {
  history_size : Z;
  metrics_history : list FuzzingMetrics;
  last_update_time : F;
  baseline_metrics : option FuzzingMetrics
}.

(** One round of the loop over [patterns]: the attribute keeps its
    value when the pattern does not match, and takes the converted
    token when it does. *)
Definition field (key : string) (cls : ascii → bool) (percent : bool)
    (content : string) (current : pynum F) : res (pynum F) :=
  match Scan.search key cls percent content with
  | Some value => convert value
  | None => Ok current
  end.

(** The body of the [try] block, on the text read from the file. *)
Definition parse_content (content : string) : res FuzzingMetrics :=
  let metrics := FuzzingMetrics_init in
  v_total_execs ←
    field "execs_done" Scan.digit_class false content (total_execs metrics);
  v_execs_per_sec ←
    field "execs_per_sec" Scan.number_class false content
      (execs_per_sec metrics);
  v_paths_total ←
    field "paths_total" Scan.digit_class false content (paths_total metrics);
  v_unique_crashes ←
    field "saved_crashes" Scan.digit_class false content
      (unique_crashes metrics);
  v_unique_hangs ←
    field "saved_hangs" Scan.digit_class false content
      (unique_hangs metrics);
  v_bitmap_cvg ←
    field "bitmap_cvg" Scan.number_class true content (bitmap_cvg metrics);
  v_stability ←
    field "stability" Scan.number_class true content (stability metrics);
  v_pending_favs ←
    field "pending_favs" Scan.digit_class false content
      (pending_favs metrics);
  v_pending_total ←
    field "pending_total" Scan.digit_class false content
      (pending_total metrics);
  v_cycles_done ←
    field "cycles_done" Scan.digit_class false content (cycles_done metrics);
  v_last_crash ←
    field "last_crash" Scan.digit_class false content (last_crash metrics);
  v_last_path ←
    field "last_path" Scan.digit_class false content (last_path metrics);
  Ok {|
    coverage := v_bitmap_cvg;
    unique_crashes := v_unique_crashes;
    unique_hangs := v_unique_hangs;
    total_execs := v_total_execs;
    execs_per_sec := v_execs_per_sec;
    paths_total := v_paths_total;
    paths_found := v_paths_total;
    pending_favs := v_pending_favs;
    pending_total := v_pending_total;
    bitmap_cvg := v_bitmap_cvg;
    stability := v_stability;
    levels := levels metrics;
    last_crash := v_last_crash;
    last_hang := last_hang metrics;
    last_path := v_last_path;
    cycles_done := v_cycles_done
  |}.

(** [parse_fuzzer_stats]: [file] is the text of the stats file, [None]
    when the file does not exist (or cannot be read).  Every exception
    of the body is caught and turned into [None]. *)
Definition parse_fuzzer_stats (file : option string)
    : option FuzzingMetrics :=
  match file with
  | None => None
  | Some content =>
      match parse_content content with
      | Ok metrics => Some metrics
      | Raise _ => None
      end
  end.

Definition get_current_metrics (file : option string)
    : option FuzzingMetrics :=
  parse_fuzzer_stats file.

(** [update]: [file] is what the stats file holds and [now] what
    [time.time()] returns during the call. *)
Definition update (self : FeedbackAnalyzer) (file : option string)
    (now : F) : bool * FeedbackAnalyzer :=
  match get_current_metrics file with
  | None => (false, self)
  | Some metrics =>
      let appended := metrics_history self ++ [metrics] in
      let kept :=
        if history_size self <? Z.of_nat (length appended)
        then tail appended else appended in
      (true, {|
         history_size := history_size self;
         metrics_history := kept;
         last_update_time := now;
         baseline_metrics :=
           match baseline_metrics self with
           | None => Some metrics
           | Some b => Some b
           end
       |})
  end.

(** [np.zeros(10)] *)
Definition zeros (n : nat) : list F := replicate n (of_decimal 0 1).

(** The [time_delta] of [get_state_vector]:
    [max(t - (t - 60), 1.0)] with [t] the time of the last update. *)
Definition time_delta (t : F) : res F :=
  inner ← py_sub (PFloat t) (PInt 60);
  outer ← py_sub (PFloat t) inner;
  elapsed ← to_float outer;
  Ok (py_max elapsed (of_decimal 10 1)).

(** The three rates of [get_state_vector], when there is a previous
    snapshot. *)
Definition rates (t : F) (current previous : FuzzingMetrics)
    : res (F * F * F) :=
  dt ← time_delta t;
  d_coverage ← py_sub (coverage current) (coverage previous);
  coverage_rate ← py_truediv d_coverage dt;
  d_crashes ← py_sub (unique_crashes current) (unique_crashes previous);
  crash_rate ← py_truediv d_crashes dt;
  d_paths ← py_sub (paths_total current) (paths_total previous);
  path_rate ← py_truediv d_paths dt;
  Ok (coverage_rate, crash_rate, path_rate).

Definition get_state_vector (self : FeedbackAnalyzer) : res (list F) :=
  match rev (metrics_history self) with
  | [] => Ok (zeros 10)
  | current :: earlier =>
      r ← match earlier with
          | previous :: _ => rates (last_update_time self) current previous
          | [] => Ok (of_decimal 0 1, of_decimal 0 1, of_decimal 0 1)
          end;
      let '(coverage_rate, crash_rate, path_rate) := r in
      s0 ← py_truediv (coverage current) (of_decimal 1000 1);
      s2 ← py_truediv (unique_crashes current) (of_decimal 1000 1);
      s4 ← py_truediv (execs_per_sec current) (of_decimal 10000 1);
      s5 ← py_truediv (paths_total current) (of_decimal 10000 1);
      s7 ← py_truediv (stability current) (of_decimal 1000 1);
      s8 ← py_truediv (cycles_done current) (of_decimal 100 1);
      s9 ← py_truediv (pending_favs current) (of_decimal 1000 1);
      Ok [s0; coverage_rate; s2; crash_rate; s4; s5; path_rate; s7; s8; s9]
  end.

Definition compute_reward (self : FeedbackAnalyzer) : res F :=
  match rev (metrics_history self) with
  | current :: previous :: _ =>
      d_coverage ← py_sub (coverage current) (coverage previous);
      coverage_reward ← py_mul d_coverage (of_decimal 100 1);
      d_crashes ← py_sub (unique_crashes current) (unique_crashes previous);
      crash_reward ← py_mul d_crashes (of_decimal 500 1);
      d_paths ← py_sub (paths_total current) (paths_total previous);
      path_reward ← py_mul d_paths (of_decimal 10 1);
      speed ← py_truediv (execs_per_sec current) (of_decimal 10000 1);
      let speed_reward :=
        fmul (py_min speed (of_decimal 10 1)) (of_decimal 5 1) in
      stable ← py_truediv (stability current) (of_decimal 1000 1);
      let stability_reward := fmul stable (of_decimal 5 1) in
      Ok (fadd (fadd (fadd (fadd coverage_reward crash_reward) path_reward)
                  speed_reward) stability_reward)
  | _ => Ok (of_decimal 0 1)
  end.

Definition get_state_and_reward (self : FeedbackAnalyzer)
    : res (list F * F) :=
  state ← get_state_vector self;
  reward ← compute_reward self;
  Ok (state, reward).

Definition is_done (self : FeedbackAnalyzer) : bool :=
  match rev (metrics_history self) with
  | [] => false
  | current :: _ =>
      if history_size self <=? Z.of_nat (length (metrics_history self)) then
        match metrics_history self with
        | first :: _ =>
            py_le (coverage current) (coverage first)
            && py_le (paths_total current) (paths_total first)
        | [] => false
        end
      else false
  end.

End Analyzer.

Arguments FuzzingMetrics F : clear implicits.
Arguments FeedbackAnalyzer F : clear implicits.

(** ** mutation_selector.py *)

(** *** [class MutationStrategy(IntEnum)] *)
Inductive MutationStrategy : Type :=
  | BITFLIP
  | BYTEFLIP
  | ARITHMETIC
  | INTERESTING
  | HAVOC_LIGHT
  | HAVOC_MEDIUM
  | HAVOC_HEAVY
  | SPLICE.

Module Strategy.

(** The members in definition order, as iterating the enum yields them. *)
Definition members : list MutationStrategy :=
  [BITFLIP; BYTEFLIP; ARITHMETIC; INTERESTING;
   HAVOC_LIGHT; HAVOC_MEDIUM; HAVOC_HEAVY; SPLICE].

Definition value (s : MutationStrategy) : Z :=
  match s with
  | BITFLIP => 0
  | BYTEFLIP => 1
  | ARITHMETIC => 2
  | INTERESTING => 3
  | HAVOC_LIGHT => 4
  | HAVOC_MEDIUM => 5
  | HAVOC_HEAVY => 6
  | SPLICE => 7
  end.

Definition name (s : MutationStrategy) : string :=
  match s with
  | BITFLIP => "BITFLIP"
  | BYTEFLIP => "BYTEFLIP"
  | ARITHMETIC => "ARITHMETIC"
  | INTERESTING => "INTERESTING"
  | HAVOC_LIGHT => "HAVOC_LIGHT"
  | HAVOC_MEDIUM => "HAVOC_MEDIUM"
  | HAVOC_HEAVY => "HAVOC_HEAVY"
  | SPLICE => "SPLICE"
  end.

(** [MutationStrategy(action)]: the member with that value, or
    [ValueError]. *)
Definition of_value (action : Z) : option MutationStrategy :=
  List.find (fun s => value s =? action) members.

Definition lookup (action : Z) : res MutationStrategy :=
  match of_value action with
  | Some s => Ok s
  | None => Raise ValueError
  end.

End Strategy.

#[global] Instance MutationStrategy_eq_dec : EqDecision MutationStrategy.
Proof. solve_decision. Defined.

#[global] Instance MutationStrategy_countable : Countable MutationStrategy.
Proof.
refine (inj_countable Strategy.value Strategy.of_value _).
intros []; reflexivity.
Defined.

Section Selector.

Context {F : Type} `{PyFloat F}.

(** [a + b] *)
Definition py_add (a b : pynum F) : res (pynum F) :=
  match a, b with
  | PInt x, PInt y => Ok (PInt (x + y))
  | _, _ => x ← to_float a; y ← to_float b; Ok (PFloat (fadd x y))
  end.

(** One entry of [strategy_stats]. *)
Record StrategyStats : Type := {
  times_selected : Z;
  coverage_gains : pynum F;
  crashes_found : pynum F;
  paths_found_by : pynum F
}.

Definition StrategyStats_init : StrategyStats := {|
  times_selected := 0;
  coverage_gains := PFloat (of_decimal 0 1);
  crashes_found := PInt 0;
  paths_found_by := PInt 0
|}.

(** *** [class MutationStrategySelector] *)
Record MutationStrategySelector : Type := {
  num_strategies : Z;
  strategy_stats : gmap MutationStrategy StrategyStats;
  current_strategy : option MutationStrategy;
  strategy_history : list MutationStrategy
}.

(** [MutationStrategySelector()] *)
Definition MutationStrategySelector_init : MutationStrategySelector := {|
  num_strategies := Z.of_nat (length Strategy.members);
  strategy_stats :=
    list_to_map (map (fun s => (s, StrategyStats_init)) Strategy.members);
  current_strategy := None;
  strategy_history := []
|}.

Definition get_num_actions (self : MutationStrategySelector) : Z :=
  num_strategies self.

(** [strategy_stats[strategy]['times_selected'] += 1]: [None] stands for
    the [KeyError] of a missing entry. *)
Definition count_selection (strategy : MutationStrategy)
    (stats : gmap MutationStrategy StrategyStats)
    : option (gmap MutationStrategy StrategyStats) :=
  match stats !! strategy with
  | Some entry =>
      Some (<[strategy := {|
               times_selected := times_selected entry + 1;
               coverage_gains := coverage_gains entry;
               crashes_found := crashes_found entry;
               paths_found_by := paths_found_by entry
             |}]> stats)
  | None => None
  end.

Definition select_strategy (self : MutationStrategySelector) (action : Z)
    : res (MutationStrategy * MutationStrategySelector) :=
  let action :=
    if (action <? 0) || (num_strategies self <=? action)
    then Strategy.value HAVOC_MEDIUM else action in
  strategy ← Strategy.lookup action;
  match count_selection strategy (strategy_stats self) with
  | Some stats =>
      Ok (strategy, {|
            num_strategies := num_strategies self;
            strategy_stats := stats;
            current_strategy := Some strategy;
            strategy_history := strategy_history self ++ [strategy]
          |})
  | None => Raise KeyError
  end.

(** The dictionaries of [get_afl_mutation_config]: four keys that every
    strategy has, and three that only some have. *)
Record MutationConfig : Type := {
  deterministic_mode : bool;
  skip_deterministic : bool;
  havoc_cycles : Z;
  splice_cycles : Z;
  focus_on : option string;
  havoc_stack_pow : option Z;
  splice_probability : option F
}.





Definition update_strategy_stats (self : MutationStrategySelector)
    (coverage_gain crashes paths : pynum F)
    : res MutationStrategySelector :=
  match current_strategy self with
  | None => Ok self
  | Some strategy =>
      match strategy_stats self !! strategy with
      | None => Raise KeyError
      | Some entry =>
          gains ← py_add (coverage_gains entry) coverage_gain;
          found ← py_add (crashes_found entry) crashes;
          discovered ← py_add (paths_found_by entry) paths;
          Ok {|
            num_strategies := num_strategies self;
            strategy_stats :=
              <[strategy := {|
                  times_selected := times_selected entry;
                  coverage_gains := gains;
                  crashes_found := found;
                  paths_found_by := discovered
                |}]> (strategy_stats self);
            current_strategy := current_strategy self;
            strategy_history := strategy_history self
          |}
      end
  end.

End Selector.

Arguments StrategyStats F : clear implicits.
Arguments MutationStrategySelector F : clear implicits.
Arguments MutationConfig F : clear implicits.

(** ** ppo_agent.py *)

(** What the code takes from torch and numpy: tensors and the functions
    on them.  The network computes in torch's own arithmetic, so these
    stay uninterpreted; only their being functions is used. *)
Class Torch (F : Type) : Type := {
  Tensor : Type;
  (** the weight and bias of an [nn.Linear] *)
  Linear : Type;
  (** the state of [optim.Adam] *)
  Adam : Type;
  (** the state of the random generators *)
  Rng : Type;
  linear : Linear → Tensor → Tensor;
  relu : Tensor → Tensor;
  softmax : Tensor → Tensor;
  argmax : Tensor → Tensor;
  (** [Categorical(probs).sample()] and [Categorical(probs).log_prob(a)] *)
  categorical_sample : Tensor → Rng → Tensor;
  categorical_log_prob : Tensor → Tensor → Tensor;
  (** [.item()] of a float tensor and of an integer tensor *)
  item : Tensor → F;
  item_int : Tensor → Z;
  (** [torch.FloatTensor(state).unsqueeze(0).to(device)] *)
  FloatTensor : list F → Tensor;
  (** [a.mean()] and [a.std()] of a numpy array *)
  np_mean : list F → F;
  np_std : list F → F;
  (** [np.random.permutation(n)] *)
  permutation : Rng → nat → list nat
}.

Section PPO.

Context {F : Type} `{PyFloat F} `{Torch F}.

(** *** [class PPONetwork] *)
Record PPONetwork : Type := {
  shared_fc1 : Linear;
  shared_fc2 : Linear;
  actor_fc : Linear;
  actor_out : Linear;
  critic_fc : Linear;
  critic_out : Linear
}.

Definition forward (self : PPONetwork) (state : Tensor) : Tensor * Tensor :=
  let x := relu (linear (shared_fc1 self) state) in
  let x := relu (linear (shared_fc2 self) x) in
  let actor := relu (linear (actor_fc self) x) in
  let action_logits := linear (actor_out self) actor in
  let critic := relu (linear (critic_fc self) x) in
  let state_value := linear (critic_out self) critic in
  (action_logits, state_value).

Definition get_action (self : PPONetwork) (state : Tensor)
    (deterministic : bool) (rng : Rng) : Z * Tensor * Tensor :=
  let '(action_logits, value) := forward self state in
  let action_probs := softmax action_logits in
  let action :=
    if deterministic then argmax action_probs
    else categorical_sample action_probs rng in
  let log_prob := categorical_log_prob action_probs action in
  (item_int action, log_prob, value).

(** *** [class PPOAgent] *)
Record PPOAgent : Type := {
  gamma : F;
  gae_lambda : F;
  clip_epsilon : F;
  value_coef : F;
  entropy_coef : F;
  max_grad_norm : F;
  network : PPONetwork;
  optimizer : Adam;
  states : list (list F);
  actions : list Z;
  log_probs : list F;
  rewards : list F;
  values : list F;
  dones : list bool
}.

(** The agent with other parameters, and the agent with another buffer. *)
Definition with_model (self : PPOAgent) (net : PPONetwork) (opt : Adam)
    : PPOAgent := {|
  gamma := gamma self;
  gae_lambda := gae_lambda self;
  clip_epsilon := clip_epsilon self;
  value_coef := value_coef self;
  entropy_coef := entropy_coef self;
  max_grad_norm := max_grad_norm self;
  network := net;
  optimizer := opt;
  states := states self;
  actions := actions self;
  log_probs := log_probs self;
  rewards := rewards self;
  values := values self;
  dones := dones self
|}.

Definition with_buffer (self : PPOAgent) (s : list (list F))
    (a : list Z) (l r v : list F) (d : list bool) : PPOAgent := {|
  gamma := gamma self;
  gae_lambda := gae_lambda self;
  clip_epsilon := clip_epsilon self;
  value_coef := value_coef self;
  entropy_coef := entropy_coef self;
  max_grad_norm := max_grad_norm self;
  network := network self;
  optimizer := optimizer self;
  states := s;
  actions := a;
  log_probs := l;
  rewards := r;
  values := v;
  dones := d
|}.

Definition select_action (self : PPOAgent) (state : list F)
    (deterministic : bool) (rng : Rng) : Z * PPOAgent :=
  let state_tensor := FloatTensor state in
  let '(action, log_prob, value) :=
    get_action (network self) state_tensor deterministic rng in
  (action,
   with_buffer self
     (states self ++ [state])
     (actions self ++ [action])
     (log_probs self ++ [item log_prob])
     (rewards self)
     (values self ++ [item value])
     (dones self)).

Definition store_transition (self : PPOAgent) (reward : F) (done : bool)
    : PPOAgent :=
  with_buffer self (states self) (actions self) (log_probs self)
    (rewards self ++ [reward]) (values self) (dones self ++ [done]).

Definition clear_buffer (self : PPOAgent) : PPOAgent :=
  with_buffer self [] [] [] [] [] [].

(** [a[t]] of a numpy array, for [t] that is not negative *)
Definition at_index {A : Type} (a : list A) (t : nat) : res A :=
  match a !! t with
  | Some x => Ok x
  | None => Raise IndexError
  end.

(** [1.0 - dones[t]] *)
Definition non_terminal (done : bool) : F :=
  fsub (of_decimal 10 1) (if done then of_decimal 10 1 else of_decimal 0 1).

(** One round of the loop of [compute_gae], on the array [advantages]
    and [last_gae]. *)
Definition gae_step (self : PPOAgent) (next_value : F)
    (all_values : list F) (t : nat) (acc : list F * F)
    : res (list F * F) :=
  let '(advantages, last_gae) := acc in
  done ← at_index (dones self) t;
  let next_non_terminal := non_terminal done in
  next_value_t ←
    (if (t =? length (rewards self) - 1)%nat then Ok next_value
     else at_index all_values (t + 1));
  reward ← at_index (rewards self) t;
  value ← at_index all_values t;
  let delta :=
    fsub (fadd reward (fmul (fmul (gamma self) next_value_t)
                         next_non_terminal)) value in
  let gae :=
    fadd delta (fmul (fmul (fmul (gamma self) (gae_lambda self))
                        next_non_terminal) last_gae) in
  Ok (<[t := gae]> advantages, gae).

(** [for t in reversed(range(n))] *)
Fixpoint gae_loop (self : PPOAgent) (next_value : F) (all_values : list F)
    (n : nat) (acc : list F * F) : res (list F * F) :=
  match n with
  | O => Ok acc
  | S t =>
      acc' ← gae_step self next_value all_values t acc;
      gae_loop self next_value all_values t acc'
  end.

(** [a + b] of two one-dimensional arrays: element by element when the
    lengths agree, an array of length one is stretched, anything else is
    a [ValueError]. *)
Definition np_add (a b : list F) : res (list F) :=
  if (length a =? length b)%nat then Ok (zip_with fadd a b)
  else
    match a, b with
    | [x], _ => Ok (map (fadd x) b)
    | _, [y] => Ok (map (fun x => fadd x y) a)
    | _, _ => Raise ValueError
    end.

Definition compute_gae (self : PPOAgent) (next_value : F)
    : res (list F * list F) :=
  let all_values := values self ++ [next_value] in
  let advantages := zeros (length (rewards self)) in
  acc ← gae_loop self next_value all_values (length (rewards self))
          (advantages, of_decimal 0 0);
  returns ← np_add (fst acc) (values self);
  Ok (fst acc, returns).

End PPO.


(** The optimisation of one minibatch (the body of the inner loop of
    [update]: evaluation of the batch, clipped surrogate, losses, backward
    pass, gradient clipping and optimizer step) is torch's, on the agent's
    hyperparameters, its model and the batch; it yields the new model and
    the three [.item()] readings. *)
Class Optimiser (F : Type) `{Torch F} : Type := {
  minibatch_step :
    PPOAgent → list nat → list F → list F → PPONetwork * Adam * (F * F * F)
}.

Section Training.

Context {F : Type} `{PyFloat F} `{Torch F} `{!Optimiser F}.

(** [range(0, n, batch_size)]: [None] for the [ValueError] of a zero
    step. *)
Fixpoint starts_from (fuel start n step : nat) : list nat :=
  match fuel with
  | O => []
  | S fuel' =>
      if (start <? n)%nat then start :: starts_from fuel' (start + step) n step
      else []
  end.

Definition batch_starts (n : nat) (batch_size : Z) : option (list nat) :=
  if batch_size =? 0 then None
  else if batch_size <? 0 then Some []
  else Some (starts_from n 0 n (Z.to_nat batch_size)).

(** [indices[start_idx:end_idx]] with
    [end_idx = min(start_idx + batch_size, n)] *)
Definition batch_of (indices : list nat) (n : nat) (batch_size : Z)
    (start_idx : nat) : list nat :=
  let end_idx := Nat.min (start_idx + Z.to_nat batch_size) n in
  take (end_idx - start_idx) (drop start_idx indices).

(** What the loops of [update] carry along. *)
Record Progress : Type := {
  model : PPONetwork * Adam;
  total_policy_loss : pynum F;
  total_value_loss : pynum F;
  total_entropy : pynum F;
  n_updates : Z
}.

Definition batch_round (self : PPOAgent) (advantages returns : list F)
    (indices : list nat) (n : nat) (batch_size : Z)
    (acc : res Progress) (start_idx : nat) : res Progress :=
  p ← acc;
  let current := with_model self (fst (model p)) (snd (model p)) in
  let '(trained, (policy_loss, value_loss, entropy)) :=
    minibatch_step current (batch_of indices n batch_size start_idx)
      advantages returns in
  tp ← py_add (total_policy_loss p) (PFloat policy_loss);
  tv ← py_add (total_value_loss p) (PFloat value_loss);
  te ← py_add (total_entropy p) (PFloat entropy);
  Ok {|
    model := trained;
    total_policy_loss := tp;
    total_value_loss := tv;
    total_entropy := te;
    n_updates := n_updates p + 1
  |}.

(** [for epoch in range(n_epochs)], the epochs counted down. *)
Fixpoint epochs (self : PPOAgent) (advantages returns : list F)
    (rng : nat → Rng) (n : nat) (batch_size : Z) (epoch remaining : nat)
    (acc : res Progress) : res Progress :=
  match remaining with
  | O => acc
  | S remaining' =>
      let indices := permutation (rng epoch) n in
      match batch_starts n batch_size with
      | None => _ ← acc; Raise ValueError
      | Some starts =>
          epochs self advantages returns rng n batch_size (S epoch)
            remaining'
            (foldl (batch_round self advantages returns indices n
                      batch_size) acc starts)
      end
  end.

(** [total / n_updates] *)
Definition average (total : pynum F) (n : Z) : res F :=
  if n =? 0 then Raise ZeroDivisionError
  else x ← to_float total; y ← to_float (PInt n); Ok (fdiv x y).

(** [update]: the outcome (the dictionary of statistics, or the exception)
    and the agent as the call leaves it.  [rng] gives the state of the
    random generator at each epoch. *)
Definition ppo_update (self : PPOAgent) (n_epochs batch_size : Z)
    (rng : nat → Rng) : res (gmap string F) * PPOAgent :=
  match states self with
  | [] => (Ok ∅, self)
  | first :: others =>
      let last_state := FloatTensor (List.last others first) in
      let last_value := item (snd (forward (network self) last_state)) in
      match compute_gae self last_value with
      | Raise e => (Raise e, self)
      | Ok (advantages, returns) =>
          let mean := np_mean advantages in
          let std := np_std advantages in
          let advantages :=
            map (fun a => fdiv (fsub a mean)
                            (fadd std (of_decimal 1 8))) advantages in
          let n := length (states self) in
          let start := {|
            model := (network self, optimizer self);
            total_policy_loss := PInt 0;
            total_value_loss := PInt 0;
            total_entropy := PInt 0;
            n_updates := 0
          |} in
          match epochs self advantages returns rng n batch_size 0
                  (Z.to_nat n_epochs) (Ok start) with
          | Raise e => (Raise e, self)
          | Ok p =>
              let trained :=
                clear_buffer
                  (with_model self (fst (model p)) (snd (model p))) in
              (policy_loss ← average (total_policy_loss p) (n_updates p);
               value_loss ← average (total_value_loss p) (n_updates p);
               entropy ← average (total_entropy p) (n_updates p);
               Ok (<["policy_loss" := policy_loss]>
                     (<["value_loss" := value_loss]>
                        (<["entropy" := entropy]>
                           (<["mean_return" := np_mean returns]>
                              (<["mean_advantage" := np_mean advantages]>
                                 ∅))))),
               trained)
          end
      end
  end.

(** *** Checkpoints: [save] and [load]

    The files written by [torch.save], by path.  [torch.load] gives back
    the object that [torch.save] was given. *)
Record Checkpoint : Type := {
  network_state_dict : PPONetwork;
  optimizer_state_dict : Adam
}.

Definition save (self : PPOAgent) (filepath : string)
    (files : gmap string Checkpoint) : gmap string Checkpoint :=
  <[filepath := {|
      network_state_dict := network self;
      optimizer_state_dict := optimizer self
    |}]> files.

Definition load (self : PPOAgent) (filepath : string)
    (files : gmap string Checkpoint) : res PPOAgent :=
  match files !! filepath with
  | None => Raise FileNotFoundError
  | Some checkpoint =>
      Ok (with_model self (network_state_dict checkpoint)
            (optimizer_state_dict checkpoint))
  end.

End Training.

(** ** fuzzing_controller.py: [FuzzingController.training_step] *)

Section Controller.

Context {F : Type} `{PyFloat F} `{Torch F} `{!Optimiser F}.

(** The part of the controller that [training_step] reads and writes. *)
Record FuzzingController : Type := {
  feedback_analyzer : FeedbackAnalyzer F;
  agent : PPOAgent;
  mutation_selector : MutationStrategySelector F;
  episodes : Z;
  total_updates : Z
}.

(** The dictionary that [training_step] returns when it has data:
    [update_stats] holds the keys merged in from the PPO update, none
    when there was no update. *)
Record StepStats : Type := {
  stat_episode : Z;
  stat_action : Z;
  stat_strategy : string;
  stat_reward : F;
  stat_state : list F;
  stat_done : bool;
  update_stats : gmap string F
}.

(** What the world gives one call of [training_step]: the stats file
    as [update] and then [get_current_metrics] read it, the clock, and
    the random generators. *)
Record World : Type := {
  stats_file : option string;
  clock : F;
  action_rng : Rng;
  stats_file_again : option string;
  update_rng : nat → Rng
}.

(** The strategy statistics of the step: the new reading against the
    snapshot before the last one in the history. *)
Definition attribute_outcome (analyzer : FeedbackAnalyzer F)
    (selector : MutationStrategySelector F) (world : World)
    : res (MutationStrategySelector F) :=
  match get_current_metrics (stats_file_again world),
        rev (metrics_history analyzer) with
  | Some current_metrics, _ :: prev_metrics :: _ =>
      coverage_gain ←
        py_sub (coverage current_metrics) (coverage prev_metrics);
      crashes ←
        py_sub (unique_crashes current_metrics)
          (unique_crashes prev_metrics);
      paths ←
        py_sub (paths_total current_metrics) (paths_total prev_metrics);
      update_strategy_stats selector coverage_gain crashes paths
  | _, _ => Ok selector
  end.

(** [training_step]: the outcome ([None] for the empty dictionary of a
    failed poll) and the controller as the call leaves it. *)
Definition training_step (self : FuzzingController) (world : World)
    : res (option StepStats) * FuzzingController :=
  let '(polled, analyzer) :=
    update (feedback_analyzer self) (stats_file world) (clock world) in
  let self := {|
    feedback_analyzer := analyzer;
    agent := agent self;
    mutation_selector := mutation_selector self;
    episodes := episodes self;
    total_updates := total_updates self
  |} in
  if negb polled then (Ok None, self)
  else
    match get_state_and_reward analyzer with
    | Raise e => (Raise e, self)
    | Ok (state, reward) =>
        let '(action, acting) :=
          select_action (agent self) state false (action_rng world) in
        let self := {|
          feedback_analyzer := analyzer;
          agent := acting;
          mutation_selector := mutation_selector self;
          episodes := episodes self;
          total_updates := total_updates self
        |} in
        match select_strategy (mutation_selector self) action with
        | Raise e => (Raise e, self)
        | Ok (strategy, selector) =>
            let done := is_done analyzer in
            let recorded := store_transition acting reward done in
            let self := {|
              feedback_analyzer := analyzer;
              agent := recorded;
              mutation_selector := selector;
              episodes := episodes self;
              total_updates := total_updates self
            |} in
            match attribute_outcome analyzer selector world with
            | Raise e => (Raise e, self)
            | Ok selector =>
                let '(outcome, trained, updates) :=
                  if 32 <=? Z.of_nat (length (states recorded)) then
                    let '(outcome, trained) :=
                      ppo_update recorded 10 32 (update_rng world) in
                    (outcome, trained, total_updates self + 1)
                  else (Ok ∅, recorded, total_updates self) in
                match outcome with
                | Raise e =>
                    (Raise e, {|
                       feedback_analyzer := analyzer;
                       agent := trained;
                       mutation_selector := selector;
                       episodes := episodes self;
                       total_updates := total_updates self
                     |})
                | Ok stats =>
                    (Ok (Some {|
                           stat_episode := episodes self;
                           stat_action := action;
                           stat_strategy := Strategy.name strategy;
                           stat_reward := reward;
                           stat_state := state;
                           stat_done := done;
                           update_stats := stats
                         |}), {|
                       feedback_analyzer := analyzer;
                       agent := trained;
                       mutation_selector := selector;
                       episodes :=
                         if done then episodes self + 1 else episodes self;
                       total_updates := updates
                     |})
                end
            end
        end
    end.

End Controller.

(** ** Vocabulary of the properties, and the inputs of the examples *)

Section Vocabulary.

Context {F : Type} `{PyFloat F}.

(** The signed difference [a - b] of two readings, as a float. *)
Definition delta (a b : pynum F) : res F :=
  d ← py_sub a b; to_float d.

(** A snapshot with the five readings the reward looks at; the other
    attributes are as [FuzzingMetrics()] leaves them. *)
Definition snapshot (cov crashes paths throughput stab : pynum F)
    : FuzzingMetrics F := {|
  coverage := cov;
  unique_crashes := crashes;
  unique_hangs := PInt 0;
  total_execs := PInt 0;
  execs_per_sec := throughput;
  paths_total := paths;
  paths_found := paths;
  pending_favs := PInt 0;
  pending_total := PInt 0;
  bitmap_cvg := cov;
  stability := stab;
  levels := PInt 0;
  last_crash := PInt 0;
  last_hang := PInt 0;
  last_path := PInt 0;
  cycles_done := PInt 0
|}.

(** An analyzer that has polled the snapshots of [history], the last
    one at time [t]. *)
Definition analyzer_with (history : list (FuzzingMetrics F)) (t : F)
    : FeedbackAnalyzer F := {|
  history_size := 10;
  metrics_history := history;
  last_update_time := t;
  baseline_metrics := head history
|}.

(** The scenario of the specification:
    coverage 10.0, 2 crashes, 100 paths, 500 executions a second,
    stability 95, and then 12.5, 3, 130, 520 and 96. *)
Definition scenario : FeedbackAnalyzer F :=
  analyzer_with
    [snapshot (PFloat (of_decimal 100 1)) (PInt 2) (PInt 100)
       (PInt 500) (PInt 95);
     snapshot (PFloat (of_decimal 125 1)) (PInt 3) (PInt 130)
       (PInt 520) (PInt 96)]
    (of_decimal 17930000005 1).

End Vocabulary.

(** The stats file of the self-test of feedback_analyzer.py. *)
Definition sample_stats : string :=
  String.concat (String (ascii_of_nat 10) EmptyString)
    ["start_time        : 1234567890";
     "last_update       : 1234567900";
     "fuzzer_pid        : 12345";
     "cycles_done       : 5";
     "execs_done        : 100000";
     "execs_per_sec     : 2500.50";
     "paths_total       : 150";
     "paths_found       : 150";
     "saved_crashes     : 3";
     "saved_hangs       : 1";
     "bitmap_cvg        : 45.67%";
     "stability         : 98.50%";
     "pending_favs      : 10";
     "pending_total     : 25";
     "last_path         : 1234567895";
     "last_crash        : 1234567890";
     ""].

(** A stats file whose coverage is a 1 followed by 400 zeros. *)
Definition huge_coverage_stats : string :=
  String.append "bitmap_cvg : 1"
    (String.append (string_of_list_ascii (repeat "0"%char 400)) ".0%").

(** A stats file whose number of paths is a 1 followed by 400 zeros: an
    [int] that [int()] accepts and that no [float] holds. *)
Definition huge_paths_stats : string :=
  String.append "paths_total : 1"
    (string_of_list_ascii (repeat "0"%char 400)).

(** A fresh analyzer, as [FeedbackAnalyzer(output_dir)] makes it at time
    [t], and the analyzer after one poll of a stats file holding [text]. *)
Definition fresh_analyzer (t : float) : FeedbackAnalyzer float := {|
  history_size := 10;
  metrics_history := [];
  last_update_time := t;
  baseline_metrics := None
|}.

Definition polled (text : string) : FeedbackAnalyzer float :=
  snd (update (fresh_analyzer 1793000000%float) (Some text)
         1793000060%float).

(** An integer reading that converts to a float with room to spare, and a
    snapshot whose readings all do. *)
Definition fits (a : pynum float) : Prop :=
  match a with
  | PInt z => Z.abs z < 2 ^ 1022
  | PFloat _ => True
  end.

Definition readable (m : FuzzingMetrics float) : Prop :=
  fits (coverage m) ∧ fits (unique_crashes m) ∧ fits (execs_per_sec m)
  ∧ fits (paths_total m) ∧ fits (stability m) ∧ fits (cycles_done m)
  ∧ fits (pending_favs m).

(** The [patterns] of [parse_fuzzer_stats]: the key, the class of the
    captured token, and whether a percent sign must follow. *)
Definition patterns : list (string * (ascii → bool) * bool) :=
  [("execs_done", Scan.digit_class, false);
   ("execs_per_sec", Scan.number_class, false);
   ("paths_total", Scan.digit_class, false);
   ("saved_crashes", Scan.digit_class, false);
   ("saved_hangs", Scan.digit_class, false);
   ("bitmap_cvg", Scan.number_class, true);
   ("stability", Scan.number_class, true);
   ("pending_favs", Scan.digit_class, false);
   ("pending_total", Scan.digit_class, false);
   ("cycles_done", Scan.digit_class, false);
   ("last_crash", Scan.digit_class, false);
   ("last_path", Scan.digit_class, false)].

(** A token that [float()] or [int()] refuses: with a dot, it has
    several dots or no digit; without one, it has more than 4300 digits. *)
Definition refused (value : string) : bool :=
  if Scan.has_dot value then
    negb ((Scan.count Scan.is_dot value =? 1)%nat
          && negb (Scan.count Scan.is_digit value =? 0)%nat)
  else (int_max_str_digits <? String.length value)%nat.

(** The clock values for which the time delta is exact: from 64 seconds
    to 2^53 seconds after the epoch ([time.time()] is about 1.8e9). *)
Definition clock_ok (t : float) : bool :=
  ((64 <=? t) && (t <? 0x1p53))%float.


(** The snapshot with another coverage, and with another crash count. *)
Definition set_coverage {F : Type} (m : FuzzingMetrics F) (c : pynum F)
    : FuzzingMetrics F := {|
  coverage := c;
  unique_crashes := unique_crashes m;
  unique_hangs := unique_hangs m;
  total_execs := total_execs m;
  execs_per_sec := execs_per_sec m;
  paths_total := paths_total m;
  paths_found := paths_found m;
  pending_favs := pending_favs m;
  pending_total := pending_total m;
  bitmap_cvg := bitmap_cvg m;
  stability := stability m;
  levels := levels m;
  last_crash := last_crash m;
  last_hang := last_hang m;
  last_path := last_path m;
  cycles_done := cycles_done m
|}.

Definition set_unique_crashes {F : Type} (m : FuzzingMetrics F)
    (c : pynum F) : FuzzingMetrics F := {|
  coverage := coverage m;
  unique_crashes := c;
  unique_hangs := unique_hangs m;
  total_execs := total_execs m;
  execs_per_sec := execs_per_sec m;
  paths_total := paths_total m;
  paths_found := paths_found m;
  pending_favs := pending_favs m;
  pending_total := pending_total m;
  bitmap_cvg := bitmap_cvg m;
  stability := stability m;
  levels := levels m;
  last_crash := last_crash m;
  last_hang := last_hang m;
  last_path := last_path m;
  cycles_done := cycles_done m
|}.

(** The number a reading holds, when nothing rounds. *)
Definition value (a : pynum Q) : Q :=
  match a with
  | PInt z => inject_Z z
  | PFloat q => q
  end.

(** What [__init__] establishes and every method keeps: eight
    strategies, each with its entry in [strategy_stats]. *)
Definition catalog_ok {F : Type} (self : MutationStrategySelector F)
    : Prop :=
  num_strategies self = 8
  ∧ ∀ s : MutationStrategy, is_Some (strategy_stats self !! s).

Section Recurrence.

Context {F : Type} `{PyFloat F}.

(** The advantages as the specification writes them:
    delta_t = r_t + gamma * V(s_{t+1}) * (1 - done_t) - V(s_t) and
    A_t = delta_t + gamma * lambda * (1 - done_t) * A_{t+1}, where
    V(s_n) is the bootstrap value and A_n is zero. *)
Fixpoint gae_formula (g l : F) (rs vs : list F) (ds : list bool) (nv : F)
    : list F :=
  match rs, vs, ds with
  | r :: rs', v :: vs', d :: ds' =>
      let later := gae_formula g l rs' vs' ds' nv in
      let delta := fsub (fadd r (fmul (fmul g (hd nv vs')) (non_terminal d))) v in
      fadd delta
        (fmul (fmul (fmul g l) (non_terminal d)) (hd (of_decimal 0 0) later))
      :: later
  | _, _, _ => []
  end.

End Recurrence.

(** Equal, or two zeros. *)
Definition alike (X Y : spec_float) : Prop :=
  X = Y ∨ ∃ s s', X = S754_zero s ∧ Y = S754_zero s'.

(** Python's [x == y], or both are NaN. *)
Definition same_number (x y : float) : Prop :=
  (x =? y)%float = true ∨ (is_nan x = true ∧ is_nan y = true).

(** ** A stand-in for torch, for the examples

    Tensors are lists of floats, every layer is the identity, the
    optimizer state counts the steps taken, and a minibatch step takes one
    step and reports losses of zero. *)

Module Toy.

Definition torch : Torch float := {|
  Tensor := list float;
  Linear := unit;
  Adam := nat;
  Rng := unit;
  linear := λ _ x, x;
  relu := λ x, x;
  softmax := λ x, x;
  argmax := λ _, [];
  categorical_sample := λ _ _, [];
  categorical_log_prob := λ _ _, [];
  item := hd 0%float;
  item_int := λ _, 0;
  FloatTensor := λ x, x;
  np_mean := λ _, 0%float;
  np_std := λ _, 0%float;
  permutation := λ _ n, seq 0 n
|}.

Definition optimiser : @Optimiser float torch := {|
  minibatch_step := λ agent _ _ _,
    ((@network float torch agent, S (@optimizer float torch agent)),
     (0%float, 0%float, 0%float))
|}.

Definition net : @PPONetwork float torch := {|
  shared_fc1 := tt : @Linear float torch;
  shared_fc2 := tt : @Linear float torch;
  actor_fc := tt : @Linear float torch;
  actor_out := tt : @Linear float torch;
  critic_fc := tt : @Linear float torch;
  critic_out := tt : @Linear float torch
|}.

(** An agent with the default hyperparameters and one stored transition:
    reward 1.0, value estimate 0.5, terminal. *)
Definition agent : @PPOAgent float torch := {|
  gamma := 0x1.fae147ae147aep-1%float;
  gae_lambda := 0x1.e666666666666p-1%float;
  clip_epsilon := 0x1.999999999999ap-3%float;
  value_coef := 0.5%float;
  entropy_coef := 0x1.47ae147ae147bp-7%float;
  max_grad_norm := 0.5%float;
  network := net;
  optimizer := 0%nat : @Adam float torch;
  states := [[0.5; 0; 0; 0; 0; 0; 0; 0; 0; 0]%float];
  actions := [0];
  log_probs := [0%float];
  rewards := [1%float];
  values := [0.5%float];
  dones := [true]
|}.

End Toy.

(** A controller around the stand-in agent, and what the world gives one
    of its steps: the stats file of the self-test, read twice. *)
Definition toy_controller : @FuzzingController float Toy.torch := {|
  feedback_analyzer := fresh_analyzer 1793000000%float;
  agent := Toy.agent;
  mutation_selector := MutationStrategySelector_init;
  episodes := 0;
  total_updates := 0
|}.

Definition toy_world : @World float Toy.torch := {|
  stats_file := Some sample_stats;
  clock := 1793000060%float;
  action_rng := tt : @Rng float Toy.torch;
  stats_file_again := Some sample_stats;
  update_rng := λ _, tt : @Rng float Toy.torch
|}.

(** ** Rounding to the nearest double, on integers

    A finite double is an integer multiple of 2^-1074.  Scaled by 2^K, with
    K at least 1074, the doubles are integers, and the rounding of the
    machine is a function on integers. *)

Module Nearest.

(** [V / 2^n] rounded to the nearest integer, ties to the even one. *)
Definition rne (V n : Z) : Z :=
  let q := V / 2 ^ n in
  match 2 * (V mod 2 ^ n) ?= 2 ^ n with
  | Lt => q
  | Eq => if Z.even q then q else q + 1
  | Gt => q + 1
  end.

(** Rounding a positive scaled value to 53 digits, on the grid that starts
    [k] bits above the unit. *)
Definition round (k V : Z) : Z :=
  let N := Z.max (Z.log2 V + 1 - 53) k in rne V N * 2 ^ N.

(** The same on both sides of zero. *)
Definition sround (k V : Z) : Z :=
  match V with
  | Z0 => 0
  | Zpos p => round k (Zpos p)
  | Zneg p => - round k (Zpos p)
  end.

(** The floats that are numbers, and their value scaled by [2^K]. *)
Definition finite (x : spec_float) : bool :=
  match x with
  | S754_zero _ | S754_finite _ _ _ => true
  | _ => false
  end.

Definition scaled (K : Z) (x : spec_float) : Z :=
  match x with
  | S754_finite s m e => cond_Zopp s (Zpos m * 2 ^ (e + K))
  | _ => 0
  end.

End Nearest.

(** ** feedback_analyzer.py: summary and history files *)

Section AnalyzerFiles.

Context {F : Type} `{PyFloat F}.

(** [FuzzingMetrics.to_dict]: ten of the sixteen attributes. *)
Definition to_dict (m : FuzzingMetrics F) : gmap string (pynum F) :=
  <["coverage" := coverage m]>
    (<["unique_crashes" := unique_crashes m]>
       (<["unique_hangs" := unique_hangs m]>
          (<["total_execs" := total_execs m]>
             (<["execs_per_sec" := execs_per_sec m]>
                (<["paths_total" := paths_total m]>
                   (<["paths_found" := paths_found m]>
                      (<["bitmap_cvg" := bitmap_cvg m]>
                         (<["stability" := stability m]>
                            (<["cycles_done" := cycles_done m]> ∅))))))))).

(** The loop of [load_history] on one dictionary of numbers:
    [metrics = FuzzingMetrics()], then [setattr(metrics, key, value)] for
    every item.  An attribute ends up with the value under its name, or
    with its default; a key that names no attribute of [FuzzingMetrics]
    creates one that nothing reads. *)
Definition from_dict (data : gmap string (pynum F)) : FuzzingMetrics F :=
  let attribute (name : string) (get : FuzzingMetrics F → pynum F) :=
    default (get FuzzingMetrics_init) (data !! name) in
  {|
    coverage := attribute "coverage" coverage;
    unique_crashes := attribute "unique_crashes" unique_crashes;
    unique_hangs := attribute "unique_hangs" unique_hangs;
    total_execs := attribute "total_execs" total_execs;
    execs_per_sec := attribute "execs_per_sec" execs_per_sec;
    paths_total := attribute "paths_total" paths_total;
    paths_found := attribute "paths_found" paths_found;
    pending_favs := attribute "pending_favs" pending_favs;
    pending_total := attribute "pending_total" pending_total;
    bitmap_cvg := attribute "bitmap_cvg" bitmap_cvg;
    stability := attribute "stability" stability;
    levels := attribute "levels" levels;
    last_crash := attribute "last_crash" last_crash;
    last_hang := attribute "last_hang" last_hang;
    last_path := attribute "last_path" last_path;
    cycles_done := attribute "cycles_done" cycles_done
  |}.

(** The JSON files by path: a file holds a list of dictionaries of
    numbers, and [json.load] gives back the numbers that [json.dump] was
    given ([int] as [int], [float] as [float]). *)
Definition save_history (self : FeedbackAnalyzer F) (filepath : string)
    (files : gmap string (list (gmap string (pynum F))))
    : gmap string (list (gmap string (pynum F))) :=
  <[filepath := map to_dict (metrics_history self)]> files.

Definition load_history (self : FeedbackAnalyzer F) (filepath : string)
    (files : gmap string (list (gmap string (pynum F))))
    : res (FeedbackAnalyzer F) :=
  match files !! filepath with
  | None => Raise FileNotFoundError
  | Some history_data =>
      Ok {|
        history_size := history_size self;
        metrics_history := map from_dict history_data;
        last_update_time := last_update_time self;
        baseline_metrics := baseline_metrics self
      |}
  end.

(** The dictionary of [get_summary]; [None] is the empty dictionary of
    an empty history, and [improvement] is there when the baseline is
    set. *)
Record Summary : Type := {
  current_metrics : gmap string (pynum F);
  history_length : Z;
  baseline_set : bool;
  improvement : option (pynum F * pynum F * pynum F)
}.

Definition get_summary (self : FeedbackAnalyzer F) : res (option Summary) :=
  match rev (metrics_history self) with
  | [] => Ok None
  | current :: _ =>
      gained ←
        match baseline_metrics self with
        | None => Ok None
        | Some baseline =>
            d_coverage ← py_sub (coverage current) (coverage baseline);
            d_crashes ←
              py_sub (unique_crashes current) (unique_crashes baseline);
            d_paths ← py_sub (paths_total current) (paths_total baseline);
            Ok (Some (d_coverage, d_crashes, d_paths))
        end;
      Ok (Some {|
            current_metrics := to_dict current;
            history_length := Z.of_nat (length (metrics_history self));
            baseline_set :=
              match baseline_metrics self with
              | Some _ => true
              | None => false
              end;
            improvement := gained
          |})
  end.

(** A reading that is an [int] and not negative. *)
Definition is_count (a : pynum F) : Prop := ∃ z : Z, a = PInt z ∧ 0 <= z.

(** A run of polls: [update] called once for each reading of the stats
    file and of the clock. *)
Definition polls (self : FeedbackAnalyzer F)
    (readings : list (option string * F)) : FeedbackAnalyzer F :=
  foldl (fun analyzer reading =>
           snd (update analyzer (fst reading) (snd reading)))
    self readings.

(** What the round trip through a history file does to a snapshot: the
    six attributes that [to_dict] leaves out are back at their defaults. *)
Definition saved_part (m : FuzzingMetrics F) : FuzzingMetrics F := {|
  coverage := coverage m;
  unique_crashes := unique_crashes m;
  unique_hangs := unique_hangs m;
  total_execs := total_execs m;
  execs_per_sec := execs_per_sec m;
  paths_total := paths_total m;
  paths_found := paths_found m;
  pending_favs := pending_favs FuzzingMetrics_init;
  pending_total := pending_total FuzzingMetrics_init;
  bitmap_cvg := bitmap_cvg m;
  stability := stability m;
  levels := levels FuzzingMetrics_init;
  last_crash := last_crash FuzzingMetrics_init;
  last_hang := last_hang FuzzingMetrics_init;
  last_path := last_path FuzzingMetrics_init;
  cycles_done := cycles_done m
|}.

End AnalyzerFiles.

Arguments Summary F : clear implicits.
(** ** ppo_agent.py: the buffer over a run of transitions *)

Section Transitions.

Context {F : Type} `{PyFloat F} `{Torch F}.

(** What one step gives the agent: the state it acts on, and the reward
    and the flag it is then told to store. *)
Record Transition : Type := {
  tr_state : list F;
  tr_deterministic : bool;
  tr_rng : Rng;
  tr_reward : F;
  tr_done : bool
}.

(** [select_action(state, deterministic)] followed by
    [store_transition(reward, done)]. *)
Definition record_transition (self : PPOAgent) (t : Transition) : PPOAgent :=
  store_transition
    (snd (select_action self (tr_state t) (tr_deterministic t) (tr_rng t)))
    (tr_reward t) (tr_done t).

Definition record_all (self : PPOAgent) (ts : list Transition) : PPOAgent :=
  foldl record_transition self ts.

(** The six lists of the buffer hold [n] entries each. *)
Definition buffer_holds (self : PPOAgent) (n : nat) : Prop :=
  length (states self) = n ∧ length (actions self) = n
  ∧ length (log_probs self) = n ∧ length (rewards self) = n
  ∧ length (values self) = n ∧ length (dones self) = n.

(** The returns of TD(lambda): [R_t = r_t + gamma * (1 - done_t) *
    ((1 - lambda) * V(s_{t+1}) + lambda * R_{t+1})], where both [V(s_n)]
    and [R_n] are the bootstrap value. *)
Fixpoint lambda_returns (g l : F) (rs vs : list F) (ds : list bool) (nv : F)
    : list F :=
  match rs, vs, ds with
  | r :: rs', v :: vs', d :: ds' =>
      let later := lambda_returns g l rs' vs' ds' nv in
      fadd r
        (fmul (fmul g (non_terminal d))
           (fadd (fmul (fsub (of_decimal 10 1) l) (hd nv vs'))
              (fmul l (hd nv later))))
      :: later
  | _, _, _ => []
  end.

(** The discounted returns: [R_t = r_t + gamma * (1 - done_t) * R_{t+1}],
    with the bootstrap value after the last step. *)
Fixpoint discounted_returns (g : F) (rs : list F) (ds : list bool) (nv : F)
    : list F :=
  match rs, ds with
  | r :: rs', d :: ds' =>
      let later := discounted_returns g rs' ds' nv in
      fadd r (fmul (fmul g (non_terminal d)) (hd nv later)) :: later
  | _, _ => []
  end.

(** [ceil(n / size)], the number of minibatches of an epoch. *)
Definition batches (n : nat) (batch_size : Z) : Z :=
  (Z.of_nat n + batch_size - 1) / batch_size.

End Transitions.

Section UpdateLoops.

Context {F : Type} `{PyFloat F} `{Torch F} `{!Optimiser F}.

(** The two loops of [update], from the model and the zero totals the
    call starts with. *)
Definition update_loops (self : PPOAgent) (advantages returns : list F)
    (rng : nat → Rng) (n_epochs batch_size : Z) : res Progress :=
  epochs self advantages returns rng (length (states self)) batch_size 0
    (Z.to_nat n_epochs)
    (Ok {|
       model := (network self, optimizer self);
       total_policy_loss := PInt 0;
       total_value_loss := PInt 0;
       total_entropy := PInt 0;
       n_updates := 0
     |}).

End UpdateLoops.

(** ** mutation_selector.py: statistics of the strategies *)

Section SelectorReports.

Context {F : Type} `{PyFloat F}.

(** [reset_stats]: a fresh entry for every member of the enumeration and
    an empty history; [current_strategy] is not touched. *)
Definition reset_stats (self : MutationStrategySelector F)
    : MutationStrategySelector F := {|
  num_strategies := num_strategies self;
  strategy_stats :=
    foldl (fun stats strategy => <[strategy := StrategyStats_init]> stats)
      (strategy_stats self) Strategy.members;
  current_strategy := current_strategy self;
  strategy_history := []
|}.

(** The calls that change a selector, and a run of them from one
    selector on; an exception ends the run. *)
Inductive SelectorCall : Type :=
  | CallSelect (action : Z)
  | CallUpdate (coverage_gain crashes paths : pynum F)
  | CallReset.

Definition selector_call (self : MutationStrategySelector F)
    (c : SelectorCall) : res (MutationStrategySelector F) :=
  match c with
  | CallSelect action =>
      chosen ← select_strategy self action; Ok (snd chosen)
  | CallUpdate coverage_gain crashes paths =>
      update_strategy_stats self coverage_gain crashes paths
  | CallReset => Ok (reset_stats self)
  end.


(** Every strategy has its entry, and the entry counts how often the
    strategy occurs in the history. *)
Definition selections_counted (self : MutationStrategySelector F) : Prop :=
  num_strategies self = 8
  ∧ ∀ s : MutationStrategy,
      ∃ entry,
        strategy_stats self !! s = Some entry
        ∧ times_selected entry
          = Z.of_nat (length (filter (fun x => x = s)
                                (strategy_history self))).

End SelectorReports.

Arguments SelectorCall F : clear implicits.

(** [get_best_strategy], in binary64 (the loop starts from minus
    infinity). *)

(** [x / n] with [x] a float and [n] an [int] *)
Definition float_by_int (x : float) (n : Z) : res float :=
  y ← to_float (PInt n);
  if feqb y (of_decimal 0 0) then Raise ZeroDivisionError
  else Ok (fdiv x y).

(** The weighted score of an entry that has been selected. *)
Definition strategy_score (entry : StrategyStats float) : res float :=
  gains ← py_mul (coverage_gains entry) (of_decimal 10 1);
  crashes ← py_mul (crashes_found entry) (of_decimal 500 1);
  paths ← py_mul (paths_found_by entry) (of_decimal 10 1);
  float_by_int (fadd (fadd gains crashes) paths) (times_selected entry).

(** One round of the loop over the strategies. *)
Definition best_round (stats : gmap MutationStrategy (StrategyStats float))
    (acc : res (MutationStrategy * float)) (strategy : MutationStrategy)
    : res (MutationStrategy * float) :=
  best ← acc;
  match stats !! strategy with
  | None => Raise KeyError
  | Some entry =>
      if times_selected entry =? 0 then Ok best
      else
        score ← strategy_score entry;
        if fltb (snd best) score then Ok (strategy, score) else Ok best
  end.

Definition get_best_strategy (self : MutationStrategySelector float)
    : res MutationStrategy :=
  best ← foldl (best_round (strategy_stats self))
            (Ok (HAVOC_MEDIUM, neg_infinity)) Strategy.members;
  Ok (fst best).

(** The order of the doubles that are numbers, on integers: a finite
    double by its value scaled by 2^1074, the infinities beyond every
    finite one. *)
Definition rank (x : spec_float) : Z :=
  match x with
  | S754_infinity false => 2 ^ 2200
  | S754_infinity true => - 2 ^ 2200
  | _ => Nearest.scaled 1074 x
  end.

(** ** fuzzing_controller.py: a run of training steps *)

Section ControllerRun.

Context {F : Type} `{PyFloat F} `{Torch F} `{!Optimiser F}.

(** Calls of [training_step] one after the other on the same controller,
    each with what the world gives it; an exception ends the sequence.
    The outcomes are collected in the order of the calls. *)
Definition training_steps (self : FuzzingController) (worlds : list World)
    : res (FuzzingController * list (option StepStats)) :=
  foldl (fun acc world =>
           state ← acc;
           let '(outcome, controller) := training_step (fst state) world in
           stats ← outcome;
           Ok (controller, snd state ++ [stats]))
    (Ok (self, [])) worlds.

(** The steps that had data, and those among them that ended an
    episode. *)
Definition steps_with_data (outcomes : list (option (@StepStats F)))
    : list (@StepStats F) :=
  omap id outcomes.

Definition episodes_ended (outcomes : list (option (@StepStats F))) : nat :=
  length (filter (fun stats => stat_done stats = true)
            (steps_with_data outcomes)).

End ControllerRun.

(** ** mutation_selector.py: [class AFLCustomMutator] *)

(** numpy's global generator: [np.random.random()], and
    [np.random.randint(low, high)], which draws from [low, high). *)
Class NumpyRandom (F : Type) : Type := {
  RandomState : Type;
  random : RandomState → F * RandomState;
  randint : Z → Z → RandomState → Z * RandomState;
  randint_range :
    ∀ low high s, low < high → low <= fst (randint low high s) < high
}.

Section Mutator.

Context {F : Type} `{PyFloat F} `{NumpyRandom F}.

Record AFLCustomMutator : Type := {
  selector : MutationStrategySelector F;
  current_config : option (MutationConfig F)
}.

(** [AFLCustomMutator()] *)
Definition AFLCustomMutator_init : AFLCustomMutator := {|
  selector := MutationStrategySelector_init;
  current_config := None
|}.


(** A [bytearray] is a list of integers from 0 to 255. *)
Definition is_bytes (data : list Z) : Prop :=
  Forall (fun b => 0 <= b < 256) data.

(** The position an index stands for: a negative one counts from the
    end. *)
Definition position (mutated : list Z) (i : Z) : res nat :=
  let j := if i <? 0 then i + Z.of_nat (length mutated) else i in
  if (j <? 0) || (Z.of_nat (length mutated) <=? j) then Raise IndexError
  else Ok (Z.to_nat j).

(** [mutated[i]] and [mutated[i] = value] *)
Definition get_byte (mutated : list Z) (i : Z) : res Z :=
  j ← position mutated i;
  match mutated !! j with
  | Some b => Ok b
  | None => Raise IndexError
  end.

Definition set_byte (mutated : list Z) (i : Z) (value : Z)
    : res (list Z) :=
  j ← position mutated i;
  if (value <? 0) || (255 <? value) then Raise ValueError
  else Ok (<[j := value]> mutated).

(** [1 << k] *)
Definition shift_one (k : Z) : res Z :=
  if k <? 0 then Raise ValueError else Ok (Z.shiftl 1 k).

(** The loop of the deterministic mutations, over the indices of
    [range(min(len(mutated), max_size))]. *)
Fixpoint flip_bits (indices : list nat) (mutated : list Z)
    (s : RandomState) : res (list Z * RandomState) :=
  match indices with
  | [] => Ok (mutated, s)
  | i :: rest =>
      let '(x, s) := random s in
      if fltb x (of_decimal 1 1) then
        old ← get_byte mutated (Z.of_nat i);
        let '(k, s) := randint 0 8 s in
        bit ← shift_one k;
        mutated ← set_byte mutated (Z.of_nat i) (Z.lxor old bit);
        flip_bits rest mutated s
      else flip_bits rest mutated s
  end.

(** The loop of the havoc mutations, [rounds] times unless the data is
    empty. *)
Fixpoint havoc (rounds : nat) (mutated : list Z) (s : RandomState)
    : res (list Z * RandomState) :=
  match rounds with
  | O => Ok (mutated, s)
  | S rounds' =>
      if (length mutated =? 0)%nat then Ok (mutated, s)
      else
        let '(idx, s) := randint 0 (Z.of_nat (length mutated)) s in
        let '(value, s) := randint 0 256 s in
        mutated ← set_byte mutated idx value;
        havoc rounds' mutated s
  end.

(** [mutated[:max_size]] *)
Definition up_to (mutated : list Z) (max_size : Z) : list Z :=
  take (Z.to_nat (if max_size <? 0
                  then Z.of_nat (length mutated) + max_size
                  else max_size)) mutated.

Definition mutate (self : AFLCustomMutator) (data : list Z) (max_size : Z)
    (s : RandomState) : res (list Z * RandomState) :=
  match current_config self with
  | None => Ok (data, s)
  | Some config =>
      let mutated := data in
      mutated_s ←
        (if deterministic_mode config then
           flip_bits
             (seq 0 (Z.to_nat (Z.min (Z.of_nat (length mutated)) max_size)))
             mutated s
         else havoc (Z.to_nat (havoc_cycles config)) mutated s);
      Ok (up_to (fst mutated_s) max_size, snd mutated_s)
  end.

(** Two bytes that are equal or differ in one bit. *)
Definition one_bit_apart (old b : Z) : Prop :=
  b = old ∨ ∃ k : Z, 0 <= k < 8 ∧ b = Z.lxor old (2 ^ k).

(** The number of positions at which two byte strings differ. *)
Definition differing (a b : list Z) : nat :=
  length (filter (fun p => fst p ≠ snd p) (zip a b)).

End Mutator.

(** A stand-in for the generator: every draw of [random()] is 0.0, and
    the draws of [randint] walk through the range. *)
Definition toy_random : NumpyRandom float.
Proof.
refine {|
  RandomState := nat;
  random := λ s, (0%float, S s);
  randint := λ low high s, (low + Z.of_nat s mod (high - low), S s);
  randint_range := _
|}.
intros low high s Hlt. cbn [fst].
pose proof (Z.mod_pos_bound (Z.of_nat s) (high - low) ltac:(lia)). lia.
Defined.

(** Stand-ins over the rationals, for the statements in exact
    arithmetic: an agent with [gae_lambda] 1 and two stored transitions,
    the second one terminal. *)
Module ToyExact.

Definition torch : Torch Q := {|
  Tensor := list Q;
  Linear := unit;
  Adam := nat;
  Rng := unit;
  linear := λ _ x, x;
  relu := λ x, x;
  softmax := λ x, x;
  argmax := λ _, [];
  categorical_sample := λ _ _, [];
  categorical_log_prob := λ _ _, [];
  item := hd 0%Q;
  item_int := λ _, 0;
  FloatTensor := λ x, x;
  np_mean := λ _, 0%Q;
  np_std := λ _, 0%Q;
  permutation := λ _ n, seq 0 n
|}.

Definition net : @PPONetwork Q torch := {|
  shared_fc1 := tt : @Linear Q torch;
  shared_fc2 := tt : @Linear Q torch;
  actor_fc := tt : @Linear Q torch;
  actor_out := tt : @Linear Q torch;
  critic_fc := tt : @Linear Q torch;
  critic_out := tt : @Linear Q torch
|}.

Definition agent : @PPOAgent Q torch := {|
  gamma := (99 # 100)%Q;
  gae_lambda := 1%Q;
  clip_epsilon := (2 # 10)%Q;
  value_coef := (1 # 2)%Q;
  entropy_coef := (1 # 100)%Q;
  max_grad_norm := (1 # 2)%Q;
  network := net;
  optimizer := 0%nat : @Adam Q torch;
  states := [[]; []];
  actions := [0; 0];
  log_probs := [0%Q; 0%Q];
  rewards := [1%Q; 2%Q];
  values := [(1 # 2)%Q; (1 # 4)%Q];
  dones := [false; true]
|}.

End ToyExact.

(** ** binary64: the facts of the arithmetic that the proofs use *)

Module B64.

#[local] Open Scope float_scope.

(** The decimal literals of the code. *)
Lemma lit_0_0 : of_decimal 0 1 = 0.
Proof. reflexivity. Qed.

Lemma lit_0 : of_decimal 0 0 = 0.
Proof. reflexivity. Qed.

Lemma lit_0_5 : of_decimal 5 1 = 0.5.
Proof. vm_compute. reflexivity. Qed.

Lemma lit_1_0 : of_decimal 10 1 = 1.
Proof. vm_compute. reflexivity. Qed.

Lemma lit_10_0 : of_decimal 100 1 = 10.
Proof. vm_compute. reflexivity. Qed.

Lemma lit_50_0 : of_decimal 500 1 = 50.
Proof. vm_compute. reflexivity. Qed.

Lemma lit_100_0 : of_decimal 1000 1 = 100.
Proof. vm_compute. reflexivity. Qed.

Lemma lit_1000_0 : of_decimal 10000 1 = 1000.
Proof. vm_compute. reflexivity. Qed.

Lemma int_60 : of_int 60%Z = Some 60.
Proof. vm_compute. reflexivity. Qed.

(** Multiplication commutes, bit for bit. *)
Lemma SFmul_comm (x y : spec_float) :
  SFmul prec emax x y = SFmul prec emax y x.
Proof.
  destruct x as [sx|sx| |sx mx ex], y as [sy|sy| |sy my ey]; simpl;
    rewrite ?(xorb_comm sx sy); try reflexivity.
  now rewrite (Pos.mul_comm mx my), (Z.add_comm ex ey).
Qed.

Lemma mul_comm (x y : float) : x * y = y * x.
Proof.
  apply Prim2SF_inj. rewrite !mul_spec. apply SFmul_comm.
Qed.

End B64.

(** ** binary64: subtractions that do not round

    [get_state_vector] computes [t - (t - 60)] on the clock.  For a clock
    between 64 and 2^53 seconds both subtractions are exact, which the
    lemmas below read off the specification of the rounding. *)

Module Rounding.

Lemma digits_log2 (p : positive) : Zpos (digits2_pos p) = Z.log2 (Zpos p) + 1.
Proof.
induction p as [p IH|p IH|]; simpl; try reflexivity.
- rewrite Pos2Z.inj_succ, IH. destruct p; simpl; lia.
- rewrite Pos2Z.inj_succ, IH. destruct p; simpl; lia.
Qed.

Lemma iter_xO (m d : positive) : Zpos (Pos.iter xO m d) = Zpos m * 2 ^ Zpos d.
Proof.
revert m. induction d as [|d IH] using Pos.peano_ind; intros m.
- simpl. lia.
- rewrite Pos.iter_succ, Pos2Z.inj_succ, Z.pow_succ_r by lia.
  rewrite Pos2Z.inj_xO, IH. lia.
Qed.

Lemma iter_pos_nat {A : Type} (f : A → A) (n : positive) (x : A) :
  SpecFloat.iter_pos f n x = Nat.iter (Pos.to_nat n) f x.
Proof.
revert x. induction n as [n IH|n IH|]; intros x; cbn [SpecFloat.iter_pos].
- rewrite !IH, Pos2Nat.inj_xI. 
  replace (S (2 * Pos.to_nat n))%nat with (Pos.to_nat n + S (Pos.to_nat n))%nat by lia.
  rewrite Nat.iter_add. f_equal. now rewrite Nat.iter_succ_r.
- rewrite !IH, Pos2Nat.inj_xO.
  replace (2 * Pos.to_nat n)%nat with (Pos.to_nat n + Pos.to_nat n)%nat by lia.
  now rewrite Nat.iter_add.
- reflexivity.
Qed.

Lemma shr_exact_nat (k : nat) (q : positive) :
  Nat.iter k shr_1 {| shr_m := Zpos q * 2 ^ Z.of_nat k; shr_r := false; shr_s := false |}
  = {| shr_m := Zpos q; shr_r := false; shr_s := false |}.
Proof.
induction k as [|k IH].
- simpl. f_equal. lia.
- rewrite Nat.iter_succ_r.
  assert (Hpos : 0 < Zpos q * 2 ^ Z.of_nat k)
    by (apply Z.mul_pos_pos; [lia|apply Z.pow_pos_nonneg; lia]).
  replace (Zpos q * 2 ^ Z.of_nat (S k)) with (Zpos (xO (Z.to_pos (Zpos q * 2 ^ Z.of_nat k)))).
  + cbn [shr_1 orb]. rewrite Z2Pos.id by exact Hpos. exact IH.
  + rewrite Pos2Z.inj_xO, Z2Pos.id by lia. rewrite Nat2Z.inj_succ, Z.pow_succ_r by lia. lia.
Qed.

Lemma shr_exact (n q : positive) :
  SpecFloat.iter_pos shr_1 n {| shr_m := Zpos q * 2 ^ Zpos n; shr_r := false; shr_s := false |}
  = {| shr_m := Zpos q; shr_r := false; shr_s := false |}.
Proof.
rewrite iter_pos_nat. rewrite <- (positive_nat_Z n). apply shr_exact_nat.
Qed.

Lemma shr_fexp_canonical (q : positive) (e : Z) :
  fexp prec emax (Zpos (digits2_pos q) + e) = e →
  shr_fexp prec emax (Zpos q) e loc_Exact
  = ({| shr_m := Zpos q; shr_r := false; shr_s := false |}, e).
Proof.
intros Hc. unfold shr_fexp. simpl Zdigits2. rewrite Hc, Z.sub_diag. reflexivity.
Qed.

Lemma round_aux_canonical (q : positive) (e : Z) :
  fexp prec emax (Zpos (digits2_pos q) + e) = e →
  e <= emax - prec →
  binary_round_aux prec emax false (Zpos q) e loc_Exact = S754_finite false q e.
Proof.
intros Hc He. unfold binary_round_aux.
rewrite (shr_fexp_canonical q e Hc).
cbn [shr_m loc_of_shr_record round_nearest_even].
rewrite (shr_fexp_canonical q e Hc). cbn [shr_m].
apply Z.leb_le in He. now rewrite He.
Qed.

Lemma digits_shift (q : positive) (n : Z) : 0 <= n →
  Z.log2 (Zpos q * 2 ^ n) = Z.log2 (Zpos q) + n.
Proof. intros Hn. rewrite Z.log2_mul_pow2 by lia. lia. Qed.

(** Rounding a value that needs no rounding. *)
Lemma round_exact (M q : positive) (ez e1 : Z) :
  fexp prec emax (Zpos (digits2_pos M) + ez) = e1 →
  e1 <= emax - prec →
  (ez <= e1 ∧ Zpos M = Zpos q * 2 ^ (e1 - ez)) ∨ (e1 <= ez ∧ Zpos q = Zpos M * 2 ^ (ez - e1)) →
  binary_round prec emax false M ez = S754_finite false q e1.
Proof.
intros He1 Hmax Hq. unfold binary_round. rewrite He1.
assert (Hd : Zpos (digits2_pos q) + e1 = Zpos (digits2_pos M) + ez).
{ rewrite !digits_log2. destruct Hq as [[Hle HM]|[Hle Hq]].
  - rewrite HM, digits_shift by lia. lia.
  - rewrite Hq, digits_shift by lia. lia. }
assert (Hc : fexp prec emax (Zpos (digits2_pos q) + e1) = e1) by now rewrite Hd.
unfold shl_align.
destruct (e1 - ez) as [|n|n] eqn:Hn.
- assert (q = M) as -> by (destruct Hq as [[_ E]|[_ E]]; replace (ez - e1) with 0 in * by lia; rewrite ?Hn in *; simpl in E; lia).
  replace ez with e1 by lia. now apply round_aux_canonical.
- destruct Hq as [[_ HM]|[Hle _]]; [|lia].
  unfold binary_round_aux. unfold shr_fexp at 1. cbn [Zdigits2]. rewrite He1, Hn.
  unfold shr. cbn [shr_record_of_loc].
  rewrite HM, shr_exact.
  cbn [shr_m loc_of_shr_record round_nearest_even].
  replace (ez + Zpos n) with e1 by lia.
  rewrite (shr_fexp_canonical q e1 Hc). cbn [shr_m].
  apply Z.leb_le in Hmax. now rewrite Hmax.
- destruct Hq as [[Hle _]|[_ Hq]]; [lia|].
  assert (Pos.iter xO M n = q) as ->.
  { apply Pos2Z.inj. rewrite iter_xO, Hq. f_equal. f_equal. lia. }
  now apply round_aux_canonical.
Qed.



Lemma digits_53 (m : positive) :
  Zpos (digits2_pos m) = 53 → 4503599627370496 <= Zpos m < 9007199254740992.
Proof.
rewrite digits_log2. intros Hd.
assert (Hl : Z.log2 (Zpos m) = 52) by (clear -Hd; lia).
pose proof (Z.log2_spec (Zpos m) ltac:(reflexivity)) as Hs. rewrite Hl in Hs.
assert (E52 : 2 ^ 52 = 4503599627370496) by (vm_compute; reflexivity).
assert (E53 : 2 ^ Z.succ 52 = 9007199254740992) by (vm_compute; reflexivity).
rewrite E52, E53 in Hs. exact Hs.
Qed.

Lemma clock_shape (t : float) :
  clock_ok t = true →
  ∃ m e, Prim2SF t = S754_finite false m e
    ∧ Zpos (digits2_pos m) = 53 ∧ -46 <= e <= 0.
Proof.
unfold clock_ok. rewrite andb_true_iff, FloatAxioms.leb_spec, FloatAxioms.ltb_spec.
assert (E64 : Prim2SF 64 = S754_finite false 4503599627370496 (-46))
  by (vm_compute; reflexivity).
assert (E53 : Prim2SF 0x1p53 = S754_finite false 4503599627370496 1)
  by (vm_compute; reflexivity).
rewrite E64, E53. clear E64 E53.
pose proof (Prim2SF_valid t) as Hv.
destruct (Prim2SF t) as [s|s| |s m e]; unfold SFleb, SFltb; cbn [SFcompare];
  intros [H1 H2]; try discriminate; try (destruct s; discriminate).
destruct s; [discriminate|].
exists m, e. split; [reflexivity|].
unfold valid_binary, bounded, canonical_mantissa in Hv.
apply andb_true_iff in Hv. destruct Hv as [Hc _]. apply Z.eqb_eq in Hc.
unfold fexp, SpecFloat.emin, emax, prec in Hc.
assert (He : -46 <= e).
{ destruct (Z.compare_spec (-46) e) as [E|E|E];
    [clear -E; lia|clear -E; lia|discriminate]. }
assert (He' : e <= 1).
{ destruct (Z.compare_spec e 1) as [E|E|E];
    [clear -E; lia|clear -E; lia|discriminate]. }
assert (Hd : Zpos (digits2_pos m) = 53) by (clear -Hc He; lia).
split; [exact Hd|]. split; [exact He|].
destruct (Z.eq_dec e 1) as [->|n]; [|clear -He' n; lia]. exfalso.
rewrite Z.compare_refl in H2.
destruct (PosDef.Pos.compare_cont Eq m 4503599627370496) eqn:Hcmp;
  try discriminate.
assert (Hlt : (m < 4503599627370496)%positive).
{ unfold Pos.lt, Pos.compare. exact Hcmp. }
apply digits_53 in Hd. destruct Hd as [Hd _].
apply Pos2Z.pos_lt_pos in Hlt. clear -Hd Hlt. lia.
Qed.

Lemma shl_align_le (m : positive) (e e' : Z) :
  e' <= e →
  shl_align m e e' = (Z.to_pos (Zpos m * 2 ^ (e - e')), e').
Proof.
intros Hle. unfold shl_align. destruct (e' - e) as [|d|d] eqn:Hd.
- replace e' with e by lia. rewrite Z.sub_diag, Z.mul_1_r. reflexivity.
- lia.
- f_equal. apply Pos2Z.inj. rewrite iter_xO.
  replace (e - e') with (Zpos d) by lia.
  rewrite Z2Pos.id; [reflexivity|].
  apply Z.mul_pos_pos; [reflexivity|apply Z.pow_pos_nonneg; lia].
Qed.

Lemma pow2_pos (a : Z) : 0 <= a → 0 < 2 ^ a.
Proof. intros. apply Z.pow_pos_nonneg; lia. Qed.

Lemma pow2_split (a b : Z) : 0 <= a → 0 <= b → 2 ^ (a + b) = 2 ^ a * 2 ^ b.
Proof. intros. apply Z.pow_add_r; assumption. Qed.

(** Subtracting two positive floats: the operands aligned, then rounded. *)
Lemma SFsub_finite (m1 m2 : positive) (e1 e2 : Z) (D : positive) :
  e2 <= e1 →
  Zpos m1 * 2 ^ (e1 - e2) - Zpos m2 = Zpos D →
  SF64sub (S754_finite false m1 e1) (S754_finite false m2 e2)
  = binary_round prec emax false D e2.
Proof.
intros Hle HD. unfold SF64sub, SFsub.
rewrite (Z.min_r e1 e2) by exact Hle.
rewrite (shl_align_le m1 e1 e2 Hle), (shl_align_le m2 e2 e2 (Z.le_refl _)).
cbn [fst cond_Zopp].
rewrite Z.sub_diag, Z.mul_1_r, Pos2Z.id.
rewrite Z2Pos.id by (apply Z.mul_pos_pos; [reflexivity|apply pow2_pos; lia]).
rewrite HD. reflexivity.
Qed.

Lemma fexp_normal (x : Z) : -1021 <= x → fexp prec emax x = x - 53.
Proof. intros Hx. unfold fexp, SpecFloat.emin, emax, prec. lia. Qed.

(** [t - 60] for [t = m * 2^e] between 64 and 2^53. *)
Lemma sub_60 (m : positive) (e : Z) :
  Zpos (digits2_pos m) = 53 → -46 <= e <= 0 →
  ∃ q1 e1,
    SF64sub (S754_finite false m e) (S754_finite false 8444249301319680 (-47))
    = S754_finite false q1 e1
    ∧ -50 <= e1 <= e
    ∧ Zpos q1 = Zpos m * 2 ^ (e - e1) - 15 * 2 ^ (2 - e1).
Proof.
intros Hd He. apply digits_53 in Hd.
assert (HP : 2 <= 2 ^ (e + 47)).
{ change 2 with (2 ^ 1) at 1. apply Z.pow_le_mono_r; lia. }
assert (HPpos : 0 < 2 ^ (e + 47)) by (apply pow2_pos; lia).
assert (HD : 562949953421312 <= Zpos m * 2 ^ (e + 47) - 8444249301319680).
{ remember (2 ^ (e + 47)) as P. clear -Hd HP. nia. }
destruct (Zpos m * 2 ^ (e + 47) - 8444249301319680) as [|D|D] eqn:ED;
  [clear -HD; lia| |clear -HD; lia].
assert (HL1 : 49 <= Z.log2 (Zpos D)).
{ apply Z.log2_le_pow2; [reflexivity|].
  assert (E49 : 2 ^ 49 = 562949953421312) by (vm_compute; reflexivity).
  rewrite E49. exact HD. }
assert (HL2 : Z.log2 (Zpos D) < 100 + e).
{ apply Z.log2_lt_pow2; [reflexivity|].
  replace (100 + e) with (53 + (e + 47)) by lia.
  rewrite pow2_split by lia.
  assert (E53 : 2 ^ 53 = 9007199254740992) by (vm_compute; reflexivity).
  rewrite E53. remember (2 ^ (e + 47)) as P. clear -Hd ED HPpos. nia. }
set (e1 := Z.log2 (Zpos D) - 99).
assert (He1 : -50 <= e1 <= e) by (unfold e1; clear -HL1 HL2; lia).
assert (Hq : Zpos D = (Zpos m * 2 ^ (e - e1) - 15 * 2 ^ (2 - e1)) * 2 ^ (e1 + 47)
             ∧ -47 <= e1
          ∨ Zpos m * 2 ^ (e - e1) - 15 * 2 ^ (2 - e1) = Zpos D * 2 ^ (-47 - e1)
             ∧ e1 <= -47).
{ destruct (Z_le_gt_dec (-47) e1) as [Hc|Hc]; [left|right]; split; try lia.
  - assert (E1 : 2 ^ (e + 47) = 2 ^ (e - e1) * 2 ^ (e1 + 47)).
    { rewrite <- pow2_split by lia. f_equal. lia. }
    assert (E2 : 8444249301319680 = 15 * (2 ^ (2 - e1) * 2 ^ (e1 + 47))).
    { rewrite <- pow2_split by lia.
      replace (2 - e1 + (e1 + 47)) with 49 by lia. reflexivity. }
    rewrite <- ED, E1, E2. ring.
  - assert (E1 : 2 ^ (e - e1) = 2 ^ (e + 47) * 2 ^ (-47 - e1)).
    { rewrite <- pow2_split by lia. f_equal. lia. }
    assert (E2 : 2 ^ (2 - e1) = 562949953421312 * 2 ^ (-47 - e1)).
    { replace (2 - e1) with (49 + (-47 - e1)) by lia.
      rewrite pow2_split by lia. reflexivity. }
    rewrite <- ED, E1, E2. ring. }
assert (Hqpos : 0 < Zpos m * 2 ^ (e - e1) - 15 * 2 ^ (2 - e1)).
{ destruct Hq as [[Hq Hc]|[Hq Hc]].
  - assert (0 < 2 ^ (e1 + 47)) by (apply pow2_pos; lia).
    remember (Zpos m * 2 ^ (e - e1) - 15 * 2 ^ (2 - e1)) as q.
    remember (2 ^ (e1 + 47)) as X. clear -Hq H. nia.
  - rewrite Hq. apply Z.mul_pos_pos; [reflexivity|apply pow2_pos; lia]. }
exists (Z.to_pos (Zpos m * 2 ^ (e - e1) - 15 * 2 ^ (2 - e1))), e1.
split; [|split; [exact He1|now rewrite Z2Pos.id]].
rewrite (SFsub_finite m 8444249301319680 e (-47) D) by
  (try lia; replace (e - -47) with (e + 47) by lia; exact ED).
apply round_exact.
- rewrite digits_log2, fexp_normal by lia. unfold e1. lia.
- unfold emax, prec. lia.
- rewrite Z2Pos.id by exact Hqpos.
  destruct Hq as [[Hq Hc]|[Hq Hc]]; [left|right]; split; try lia.
  replace (e1 - -47) with (e1 + 47) by lia. exact Hq.
Qed.

(** [t - (t - 60)] for such a [t]: the difference is 60 again. *)
Lemma sub_back (m q1 : positive) (e e1 : Z) :
  -50 <= e1 <= e → e <= 0 →
  Zpos q1 = Zpos m * 2 ^ (e - e1) - 15 * 2 ^ (2 - e1) →
  SF64sub (S754_finite false m e) (S754_finite false q1 e1)
  = S754_finite false 8444249301319680 (-47).
Proof.
intros He1 He Hq.
assert (HX : 0 < 2 ^ (2 - e1)) by (apply pow2_pos; lia).
assert (HD : Zpos m * 2 ^ (e - e1) - Zpos q1
             = Zpos (Z.to_pos (15 * 2 ^ (2 - e1)))).
{ rewrite Z2Pos.id by (clear -HX; lia). rewrite Hq. ring. }
rewrite (SFsub_finite m q1 e e1 _ (proj2 He1) HD).
assert (HL : Z.log2 (15 * 2 ^ (2 - e1)) = 5 - e1).
{ rewrite Z.log2_mul_pow2 by lia. change (Z.log2 15) with 3. lia. }
apply round_exact.
- rewrite digits_log2, Z2Pos.id by (clear -HX; lia).
  rewrite HL, fexp_normal by lia. lia.
- unfold emax, prec. lia.
- rewrite Z2Pos.id by (clear -HX; lia).
  destruct (Z_le_gt_dec e1 (-47)) as [Hc|Hc]; [left|right]; split; try lia.
  + replace (2 - e1) with (49 + (-47 - e1)) by lia.
    rewrite pow2_split by lia.
    replace 8444249301319680 with (15 * 2 ^ 49) by (vm_compute; reflexivity).
    ring.
  + replace 8444249301319680 with (15 * 2 ^ 49) by (vm_compute; reflexivity).
    replace 49 with ((2 - e1) + (e1 - -47)) at 1 by lia.
    rewrite pow2_split by lia. ring.
Qed.

Lemma sub_sub_60 (t : float) :
  clock_ok t = true → (t - (t - 60))%float = 60%float.
Proof.
intros Hok. destruct (clock_shape t Hok) as (m & e & Ht & Hd & He).
destruct (sub_60 m e Hd He) as (q1 & e1 & H1 & He1 & Hq).
apply Prim2SF_inj. rewrite sub_spec, sub_spec, Ht.
assert (E60 : Prim2SF 60 = S754_finite false 8444249301319680 (-47))
  by (vm_compute; reflexivity).
rewrite E60, H1. apply sub_back; [exact He1|lia|exact Hq].
Qed.

End Rounding.

(** ** binary64: rounding keeps the order

    Sums and products are rounded to the nearest double.  The rounding is
    monotone, so adding the same number to both sides of an inequality, or
    multiplying both by a positive constant, keeps the inequality as long
    as the results are finite. *)

Module Monotone.

Import Rounding Nearest.

Lemma rne_bounds (V n : Z) : 0 <= n → V / 2 ^ n <= rne V n <= V / 2 ^ n + 1.
Proof.
intros Hn. unfold rne.
destruct (2 * (V mod 2 ^ n) ?= 2 ^ n); [destruct (Z.even _)| |]; lia.
Qed.

Lemma rne_low (V n : Z) :
  0 <= n → 2 * (V mod 2 ^ n) < 2 ^ n → rne V n = V / 2 ^ n.
Proof.
intros Hn Hlt. unfold rne. apply Z.compare_lt_iff in Hlt. now rewrite Hlt.
Qed.

Lemma rne_exact (q n : Z) : 0 <= n → rne (q * 2 ^ n) n = q.
Proof.
intros Hn. pose proof (pow2_pos n Hn) as HP.
rewrite rne_low by (try rewrite Z.mod_mul; lia).
apply Z.div_mul. lia.
Qed.

Lemma rne_mono (V1 V2 n : Z) : 0 <= n → V1 <= V2 → rne V1 n <= rne V2 n.
Proof.
intros Hn Hle. pose proof (pow2_pos n Hn) as HP.
assert (Hq : V1 / 2 ^ n <= V2 / 2 ^ n) by (apply Z.div_le_mono; lia).
destruct (Z.eq_dec (V1 / 2 ^ n) (V2 / 2 ^ n)) as [E|E].
- assert (Hr : V1 mod 2 ^ n <= V2 mod 2 ^ n).
  { rewrite !Z.mod_eq by lia. rewrite E. lia. }
  unfold rne. rewrite <- E.
  destruct (Z.compare_spec (2 * (V1 mod 2 ^ n)) (2 ^ n)) as [C1|C1|C1];
    destruct (Z.compare_spec (2 * (V2 mod 2 ^ n)) (2 ^ n)) as [C2|C2|C2];
    destruct (Z.even (V1 / 2 ^ n)); lia.
- pose proof (rne_bounds V1 n Hn). pose proof (rne_bounds V2 n Hn). lia.
Qed.

Lemma rne_scale (V n t : Z) :
  0 <= n → 0 <= t → rne (V * 2 ^ t) (n + t) = rne V n.
Proof.
intros Hn Ht. pose proof (pow2_pos n Hn) as HP. pose proof (pow2_pos t Ht) as HT.
unfold rne. rewrite Z.pow_add_r by lia.
rewrite Z.div_mul_cancel_r by lia.
rewrite Z.mul_mod_distr_r by lia.
replace (2 * (V mod 2 ^ n * 2 ^ t)) with (2 * (V mod 2 ^ n) * 2 ^ t) by ring.
now rewrite <- Zmult_compare_compat_r by lia.
Qed.

Lemma rne_nonneg (V n : Z) : 0 <= n → 0 <= V → 0 <= rne V n.
Proof.
intros Hn HV. pose proof (rne_bounds V n Hn).
pose proof (Z.div_pos V (2 ^ n) HV (pow2_pos n Hn)). lia.
Qed.

Lemma round_mono (k V1 V2 : Z) :
  0 <= k → 0 < V1 → V1 <= V2 → round k V1 <= round k V2.
Proof.
intros Hk H1 Hle. unfold round.
assert (HL : Z.log2 V1 <= Z.log2 V2) by (apply Z.log2_le_mono; lia).
set (N1 := Z.max (Z.log2 V1 + 1 - 53) k).
set (N2 := Z.max (Z.log2 V2 + 1 - 53) k).
assert (HN1 : 0 <= N1) by (unfold N1; lia).
assert (HN2 : 0 <= N2) by (unfold N2; lia).
destruct (Z.eq_dec N1 N2) as [E|E].
- rewrite <- E. apply Z.mul_le_mono_nonneg_r; [pose proof (pow2_pos N1); lia|].
  now apply rne_mono.
- assert (HN : N1 + 1 <= N2) by (unfold N1, N2 in *; lia).
  assert (HN2' : N2 = Z.log2 V2 - 52) by (unfold N1, N2 in *; lia).
  assert (HV1 : V1 <= 2 ^ 53 * 2 ^ N1).
  { rewrite <- Z.pow_add_r by lia.
    pose proof (Z.log2_spec V1 H1) as [_ Hs].
    assert (2 ^ Z.succ (Z.log2 V1) <= 2 ^ (53 + N1))
      by (apply Z.pow_le_mono_r; unfold N1; lia).
    lia. }
  assert (HV2 : 2 ^ 52 * 2 ^ N2 <= V2).
  { rewrite <- Z.pow_add_r by lia.
    pose proof (Z.log2_spec V2 ltac:(lia)) as [Hs _].
    replace (52 + N2) with (Z.log2 V2) by lia. exact Hs. }
  pose proof (rne_mono _ _ N1 HN1 HV1) as R1. rewrite rne_exact in R1 by lia.
  pose proof (rne_mono _ _ N2 HN2 HV2) as R2. rewrite rne_exact in R2 by lia.
  pose proof (pow2_pos N1 HN1) as P1. pose proof (pow2_pos N2 HN2) as P2.
  assert (HP : 2 ^ 53 * 2 ^ N1 <= 2 ^ 52 * 2 ^ N2).
  { rewrite <- !Z.pow_add_r by lia. apply Z.pow_le_mono_r; lia. }
  apply Z.le_trans with (2 ^ 53 * 2 ^ N1).
  + apply Z.mul_le_mono_nonneg_r; lia.
  + apply Z.le_trans with (2 ^ 52 * 2 ^ N2); [exact HP|].
    apply Z.mul_le_mono_nonneg_r; lia.
Qed.

Lemma round_nonneg (k V : Z) : 0 <= k → 0 <= V → 0 <= round k V.
Proof.
intros Hk HV. unfold round.
apply Z.mul_nonneg_nonneg; [apply rne_nonneg; lia|].
pose proof (pow2_pos (Z.max (Z.log2 V + 1 - 53) k)). lia.
Qed.

Lemma sround_mono (k V1 V2 : Z) :
  0 <= k → V1 <= V2 → sround k V1 <= sround k V2.
Proof.
intros Hk Hle.
destruct V1 as [|p1|p1], V2 as [|p2|p2]; cbn [sround]; try lia;
  try (pose proof (round_nonneg k (Zpos p2) Hk ltac:(lia)); lia);
  try (pose proof (round_nonneg k (Zpos p1) Hk ltac:(lia)); lia).
- apply round_mono; lia.
- pose proof (round_nonneg k (Zpos p1) Hk ltac:(lia)).
  pose proof (round_nonneg k (Zpos p2) Hk ltac:(lia)). lia.
- assert (round k (Zpos p2) <= round k (Zpos p1)) by (apply round_mono; lia).
  lia.
Qed.


(** *** What the shifts of the rounding compute *)

Lemma shr_1_spec (M : Z) (r s : bool) :
  0 <= M →
  shr_1 {| shr_m := M; shr_r := r; shr_s := s |}
  = {| shr_m := Z.div2 M; shr_r := Z.odd M; shr_s := r || s |}.
Proof. destruct M as [|[p|p|]|p]; try lia; reflexivity. Qed.

Lemma mod_succ (m k : Z) :
  0 <= k →
  m mod 2 ^ (k + 1) = m mod 2 ^ k + 2 ^ k * (if Z.odd (m / 2 ^ k) then 1 else 0).
Proof.
intros Hk. pose proof (pow2_pos k Hk) as HP.
rewrite Z.pow_add_r, Z.pow_1_r by lia.
rewrite Z.rem_mul_r by lia. now rewrite Zmod_odd.
Qed.

Lemma shr_iter (k : nat) (m : Z) :
  0 <= m →
  Nat.iter (S k) shr_1 {| shr_m := m; shr_r := false; shr_s := false |}
  = {| shr_m := m / 2 ^ (Z.of_nat k + 1);
       shr_r := Z.odd (m / 2 ^ Z.of_nat k);
       shr_s := negb (m mod 2 ^ Z.of_nat k =? 0) |}.
Proof.
intros Hm. induction k as [|k IH].
- cbn [Nat.iter]. rewrite shr_1_spec by exact Hm.
  change (Z.of_nat 0) with 0. rewrite Z.pow_0_r, Z.div_1_r, Z.mod_1_r.
  now rewrite Z.div2_div.
- rewrite Nat.iter_succ, IH. clear IH.
  assert (Hk : 0 <= Z.of_nat k) by lia.
  pose proof (pow2_pos (Z.of_nat k) Hk) as HP.
  pose proof (pow2_pos (Z.of_nat k + 1) ltac:(lia)) as HP1.
  rewrite shr_1_spec by (apply Z.div_pos; lia).
  replace (Z.of_nat (S k)) with (Z.of_nat k + 1) by lia.
  f_equal.
  + rewrite Z.div2_div, Z.div_div by lia.
    now rewrite (Z.pow_add_r 2 (Z.of_nat k + 1) 1) by lia.
  + rewrite (mod_succ m (Z.of_nat k) Hk).
    pose proof (Z.mod_pos_bound m (2 ^ Z.of_nat k) HP) as Hb.
    destruct (Z.odd (m / 2 ^ Z.of_nat k)); cbn [orb].
    * symmetry. apply negb_true_iff, Z.eqb_neq. lia.
    * now rewrite Z.mul_0_r, Z.add_0_r.
Qed.

Lemma shr_rne (p : positive) (m : Z) :
  0 <= m →
  round_nearest_even
    (shr_m (SpecFloat.iter_pos shr_1 p
              {| shr_m := m; shr_r := false; shr_s := false |}))
    (loc_of_shr_record
       (SpecFloat.iter_pos shr_1 p
          {| shr_m := m; shr_r := false; shr_s := false |}))
  = rne m (Zpos p).
Proof.
intros Hm. rewrite iter_pos_nat.
destruct (Pos2Nat.is_succ p) as [k Hk]. rewrite Hk, (shr_iter k m Hm).
assert (Hp : Zpos p = Z.of_nat k + 1) by lia.
assert (Hk0 : 0 <= Z.of_nat k) by lia.
pose proof (pow2_pos (Z.of_nat k) Hk0) as HP.
pose proof (Z.mod_pos_bound m (2 ^ Z.of_nat k) HP) as Hb.
unfold rne. rewrite Hp, (mod_succ m (Z.of_nat k) Hk0).
rewrite (Z.pow_add_r 2 (Z.of_nat k) 1), Z.pow_1_r by lia.
cbn [shr_m loc_of_shr_record].
destruct (Z.odd (m / 2 ^ Z.of_nat k));
  destruct (Z.eqb_spec (m mod 2 ^ Z.of_nat k) 0) as [E|E];
  cbn [negb round_nearest_even].
- rewrite E.
  replace (2 * (0 + 2 ^ Z.of_nat k * 1)) with (2 ^ Z.of_nat k * 2) by ring.
  now rewrite Z.compare_refl.
- assert (C : 2 * (m mod 2 ^ Z.of_nat k + 2 ^ Z.of_nat k * 1)
              > 2 ^ Z.of_nat k * 2) by lia.
  now rewrite C.
- rewrite E.
  assert (C : 2 * (0 + 2 ^ Z.of_nat k * 0) < 2 ^ Z.of_nat k * 2) by lia.
  apply Z.compare_lt_iff in C. now rewrite C.
- assert (C : 2 * (m mod 2 ^ Z.of_nat k + 2 ^ Z.of_nat k * 0)
              < 2 ^ Z.of_nat k * 2) by lia.
  apply Z.compare_lt_iff in C. now rewrite C.
Qed.


Lemma rne_0 (m : Z) : rne m 0 = m.
Proof.
pose proof (rne_exact m 0 (Z.le_refl 0)) as H.
now rewrite Z.pow_0_r, Z.mul_1_r in H.
Qed.

Lemma rne_top (m n D : Z) :
  0 <= n → 0 <= D → m < 2 ^ (D + n) → rne m n <= 2 ^ D.
Proof.
intros Hn HD Hm. rewrite Z.pow_add_r in Hm by lia.
rewrite <- (rne_exact (2 ^ D) n Hn). apply rne_mono; lia.
Qed.

Lemma rne_small (m n : Z) :
  1 <= n → 0 <= m → m < 2 ^ (n - 1) → rne m n = 0.
Proof.
intros Hn H0 Hm.
assert (E : 2 ^ n = 2 * 2 ^ (n - 1)).
{ replace n with (1 + (n - 1)) at 1 by lia. now rewrite Z.pow_add_r by lia. }
rewrite rne_low; rewrite ?Z.mod_small by lia; try lia.
apply Z.div_small. lia.
Qed.

Lemma fexp_eq (x : Z) : fexp prec emax x = Z.max (x - 53) (-1074).
Proof. unfold fexp, SpecFloat.emin, emax, prec. lia. Qed.

Lemma stage1 (m : positive) (e E : Z) :
  ∃ R,
    shr {| shr_m := Zpos m; shr_r := false; shr_s := false |} e (E - e)
    = (R, e + Z.max (E - e) 0)
    ∧ round_nearest_even (shr_m R) (loc_of_shr_record R)
      = rne (Zpos m) (Z.max (E - e) 0).
Proof.
unfold shr. destruct (E - e) as [|p|p] eqn:Hd.
- eexists. split; [f_equal; lia|]. cbn. now rewrite rne_0.
- eexists. split; [f_equal; lia|]. rewrite shr_rne by lia. f_equal.
- eexists. split; [f_equal; lia|]. cbn. now rewrite rne_0.
Qed.

Lemma stage2 (m : positive) (e : Z) :
  let E := fexp prec emax (Zpos (digits2_pos m) + e) in
  let n := Z.max (E - e) 0 in
  ∃ R2 e2,
    shr_fexp prec emax (rne (Zpos m) n) (e + n) loc_Exact = (R2, e2)
    ∧ 0 <= shr_m R2
    ∧ ∀ K, 0 <= e + n + K →
        shr_m R2 * 2 ^ (e2 + K) = rne (Zpos m) n * 2 ^ (e + n + K).
Proof.
intros E n.
assert (HE : E = Z.max (Z.log2 (Zpos m) + 1 + e - 53) (-1074)).
{ unfold E. now rewrite fexp_eq, digits_log2. }
assert (Hn : 0 <= n) by (unfold n; lia).
pose proof (rne_nonneg (Zpos m) n Hn ltac:(lia)) as HM.
pose proof (Z.log2_nonneg (Zpos m)) as HL.
unfold shr_fexp, shr. cbn [shr_record_of_loc].
remember (rne (Zpos m) n) as M1 eqn:EM.
assert (Hn2 : fexp prec emax (Zdigits2 M1 + (e + n)) - (e + n) <= 0
              ∨ fexp prec emax (Zdigits2 M1 + (e + n)) - (e + n) = 1
                ∧ M1 = 2 ^ 53).
{ rewrite fexp_eq.
  destruct M1 as [|q|q]; [left; cbn [Zdigits2]; lia| |lia].
  cbn [Zdigits2]. rewrite digits_log2.
  destruct (Z_le_gt_dec (E - e) 0) as [Hc|Hc].
  - left. assert (n = 0) as Hn0 by (unfold n; lia).
    rewrite Hn0, rne_0 in EM. rewrite EM. lia.
  - assert (Hne : n = E - e) by (unfold n; lia).
    pose proof (Z.log2_spec (Zpos m) ltac:(lia)) as [_ Hs].
    destruct (Z_le_gt_dec n (Z.log2 (Zpos m) + 1)) as [Hd|Hd].
    + set (D := Z.log2 (Zpos m) + 1 - n).
      assert (HD : 0 <= D) by (unfold D; lia).
      assert (Htop : Zpos q <= 2 ^ D).
      { rewrite EM. apply rne_top; try lia.
        replace (D + n) with (Z.succ (Z.log2 (Zpos m))) by (unfold D; lia).
        exact Hs. }
      destruct (Z.eq_dec (Zpos q) (2 ^ D)) as [Eq|Ne].
      * rewrite Eq, Z.log2_pow2 by lia.
        destruct (Z_le_gt_dec (-1074) (Z.log2 (Zpos m) + 1 + e - 53)).
        -- right. assert (D = 53) as <- by (unfold D; lia).
           split; [unfold D in *; lia|reflexivity].
        -- left. unfold D in *. lia.
      * left. assert (Hlt : Zpos q < 2 ^ D) by lia.
        apply Z.log2_lt_pow2 in Hlt; [|lia]. unfold D in *. lia.
    + exfalso. assert (Zpos q = 0); [|lia].
      rewrite EM. apply rne_small; try lia.
      apply Z.lt_le_trans with (2 ^ Z.succ (Z.log2 (Zpos m))); [exact Hs|].
      apply Z.pow_le_mono_r; lia. }
destruct Hn2 as [Hle|[H1 HM1]].
- destruct (fexp prec emax (Zdigits2 M1 + (e + n)) - (e + n)) as [|p|p];
    try lia; eexists; eexists; (split; [reflexivity|]);
    cbn [shr_m]; (split; [exact HM|]); reflexivity.
- rewrite H1. eexists. eexists. split; [reflexivity|].
  cbn [SpecFloat.iter_pos]. rewrite shr_1_spec by exact HM. cbn [shr_m].
  rewrite HM1. split; [vm_compute; discriminate|].
  intros K HK.
  replace (e + n + 1 + K) with (1 + (e + n + K)) by lia.
  rewrite (Z.pow_add_r 2 1) by lia.
  change (Z.div2 (2 ^ 53)) with (2 ^ 52).
  change (2 ^ 53) with (2 ^ 52 * 2 ^ 1). ring.
Qed.

(** The value that [binary_round_aux] returns, when it is finite. *)
Lemma round_aux_scaled (s : bool) (m : positive) (e K : Z) :
  let n := Z.max (fexp prec emax (Zpos (digits2_pos m) + e) - e) 0 in
  0 <= e + K →
  finite (binary_round_aux prec emax s (Zpos m) e loc_Exact) = true →
  scaled K (binary_round_aux prec emax s (Zpos m) e loc_Exact)
  = cond_Zopp s (rne (Zpos m) n * 2 ^ (e + n + K)).
Proof.
intros n HK.
remember (binary_round_aux prec emax s (Zpos m) e loc_Exact) as B eqn:EB.
unfold binary_round_aux, shr_fexp at 1 in EB.
cbn [Zdigits2 shr_record_of_loc] in EB.
destruct (stage1 m e (fexp prec emax (Zpos (digits2_pos m) + e)))
  as (R & HR & Hrne).
rewrite HR, Hrne in EB. fold n in EB.
destruct (stage2 m e) as (R2 & e2 & HR2 & Hpos & Hval). fold n in HR2, Hval.
rewrite HR2 in EB. specialize (Hval K ltac:(unfold n; lia)).
destruct (shr_m R2) as [|q|q]; [| |lia].
- subst B. intros _. cbn [scaled]. rewrite <- Hval, Z.mul_0_l. now destruct s.
- destruct (e2 <=? emax - prec); subst B; [|discriminate].
  intros _. cbn [scaled]. now rewrite Hval.
Qed.


Lemma rne_round (m : positive) (e K : Z) :
  1074 <= K → 0 <= e + K →
  rne (Zpos m) (Z.max (fexp prec emax (Zpos (digits2_pos m) + e) - e) 0)
  * 2 ^ (e + Z.max (fexp prec emax (Zpos (digits2_pos m) + e) - e) 0 + K)
  = round (K - 1074) (Zpos m * 2 ^ (e + K)).
Proof.
intros HK He. unfold round.
rewrite fexp_eq, digits_log2, Z.log2_mul_pow2 by lia.
pose proof (Z.log2_nonneg (Zpos m)) as HL.
set (E := Z.max (Z.log2 (Zpos m) + 1 + e - 53) (-1074)).
replace (Z.max (e + K + Z.log2 (Zpos m) + 1 - 53) (K - 1074))
  with (E + K) by (unfold E; lia).
assert (HE : 0 <= E + K) by (unfold E; lia).
destruct (Z_le_gt_dec e E) as [Hc|Hc].
- rewrite Z.max_l by lia.
  replace (e + (E - e) + K) with (E + K) by lia. f_equal.
  replace (E + K) with ((E - e) + (e + K)) by lia.
  symmetry. apply rne_scale; lia.
- rewrite Z.max_r by lia. rewrite rne_0, Z.add_0_r.
  replace (e + K) with ((e - E) + (E + K)) by lia.
  rewrite (Z.pow_add_r 2 (e - E) (E + K)), Z.mul_assoc by lia.
  now rewrite rne_exact by lia.
Qed.

Lemma shl_align_value (m m' : positive) (e E e' K : Z) :
  shl_align m e E = (m', e') → 0 <= e + K → 0 <= E + K →
  Zpos m' * 2 ^ (e' + K) = Zpos m * 2 ^ (e + K) ∧ 0 <= e' + K.
Proof.
unfold shl_align. intros Hs He HE.
destruct (E - e) as [|d|d] eqn:Hd; inversion Hs; subst; try (split; [reflexivity|lia]).
split; [|lia]. rewrite iter_xO.
replace (e + K) with (Zpos d + (e' + K)) by lia.
rewrite (Z.pow_add_r 2 (Zpos d) (e' + K)) by lia. ring.
Qed.

Lemma round_scaled (s : bool) (m : positive) (e K : Z) :
  1074 <= K → 0 <= e + K →
  finite (binary_round prec emax s m e) = true →
  scaled K (binary_round prec emax s m e)
  = cond_Zopp s (round (K - 1074) (Zpos m * 2 ^ (e + K))).
Proof.
intros HK He. unfold binary_round.
destruct (shl_align m e (fexp prec emax (Zpos (digits2_pos m) + e)))
  as [m' e'] eqn:Hs.
destruct (shl_align_value m m' e _ e' K Hs He) as [Hv He'].
{ rewrite fexp_eq. lia. }
intros Hf. rewrite round_aux_scaled by assumption.
now rewrite rne_round, Hv by lia.
Qed.

Lemma sround_pos (k V : Z) : 0 < V → sround k V = round k V.
Proof. destruct V; try lia. reflexivity. Qed.

Lemma sround_neg (k V : Z) : 0 < V → sround k (- V) = - round k V.
Proof. destruct V; try lia. reflexivity. Qed.

Lemma sround_opp (s : bool) (k V : Z) :
  0 < V → sround k (cond_Zopp s V) = cond_Zopp s (round k V).
Proof. destruct s; cbn [cond_Zopp]; [apply sround_neg|apply sround_pos]. Qed.

Lemma scaled_pos (m : positive) (t : Z) : 0 <= t → 0 < Zpos m * 2 ^ t.
Proof. intros. apply Z.mul_pos_pos; [lia|now apply pow2_pos]. Qed.

Lemma normalize_scaled (M e K : Z) (sz : bool) :
  1074 <= K → 0 <= e + K →
  finite (binary_normalize prec emax M e sz) = true →
  scaled K (binary_normalize prec emax M e sz)
  = sround (K - 1074) (M * 2 ^ (e + K)).
Proof.
intros HK He. destruct M as [|m|m]; cbn [binary_normalize]; intros Hf.
- reflexivity.
- rewrite round_scaled by assumption.
  now rewrite sround_pos by (apply scaled_pos; lia).
- rewrite round_scaled by assumption. cbn [cond_Zopp].
  replace (Zneg m * 2 ^ (e + K)) with (- (Zpos m * 2 ^ (e + K))) by lia.
  now rewrite sround_neg by (apply scaled_pos; lia).
Qed.

(** *** Valid floats *)

Lemma valid_exponent (s : bool) (m : positive) (e : Z) :
  valid_binary (S754_finite s m e) = true →
  fexp prec emax (Zpos (digits2_pos m) + e) = e ∧ -1074 <= e.
Proof.
unfold valid_binary, bounded, canonical_mantissa.
rewrite andb_true_iff, Z.eqb_eq. intros [Hc _].
split; [exact Hc|]. rewrite fexp_eq in Hc. lia.
Qed.

Lemma valid_fix (s : bool) (m : positive) (e K : Z) :
  1074 <= K →
  valid_binary (S754_finite s m e) = true →
  sround (K - 1074) (scaled K (S754_finite s m e))
  = scaled K (S754_finite s m e).
Proof.
intros HK Hv. destruct (valid_exponent s m e Hv) as [Hc He].
cbn [scaled]. rewrite sround_opp by (apply scaled_pos; lia). f_equal.
rewrite <- rne_round by lia. rewrite Hc, Z.sub_diag. cbn [Z.max].
now rewrite rne_0, Z.add_0_r.
Qed.

Lemma add_scaled (x y : spec_float) (K : Z) :
  1074 <= K →
  valid_binary x = true → valid_binary y = true →
  finite (SFadd prec emax x y) = true →
  scaled K (SFadd prec emax x y)
  = sround (K - 1074) (scaled K x + scaled K y).
Proof.
intros HK Hx Hy.
destruct x as [sx|sx| |sx mx ex], y as [sy|sy| |sy my ey];
  try (cbn; discriminate); try (destruct sx, sy; cbn; discriminate).
- intros _. now destruct sx, sy.
- intros _. cbn [SFadd]. change (scaled K (S754_zero sx)) with 0.
  rewrite Z.add_0_l. symmetry. now apply valid_fix.
- intros _. cbn [SFadd]. change (scaled K (S754_zero sy)) with 0.
  rewrite Z.add_0_r. symmetry. now apply valid_fix.
- destruct (valid_exponent _ _ _ Hx) as [_ Hex].
  destruct (valid_exponent _ _ _ Hy) as [_ Hey].
  cbn [SFadd]. intros Hf.
  rewrite normalize_scaled by (try assumption; lia). f_equal.
  rewrite (shl_align_le mx ex (Z.min ex ey)) by lia.
  rewrite (shl_align_le my ey (Z.min ex ey)) by lia.
  cbn [fst scaled].
  rewrite !Z2Pos.id by (apply scaled_pos; lia).
  replace (ex + K) with ((ex - Z.min ex ey) + (Z.min ex ey + K)) by lia.
  replace (ey + K) with ((ey - Z.min ex ey) + (Z.min ex ey + K)) by lia.
  rewrite (Z.pow_add_r 2 (ex - Z.min ex ey)), (Z.pow_add_r 2 (ey - Z.min ex ey))
    by lia.
  destruct sx, sy; cbn [cond_Zopp]; ring.
Qed.

Lemma mul_scaled (mc : positive) (ec : Z) (x : spec_float) (K j : Z) :
  1074 <= K → 0 <= j → 0 <= ec + j →
  valid_binary x = true →
  finite (SFmul prec emax (S754_finite false mc ec) x) = true →
  scaled (K + j) (SFmul prec emax (S754_finite false mc ec) x)
  = sround (K + j - 1074) (Zpos mc * 2 ^ (ec + j) * scaled K x).
Proof.
intros HK Hj Hec Hx.
destruct x as [sx|sx| |sx mx ex]; try (cbn; discriminate).
- intros _. cbn [SFmul scaled]. now rewrite Z.mul_0_r.
- destruct (valid_exponent _ _ _ Hx) as [_ Hex].
  cbn [SFmul xorb]. intros Hf.
  rewrite round_aux_scaled by (try assumption; lia).
  rewrite rne_round by lia. cbn [scaled].
  replace (Zpos mc * 2 ^ (ec + j) * cond_Zopp sx (Zpos mx * 2 ^ (ex + K)))
    with (cond_Zopp sx (Zpos (mc * mx) * 2 ^ (ec + ex + (K + j)))).
  + rewrite sround_opp by (apply scaled_pos; lia). reflexivity.
  + replace (ec + ex + (K + j)) with ((ec + j) + (ex + K)) by lia.
    rewrite (Z.pow_add_r 2 (ec + j)), Pos2Z.inj_mul by lia.
    destruct sx; cbn [cond_Zopp]; ring.
Qed.

(** *** The order of valid floats *)

Lemma canonical_lt (s1 s2 : bool) (m1 m2 : positive) (e1 e2 K : Z) :
  1074 <= K →
  valid_binary (S754_finite s1 m1 e1) = true →
  valid_binary (S754_finite s2 m2 e2) = true →
  e1 < e2 → Zpos m1 * 2 ^ (e1 + K) < Zpos m2 * 2 ^ (e2 + K).
Proof.
intros HK H1 H2 Hlt.
destruct (valid_exponent _ _ _ H1) as [C1 E1].
destruct (valid_exponent _ _ _ H2) as [C2 E2].
rewrite fexp_eq, digits_log2 in C1, C2.
pose proof (Z.log2_spec (Zpos m1) ltac:(lia)) as [_ U1].
pose proof (Z.log2_spec (Zpos m2) ltac:(lia)) as [L2 _].
assert (HL2 : Z.log2 (Zpos m2) = 52) by lia.
assert (HL1 : Z.log2 (Zpos m1) <= 52) by lia.
rewrite HL2 in L2.
assert (U1' : Zpos m1 < 2 ^ 53).
{ apply Z.lt_le_trans with (2 ^ Z.succ (Z.log2 (Zpos m1))); [exact U1|].
  apply Z.pow_le_mono_r; lia. }
apply Z.lt_le_trans with (2 ^ 53 * 2 ^ (e1 + K)).
- apply Z.mul_lt_mono_pos_r; [apply pow2_pos; lia|exact U1'].
- apply Z.le_trans with (2 ^ 52 * 2 ^ (e2 + K)).
  + rewrite <- !Z.pow_add_r by lia. apply Z.pow_le_mono_r; lia.
  + apply Z.mul_le_mono_nonneg_r; [pose proof (pow2_pos (e2 + K)); lia|exact L2].
Qed.

Lemma canonical_compare (s1 s2 : bool) (m1 m2 : positive) (e1 e2 K : Z) :
  1074 <= K →
  valid_binary (S754_finite s1 m1 e1) = true →
  valid_binary (S754_finite s2 m2 e2) = true →
  match e1 ?= e2 with
  | Lt => Lt
  | Gt => Gt
  | Eq => Pos.compare_cont Eq m1 m2
  end = (Zpos m1 * 2 ^ (e1 + K) ?= Zpos m2 * 2 ^ (e2 + K)).
Proof.
intros HK H1 H2.
destruct (valid_exponent _ _ _ H1) as [_ E1].
destruct (Z.compare_spec e1 e2) as [E|E|E].
- subst e2. rewrite <- Zmult_compare_compat_r; [reflexivity|].
  apply Z.lt_gt, pow2_pos. lia.
- symmetry. apply Z.compare_lt_iff. exact (canonical_lt _ _ _ _ _ _ K HK H1 H2 E).
- symmetry. apply Z.compare_gt_iff. exact (canonical_lt _ _ _ _ _ _ K HK H2 H1 E).
Qed.

Lemma leb_scaled (x y : spec_float) (K : Z) :
  1074 <= K →
  valid_binary x = true → valid_binary y = true →
  finite x = true → finite y = true →
  SFleb x y = true ↔ scaled K x <= scaled K y.
Proof.
intros HK Hx Hy Fx Fy.
destruct x as [sx|sx| |sx mx ex], y as [sy|sy| |sy my ey]; try discriminate;
  unfold SFleb; cbn [SFcompare scaled].
- split; [lia|reflexivity].
- destruct (valid_exponent _ _ _ Hy) as [_ Hey].
  pose proof (scaled_pos my (ey + K) ltac:(lia)).
  destruct sy; cbn [cond_Zopp]; split; intros; try lia; try reflexivity;
    discriminate.
- destruct (valid_exponent _ _ _ Hx) as [_ Hex].
  pose proof (scaled_pos mx (ex + K) ltac:(lia)).
  destruct sx; cbn [cond_Zopp]; split; intros; try lia; try reflexivity;
    discriminate.
- destruct (valid_exponent _ _ _ Hx) as [_ Hex].
  destruct (valid_exponent _ _ _ Hy) as [_ Hey].
  pose proof (scaled_pos mx (ex + K) ltac:(lia)) as Px.
  pose proof (scaled_pos my (ey + K) ltac:(lia)) as Py.
  pose proof (canonical_compare sx sy mx my ex ey K HK Hx Hy) as Hc.
  destruct sx, sy; cbn [cond_Zopp];
    try (split; intros; try lia; try reflexivity; discriminate).
  + replace (match ex ?= ey with
             | Eq => CompOpp (Pos.compare_cont Eq mx my)
             | Lt => Gt
             | Gt => Lt
             end)
      with (CompOpp (Zpos mx * 2 ^ (ex + K) ?= Zpos my * 2 ^ (ey + K)))
      by (rewrite <- Hc; now destruct (ex ?= ey)).
    destruct (Z.compare_spec (Zpos mx * 2 ^ (ex + K)) (Zpos my * 2 ^ (ey + K)));
      cbn [CompOpp]; split; intros; try reflexivity; try discriminate; lia.
  + rewrite Hc.
    destruct (Z.compare_spec (Zpos mx * 2 ^ (ex + K)) (Zpos my * 2 ^ (ey + K)));
      split; intros; try reflexivity; try discriminate; lia.
Qed.


(** *** On the floats of the machine *)

#[local] Open Scope float_scope.

Lemma is_finite_spec (x : float) :
  is_finite x = true → finite (Prim2SF x) = true.
Proof.
unfold is_finite, is_nan, is_infinity.
rewrite !FloatAxioms.eqb_spec, abs_spec.
change (Prim2SF infinity) with (S754_infinity false).
intros H.
destruct (Prim2SF x) as [s|s| |s m e]; try reflexivity; revert H;
  [destruct s|]; cbn; discriminate.
Qed.

Lemma add_finite (x y : spec_float) :
  finite (SFadd prec emax x y) = true → finite x = true ∧ finite y = true.
Proof.
destruct x as [sx|sx| |sx mx ex], y as [sy|sy| |sy my ey];
  try (split; reflexivity); try (cbn; discriminate);
  destruct sx, sy; cbn; discriminate.
Qed.

Lemma mul_finite (c x : spec_float) :
  finite (SFmul prec emax c x) = true → finite x = true.
Proof.
destruct c as [sx|sx| |sx mx ex], x as [sy|sy| |sy my ey];
  try reflexivity; cbn; discriminate.
Qed.

Lemma add_le_l (x y z : float) :
  (x <=? y) = true →
  finite (Prim2SF (x + z)) = true → finite (Prim2SF (y + z)) = true →
  (x + z <=? y + z) = true.
Proof.
rewrite !FloatAxioms.leb_spec. intros Hle Fx Fy.
apply (leb_scaled _ _ 1074); try apply Prim2SF_valid; try assumption; [lia|].
rewrite (add_spec x z), (add_spec y z) in *. unfold SF64add in *.
destruct (add_finite _ _ Fx) as [Fx1 Fz]. destruct (add_finite _ _ Fy) as [Fy1 _].
rewrite !add_scaled by (try apply Prim2SF_valid; try assumption; lia).
apply sround_mono; [lia|].
apply (leb_scaled _ _ 1074) in Hle; try apply Prim2SF_valid; try assumption;
  lia.
Qed.

Lemma add_le_r (x y z : float) :
  (x <=? y) = true →
  finite (Prim2SF (z + x)) = true → finite (Prim2SF (z + y)) = true →
  (z + x <=? z + y) = true.
Proof.
rewrite !FloatAxioms.leb_spec. intros Hle Fx Fy.
apply (leb_scaled _ _ 1074); try apply Prim2SF_valid; try assumption; [lia|].
rewrite (add_spec z x), (add_spec z y) in *. unfold SF64add in *.
destruct (add_finite _ _ Fx) as [Fz Fx1]. destruct (add_finite _ _ Fy) as [_ Fy1].
rewrite !add_scaled by (try apply Prim2SF_valid; try assumption; lia).
apply sround_mono; [lia|].
apply (leb_scaled _ _ 1074) in Hle; try apply Prim2SF_valid; try assumption;
  lia.
Qed.

Lemma mul_le (c x y : float) (mc : positive) (ec : Z) :
  Prim2SF c = S754_finite false mc ec → (-64 <= ec)%Z →
  (x <=? y) = true →
  finite (Prim2SF (c * x)) = true → finite (Prim2SF (c * y)) = true →
  (c * x <=? c * y) = true.
Proof.
rewrite !FloatAxioms.leb_spec. intros Hc Hec Hle Fx Fy.
apply (leb_scaled _ _ (1074 + 64)); try apply Prim2SF_valid; try assumption;
  [lia|].
rewrite (mul_spec c x), (mul_spec c y) in *. unfold SF64mul in *.
rewrite Hc in *.
pose proof (mul_finite _ _ Fx) as Fx1. pose proof (mul_finite _ _ Fy) as Fy1.
rewrite !mul_scaled by (try apply Prim2SF_valid; try assumption; lia).
apply sround_mono; [lia|].
apply (leb_scaled _ _ 1074) in Hle; try apply Prim2SF_valid; try assumption;
  try lia.
apply Z.mul_le_mono_nonneg_l; [|exact Hle].
pose proof (scaled_pos mc (ec + 64) ltac:(lia)). lia.
Qed.

End Monotone.

(** ** The history, read from its end *)

Lemma rev_snoc2 {A : Type} (older : list A) (previous current : A) :
  rev (older ++ [previous; current]) = current :: previous :: rev older.
Proof. now rewrite rev_app_distr. Qed.

Lemma rev_nil_inv {A : Type} (l : list A) : rev l = [] → l = [].
Proof.
intros E. apply (f_equal (@rev A)) in E. now rewrite rev_involutive in E.
Qed.


(** ** The reward *)

(** What a difference contributes once it is weighted. *)
Lemma weighted_delta {F : Type} `{PyFloat F} (a b : pynum F) (d w : F)
    {B : Type} (k : F → res B) :
  delta a b = Ok d →
  (v ← py_sub a b; r ← py_mul v w; k r) = k (fmul d w).
Proof.
unfold delta, py_mul. destruct (py_sub a b) as [v|e]; simpl; [|discriminate].
intros ->. reflexivity.
Qed.

Lemma normalised_reading {F : Type} `{PyFloat F} (a : pynum F) (x c : F)
    {B : Type} (k : F → res B) :
  to_float a = Ok x →
  feqb c (of_decimal 0 0) = false →
  (r ← py_truediv a c; k r) = k (fdiv x c).
Proof.
unfold py_truediv. intros -> Hc. simpl. rewrite Hc. reflexivity.
Qed.

Section RewardBinary64.

#[local] Open Scope float_scope.

Lemma reward_weighted_sum (self : FeedbackAnalyzer float)
    (older : list (FuzzingMetrics float)) (previous current : FuzzingMetrics float)
    (dc dk dp thr stab : float) :
  metrics_history self = older ++ [previous; current] →
  delta (coverage current) (coverage previous) = Ok dc →
  delta (unique_crashes current) (unique_crashes previous) = Ok dk →
  delta (paths_total current) (paths_total previous) = Ok dp →
  to_float (execs_per_sec current) = Ok thr →
  to_float (stability current) = Ok stab →
  compute_reward self =
    Ok (10 * dc + 50 * dk + 1 * dp
        + 0.5 * py_min (thr / 1000) 1 + 0.5 * (stab / 100)).
Proof.
intros Hh Hc Hk Hp Ht Hs. unfold compute_reward.
rewrite Hh, rev_snoc2.
rewrite (weighted_delta _ _ _ _ _ Hc), (weighted_delta _ _ _ _ _ Hk),
  (weighted_delta _ _ _ _ _ Hp).
rewrite (normalised_reading _ _ _ _ Ht) by reflexivity.
rewrite (normalised_reading _ _ _ _ Hs) by reflexivity.
rewrite B64.lit_10_0, B64.lit_50_0, B64.lit_1_0, B64.lit_0_5,
  B64.lit_1000_0, B64.lit_100_0.
cbn [fadd fmul fdiv binary64].
now rewrite (B64.mul_comm dc), (B64.mul_comm dk), (B64.mul_comm dp),
  (B64.mul_comm _ 0.5), (B64.mul_comm (stab / 100)).
Qed.


End RewardBinary64.




(** ** The state vector *)

Lemma divided_delta {F : Type} `{PyFloat F} (a b : pynum F) (d c : F)
    {B : Type} (k : F → res B) :
  delta a b = Ok d →
  feqb c (of_decimal 0 0) = false →
  (v ← py_sub a b; r ← py_truediv v c; k r) = k (fdiv d c).
Proof.
unfold delta, py_truediv. destruct (py_sub a b) as [v|e]; simpl; [|discriminate].
intros -> Hc. simpl. rewrite Hc. reflexivity.
Qed.

Lemma rates_value {F : Type} `{PyFloat F} (t : F)
    (current previous : FuzzingMetrics F) (dt dc dk dp : F) :
  time_delta t = Ok dt →
  feqb dt (of_decimal 0 0) = false →
  delta (coverage current) (coverage previous) = Ok dc →
  delta (unique_crashes current) (unique_crashes previous) = Ok dk →
  delta (paths_total current) (paths_total previous) = Ok dp →
  rates t current previous = Ok (fdiv dc dt, fdiv dk dt, fdiv dp dt).
Proof.
intros Ht Hz Hc Hk Hp. unfold rates. rewrite Ht. simpl.
rewrite (divided_delta _ _ _ _ _ Hc Hz), (divided_delta _ _ _ _ _ Hk Hz),
  (divided_delta _ _ _ _ _ Hp Hz).
reflexivity.
Qed.

Section StateBinary64.

#[local] Open Scope float_scope.

(** The time delta is Python's [max] of the double subtraction and 1. *)
Lemma time_delta_value (t : float) :
  time_delta t = Ok (py_max (t - (t - 60)) 1).
Proof. reflexivity. Qed.

Lemma time_delta_60 (t : float) :
  clock_ok t = true → time_delta t = Ok 60.
Proof.
intros Hok. rewrite time_delta_value, (Rounding.sub_sub_60 t Hok).
reflexivity.
Qed.

(** Whatever the clock, the time delta is not zero: [max(x, 1.0)] is 1.0,
    or it is [x] and [x] is not below 1.0. *)
Lemma py_max_nonzero (x : float) : feqb (py_max x 1) 0 = false.
Proof.
unfold py_max. cbn [fltb feqb binary64].
destruct (x <? 1) eqn:Hlt; [reflexivity|].
rewrite FloatAxioms.ltb_spec in Hlt. rewrite FloatAxioms.eqb_spec.
assert (E1 : Prim2SF 1 = S754_finite false 4503599627370496 (-52))
  by (vm_compute; reflexivity).
assert (E0 : Prim2SF 0 = S754_zero false) by (vm_compute; reflexivity).
rewrite E1 in Hlt. rewrite E0.
destruct (Prim2SF x) as [s|s| |s m e]; try reflexivity;
  try (destruct s; reflexivity).
destruct s; discriminate.
Qed.

Lemma time_delta_nonzero (t : float) :
  ∃ dt, time_delta t = Ok dt ∧ feqb dt (of_decimal 0 0) = false.
Proof.
eexists. split; [apply time_delta_value|apply py_max_nonzero].
Qed.

(** The ten components, when the history has two snapshots or more. *)
Lemma state_vector_value (self : FeedbackAnalyzer float)
    (older : list (FuzzingMetrics float))
    (previous current : FuzzingMetrics float)
    (dt dc dk dp c k x p s cy pf : float) :
  metrics_history self = older ++ [previous; current] →
  time_delta (last_update_time self) = Ok dt →
  delta (coverage current) (coverage previous) = Ok dc →
  delta (unique_crashes current) (unique_crashes previous) = Ok dk →
  delta (paths_total current) (paths_total previous) = Ok dp →
  to_float (coverage current) = Ok c →
  to_float (unique_crashes current) = Ok k →
  to_float (execs_per_sec current) = Ok x →
  to_float (paths_total current) = Ok p →
  to_float (stability current) = Ok s →
  to_float (cycles_done current) = Ok cy →
  to_float (pending_favs current) = Ok pf →
  get_state_vector self =
    Ok [c / 100; dc / dt; k / 100; dk / dt; x / 1000; p / 1000; dp / dt;
        s / 100; cy / 10; pf / 100].
Proof.
intros Hh Ht Hc Hk Hp Hc0 Hk0 Hx0 Hp0 Hs0 Hcy0 Hpf0.
assert (Hz : feqb dt (of_decimal 0 0) = false).
{ destruct (time_delta_nonzero (last_update_time self)) as (d & Hd & Hz).
  rewrite Ht in Hd. now inversion Hd. }
unfold get_state_vector. rewrite Hh, rev_snoc2.
rewrite (rates_value _ _ _ _ _ _ _ Ht Hz Hc Hk Hp).
cbn [mbind res_bind].
rewrite (normalised_reading _ _ _ _ Hc0) by reflexivity.
rewrite (normalised_reading _ _ _ _ Hk0) by reflexivity.
rewrite (normalised_reading _ _ _ _ Hx0) by reflexivity.
rewrite (normalised_reading _ _ _ _ Hp0) by reflexivity.
rewrite (normalised_reading _ _ _ _ Hs0) by reflexivity.
rewrite (normalised_reading _ _ _ _ Hcy0) by reflexivity.
rewrite (normalised_reading _ _ _ _ Hpf0) by reflexivity.
rewrite B64.lit_100_0, B64.lit_1000_0, B64.lit_10_0.
reflexivity.
Qed.

(** The ten components, when the history has one snapshot. *)
Lemma first_state_vector_value (self : FeedbackAnalyzer float)
    (current : FuzzingMetrics float) (c k x p s cy pf : float) :
  metrics_history self = [current] →
  to_float (coverage current) = Ok c →
  to_float (unique_crashes current) = Ok k →
  to_float (execs_per_sec current) = Ok x →
  to_float (paths_total current) = Ok p →
  to_float (stability current) = Ok s →
  to_float (cycles_done current) = Ok cy →
  to_float (pending_favs current) = Ok pf →
  get_state_vector self =
    Ok [c / 100; 0; k / 100; 0; x / 1000; p / 1000; 0; s / 100; cy / 10;
        pf / 100].
Proof.
intros Hh Hc0 Hk0 Hx0 Hp0 Hs0 Hcy0 Hpf0.
unfold get_state_vector. rewrite Hh.
cbn [rev app mbind res_bind].
rewrite (normalised_reading _ _ _ _ Hc0) by reflexivity.
rewrite (normalised_reading _ _ _ _ Hk0) by reflexivity.
rewrite (normalised_reading _ _ _ _ Hx0) by reflexivity.
rewrite (normalised_reading _ _ _ _ Hp0) by reflexivity.
rewrite (normalised_reading _ _ _ _ Hs0) by reflexivity.
rewrite (normalised_reading _ _ _ _ Hcy0) by reflexivity.
rewrite (normalised_reading _ _ _ _ Hpf0) by reflexivity.
rewrite B64.lit_100_0, B64.lit_1000_0, B64.lit_10_0.
reflexivity.
Qed.

End StateBinary64.

(** Readings that fit convert, and so do their differences. *)
Lemma int_to_float (z : Z) :
  Z.abs z < 2 ^ 1023 → ∃ x : float, to_float (PInt z) = Ok x.
Proof.
intros Hz. cbn [to_float of_int binary64]. unfold Binary64.float_of_int.
assert (Hb : 2 ^ 1023 < 2 ^ 1024 - 2 ^ 970) by (vm_compute; reflexivity).
assert (Hn : Binary64.int_overflows z = false).
{ unfold Binary64.int_overflows. apply Z.leb_gt.
  exact (Z.lt_trans _ _ _ Hz Hb). }
rewrite Hn. eauto.
Qed.

Lemma fits_to_float (a : pynum float) : fits a → ∃ x, to_float a = Ok x.
Proof.
destruct a as [z|x]; [|intros _; now exists x].
intros Hz. apply int_to_float. cbn [fits] in Hz.
assert (Hb : 2 ^ 1022 < 2 ^ 1023) by (vm_compute; reflexivity).
exact (Z.lt_trans _ _ _ Hz Hb).
Qed.

Lemma fits_delta (a b : pynum float) :
  fits a → fits b → ∃ d, delta a b = Ok d.
Proof.
intros Ha Hb. unfold delta.
destruct a as [x|x], b as [y|y]; cbn [py_sub].
- apply int_to_float. cbn [fits] in *.
  assert (Hc : 2 ^ 1023 = 2 * 2 ^ 1022) by (vm_compute; reflexivity).
  remember (2 ^ 1022) as B. remember (2 ^ 1023) as C.
  clear HeqB HeqC. lia.
- destruct (fits_to_float _ Ha) as [x' ->]. cbn. eauto.
- destruct (fits_to_float _ Hb) as [y' ->]. cbn. eauto.
- cbn. eauto.
Qed.

(** Whatever the arithmetic, a state vector has ten components. *)
Lemma state_vector_length {F : Type} `{PyFloat F} (self : FeedbackAnalyzer F)
    (v : list F) :
  get_state_vector self = Ok v → length v = 10%nat.
Proof.
unfold get_state_vector.
destruct (rev (metrics_history self)) as [|current earlier].
- intros E. inversion E. reflexivity.
- destruct (match earlier with
            | [] => _
            | previous :: _ => _
            end) as [[[cr kr] pr]|e]; cbn [mbind res_bind]; [|discriminate].
  repeat (match goal with
          | |- context [py_truediv ?a ?c] =>
              destruct (py_truediv a c); cbn [mbind res_bind];
              [|discriminate]
          end).
  intros E. inversion E. reflexivity.
Qed.

Lemma state_vector_returns (self : FeedbackAnalyzer float) :
  Forall readable (metrics_history self) →
  ∃ v, get_state_vector self = Ok v.
Proof.
intros Hr.
destruct (rev (metrics_history self)) as [|current earlier] eqn:Hrev.
{ exists (zeros 10). unfold get_state_vector. now rewrite Hrev. }
assert (Hh : metrics_history self = rev earlier ++ [current]).
{ rewrite <- (rev_involutive (metrics_history self)), Hrev. reflexivity. }
assert (Hc : readable current).
{ rewrite Hh in Hr. apply Forall_app in Hr. destruct Hr as [_ Hr].
  now inversion Hr. }
destruct Hc as (H0 & H2 & H4 & H5 & H7 & H8 & H9).
destruct (fits_to_float _ H0) as [c Ec], (fits_to_float _ H2) as [k Ek],
  (fits_to_float _ H4) as [x Ex], (fits_to_float _ H5) as [p Ep],
  (fits_to_float _ H7) as [s Es], (fits_to_float _ H8) as [cy Ecy],
  (fits_to_float _ H9) as [pf Epf].
destruct earlier as [|previous older].
- eexists. apply (first_state_vector_value self current c k x p s cy pf);
    assumption.
- assert (Hp : readable previous).
  { rewrite Hh in Hr. apply Forall_app in Hr. destruct Hr as [Hr _].
    cbn [rev] in Hr. apply Forall_app in Hr. destruct Hr as [_ Hr].
    now inversion Hr. }
  destruct Hp as (P0 & P2 & _ & P5 & _).
  destruct (fits_delta _ _ H0 P0) as [dc Edc],
    (fits_delta _ _ H2 P2) as [dk Edk], (fits_delta _ _ H5 P5) as [dp Edp].
  destruct (time_delta_nonzero (last_update_time self)) as (dt & Edt & _).
  eexists.
  apply (state_vector_value self (rev older) previous current
           dt dc dk dp c k x p s cy pf); try assumption.
  rewrite Hh. cbn [rev]. now rewrite <- app_assoc.
Qed.

Lemma state_vector_ignores_clock (a b : FeedbackAnalyzer float) :
  metrics_history a = metrics_history b →
  clock_ok (last_update_time a) = true →
  clock_ok (last_update_time b) = true →
  get_state_vector a = get_state_vector b.
Proof.
intros Hh Ha Hb. unfold get_state_vector. rewrite Hh.
destruct (rev (metrics_history b)) as [|current [|previous older]];
  try reflexivity.
unfold rates. now rewrite (time_delta_60 _ Ha), (time_delta_60 _ Hb).
Qed.

(** C5, as the claim states it, fails: [state_vector()] does not return
    for every history.  A stats file whose [paths_total] has 401 digits is
    parsed, the poll succeeds and the snapshot is appended; the division
    [paths_total / 1000.0] then raises [OverflowError], as Python's
    [int / float] does for an [int] that no [float] holds. *)
Lemma state_vector_raises_on_huge_count :
  fst (update (fresh_analyzer 1793000000%float) (Some huge_paths_stats)
         1793000060%float) = true
  ∧ map paths_total (metrics_history (polled huge_paths_stats))
    = [PInt (10 ^ 400)]
  ∧ get_state_vector (polled huge_paths_stats) = Raise OverflowError.
Proof.
split; [vm_compute; reflexivity|].
split; vm_compute; reflexivity.
Qed.

(** C5 (amended): [state_vector()] has exactly ten components whenever it
    returns, and it returns for every history whose integer readings are
    below 2^1022 (beyond 2^1024 the conversion to [float] raises
    [OverflowError]); on the empty history it is the zero vector; and it
    is a function of the history alone: two analyzers with the same
    history return the same vector, or raise the same exception, whatever
    their clocks show. *)
Theorem state_vector_shape :
  (∀ (self : FeedbackAnalyzer float) (v : list float),
     get_state_vector self = Ok v → length v = 10%nat)
  ∧ (∀ self : FeedbackAnalyzer float,
       Forall readable (metrics_history self) →
       ∃ v, get_state_vector self = Ok v ∧ length v = 10%nat)
  ∧ (∀ self : FeedbackAnalyzer float,
       metrics_history self = [] →
       get_state_vector self
       = Ok [0; 0; 0; 0; 0; 0; 0; 0; 0; 0]%float)
  ∧ (∀ a b : FeedbackAnalyzer float,
       metrics_history a = metrics_history b →
       clock_ok (last_update_time a) = true →
       clock_ok (last_update_time b) = true →
       get_state_vector a = get_state_vector b).
Proof.
split; [exact state_vector_length|].
split.
{ intros self Hr. destruct (state_vector_returns self Hr) as [v Hv].
  exists v. split; [exact Hv|exact (state_vector_length self v Hv)]. }
split; [|exact state_vector_ignores_clock].
intros self Hh. unfold get_state_vector. rewrite Hh. reflexivity.
Qed.

Lemma state_vector_shape_witness :
  ∃ v, get_state_vector (scenario (F:=float)) = Ok v ∧ length v = 10%nat.
Proof.
apply (proj1 (proj2 state_vector_shape) scenario).
repeat constructor; vm_compute; reflexivity.
Defined.



(** C3, as the claim states it, fails: nothing is clamped.  On the
    stats file of the module's own self-test the normalised throughput is
    2.5005, above 1; and a coverage written with 401 digits reads as
    infinity, which no bounded range holds. *)
Lemma state_vector_exceeds_every_range :
  ∃ v w : list float,
    get_state_vector (polled sample_stats) = Ok v
    ∧ v !! 4%nat = Some (2500.5 / 1000)%float
    ∧ fltb 1%float (2500.5 / 1000)%float = true
    ∧ get_state_vector (polled huge_coverage_stats) = Ok w
    ∧ w !! 0%nat = Some infinity.
Proof.
eexists. eexists.
split; [vm_compute; reflexivity|].
split; [reflexivity|].
split; [reflexivity|].
split; [vm_compute; reflexivity|reflexivity].
Qed.

(** C3 (amended): [state_vector()] clamps nothing.  Each of the seven
    ratio components is the raw reading of the latest snapshot divided by
    its constant (coverage/100, crashes/100, throughput/1000, paths/1000,
    stability/100, cycles/10, pending/100), so it is as large as the
    reading makes it; the rates are not clamped either and may be
    negative: when coverage falls from 12.5 to 10.0, the crashes from 3 to
    2 and the paths from 130 to 100, they are -2.5/60, -1/60 and -30/60,
    all below zero. *)
Theorem state_vector_ratios_unclamped :
  (∀ (self : FeedbackAnalyzer float) older current
     (c k x p s cy pf : float) (v : list float),
     metrics_history self = older ++ [current] →
     to_float (coverage current) = Ok c →
     to_float (unique_crashes current) = Ok k →
     to_float (execs_per_sec current) = Ok x →
     to_float (paths_total current) = Ok p →
     to_float (stability current) = Ok s →
     to_float (cycles_done current) = Ok cy →
     to_float (pending_favs current) = Ok pf →
     get_state_vector self = Ok v →
     v !! 0%nat = Some (c / 100)%float
     ∧ v !! 2%nat = Some (k / 100)%float
     ∧ v !! 4%nat = Some (x / 1000)%float
     ∧ v !! 5%nat = Some (p / 1000)%float
     ∧ v !! 7%nat = Some (s / 100)%float
     ∧ v !! 8%nat = Some (cy / 10)%float
     ∧ v !! 9%nat = Some (pf / 100)%float)
  ∧ ∃ v : list float,
      get_state_vector
        (analyzer_with
           [snapshot (PFloat 12.5%float) (PInt 3) (PInt 130) (PInt 520)
              (PInt 96);
            snapshot (PFloat 10%float) (PInt 2) (PInt 100) (PInt 500)
              (PInt 95)]
           1793000000.5%float) = Ok v
      ∧ v !! 1%nat = Some (-2.5 / 60)%float
      ∧ v !! 3%nat = Some (-1 / 60)%float
      ∧ v !! 6%nat = Some (-30 / 60)%float
      ∧ (-2.5 / 60 <? 0)%float = true
      ∧ (-1 / 60 <? 0)%float = true
      ∧ (-30 / 60 <? 0)%float = true.
Proof.
split.
- intros self older current c k x p s cy pf v Hh Hc Hk Hx Hp Hs Hcy Hpf.
  unfold get_state_vector. rewrite Hh, rev_app_distr. cbn [rev app].
  destruct (match rev older with
            | [] => _
            | previous :: _ => _
            end) as [[[cr kr] pr]|e]; cbn [mbind res_bind]; [|discriminate].
  rewrite (normalised_reading _ _ _ _ Hc) by reflexivity.
  rewrite (normalised_reading _ _ _ _ Hk) by reflexivity.
  rewrite (normalised_reading _ _ _ _ Hx) by reflexivity.
  rewrite (normalised_reading _ _ _ _ Hp) by reflexivity.
  rewrite (normalised_reading _ _ _ _ Hs) by reflexivity.
  rewrite (normalised_reading _ _ _ _ Hcy) by reflexivity.
  rewrite (normalised_reading _ _ _ _ Hpf) by reflexivity.
  rewrite B64.lit_100_0, B64.lit_1000_0, B64.lit_10_0.
  intros E. inversion E. repeat split; reflexivity.
- eexists. split; [vm_compute; reflexivity|].
  repeat split; vm_compute; reflexivity.
Qed.

Lemma state_vector_ratios_unclamped_witness :
  ∃ v : list float,
    get_state_vector (polled sample_stats) = Ok v
    ∧ v !! 4%nat = Some (2500.5 / 1000)%float.
Proof.
eexists. split; [vm_compute; reflexivity|].
refine (proj1 (proj2 (proj2 (proj1 state_vector_ratios_unclamped
  (polled sample_stats) [] _ _ _ _ _ _ _ _ _ eq_refl eq_refl eq_refl eq_refl
  eq_refl eq_refl eq_refl eq_refl eq_refl)))).
Defined.

(** ** Polling the stats file *)

Section Polling.

Context {F : Type} `{PyFloat F}.

Lemma convert_refused (value : string) :
  (∃ e, convert (F:=F) value = Raise e) ↔ refused value = true.
Proof.
unfold convert, refused, py_float, py_int.
destruct (Scan.has_dot value).
- destruct ((Scan.count Scan.is_dot value =? 1)%nat
            && negb (Scan.count Scan.is_digit value =? 0)%nat);
    cbn; split; try discriminate; eauto.
  intros [e He]. discriminate.
- destruct (int_max_str_digits <? String.length value)%nat;
    cbn; split; try discriminate; eauto.
  intros [e He]. discriminate.
Qed.

Lemma field_raises (key : string) (cls : ascii → bool) (percent : bool)
    (content : string) (current : pynum F) (e : exn) :
  field key cls percent content current = Raise e ↔
  ∃ value, Scan.search key cls percent content = Some value
           ∧ convert (F:=F) value = Raise e.
Proof.
unfold field. destruct (Scan.search key cls percent content) as [value|].
- split; [eauto|]. now intros (v & [= <-] & Hv).
- split; [discriminate|]. now intros (v & Hv & _).
Qed.

Lemma parse_content_fields (content : string) (metrics : FuzzingMetrics F) :
  parse_content content = Ok metrics →
  Forall (λ pat : string * (ascii → bool) * bool,
            ∃ (d a : pynum F),
              field (fst (fst pat)) (snd (fst pat)) (snd pat) content d
              = Ok a) patterns.
Proof.
unfold parse_content.
repeat (match goal with
        | |- context [field ?k ?c ?p content ?d] =>
            let E := fresh "E" in
            destruct (field k c p content d) as [?|e'] eqn:E;
            cbn [mbind res_bind]; [|discriminate]
        end).
intros _. unfold patterns. repeat constructor; cbn [fst snd]; eauto.
Qed.

(** The body of the [try] raises exactly when some pattern matches a
    token that does not convert. *)
Lemma parse_content_raises (content : string) :
  (∃ e, parse_content (F:=F) content = Raise e) ↔
  ∃ key cls percent value,
    In (key, cls, percent) patterns
    ∧ Scan.search key cls percent content = Some value
    ∧ refused value = true.
Proof.
split.
- intros [e He]. unfold parse_content in He.
  repeat (match type of He with
          | context [field ?k ?c ?p content ?d] =>
              let E := fresh "E" in
              destruct (field k c p content d) as [?|e'] eqn:E;
              cbn [mbind res_bind] in He;
              [|apply field_raises in E; destruct E as (value & Hs & Hc);
                exists k, c, p, value;
                split; [unfold patterns; cbn; tauto|];
                split; [exact Hs|];
                apply convert_refused; eauto]
          end).
  discriminate.
- intros (key & cls & percent & value & Hin & Hs & Hr).
  apply convert_refused in Hr. destruct Hr as [e Hc].
  destruct (parse_content content) as [metrics|e'] eqn:Hp; [|eauto].
  exfalso. apply parse_content_fields in Hp.
  rewrite List.Forall_forall in Hp. apply Hp in Hin. cbn [fst snd] in Hin.
  destruct Hin as (d & a & Hd).
  assert (Hf : field key cls percent content d = Raise e)
    by (apply field_raises; eauto).
  rewrite Hf in Hd. discriminate.
Qed.

Lemma update_unreadable (self : FeedbackAnalyzer F) (file : option string)
    (now : F) :
  parse_fuzzer_stats (F:=F) file = None → update self file now = (false, self).
Proof. unfold update, get_current_metrics. now intros ->. Qed.

Lemma update_readable (self : FeedbackAnalyzer F) (file : option string)
    (now : F) (metrics : FuzzingMetrics F) :
  parse_fuzzer_stats file = Some metrics →
  fst (update self file now) = true
  ∧ metrics_history (snd (update self file now))
    = (if history_size self
          <? Z.of_nat (length (metrics_history self ++ [metrics]))
       then tail (metrics_history self ++ [metrics])
       else metrics_history self ++ [metrics])
  ∧ last_update_time (snd (update self file now)) = now.
Proof. unfold update, get_current_metrics. intros ->. now cbn. Qed.

End Polling.

(** C4, as the claim states it, fails: a field that cannot be parsed is
    not an error.  With a coverage of [abc%] the pattern finds nothing,
    the poll succeeds, and a snapshot with coverage 0.0 is appended to the
    history, which was empty. *)
Lemma unparsable_field_is_appended :
  Scan.search "bitmap_cvg" Scan.number_class true "bitmap_cvg : abc%" = None
  ∧ update (fresh_analyzer 1793000000%float) (Some "bitmap_cvg : abc%")
      1793000060%float
    = (true, {|
         history_size := 10;
         metrics_history := [FuzzingMetrics_init];
         last_update_time := 1793000060%float;
         baseline_metrics := Some FuzzingMetrics_init
       |})
  ∧ metrics_history (fresh_analyzer 1793000000%float) = [].
Proof. repeat split; vm_compute; reflexivity. Qed.

(** C4 (amended): a poll fails, returning [False] and leaving the analyzer
    as it was (history, baseline and time of the last update), exactly when
    [parse_fuzzer_stats] gives [None]: the stats file cannot be read, or
    some pattern matches a token that [float()] or [int()] refuses (several
    dots, dots only, or more than 4300 digits).  There is one failure
    outcome, not two.  A field whose pattern matches nowhere is no failure:
    it keeps its default of zero, and the snapshot is appended. *)
Theorem update_fails_only_on_refused_token :
  (∀ (self : FeedbackAnalyzer float) (file : option string) (now : float),
     parse_fuzzer_stats (F:=float) file = None →
     update self file now = (false, self))
  ∧ (∀ file : option string,
       parse_fuzzer_stats (F:=float) file = None ↔
       file = None
       ∨ ∃ content key cls percent value,
           file = Some content
           ∧ In (key, cls, percent) patterns
           ∧ Scan.search key cls percent content = Some value
           ∧ refused value = true)
  ∧ (∀ (self : FeedbackAnalyzer float) (file : option string) (now : float)
       (metrics : FuzzingMetrics float),
       parse_fuzzer_stats file = Some metrics →
       fst (update self file now) = true
       ∧ metrics_history (snd (update self file now))
         = (if history_size self
               <? Z.of_nat (length (metrics_history self ++ [metrics]))
            then tail (metrics_history self ++ [metrics])
            else metrics_history self ++ [metrics])
       ∧ last_update_time (snd (update self file now)) = now)
  ∧ (∀ content : string,
       (∀ key cls percent,
          In (key, cls, percent) patterns →
          Scan.search key cls percent content = None) →
       parse_fuzzer_stats (F:=float) (Some content)
       = Some FuzzingMetrics_init).
Proof.
split; [exact update_unreadable|].
split.
{ intros [content|]; cbn [parse_fuzzer_stats].
  - pose proof (parse_content_raises (F:=float) content) as Hr.
    destruct (parse_content content) as [metrics|e]; split.
    + discriminate.
    + intros [Hn|(c & key & cls & percent & value & [= <-] & Hx)];
        [discriminate|].
      destruct (proj2 Hr) as [e He]; [eauto 10|discriminate].
    + intros _. right.
      destruct (proj1 Hr) as (key & cls & percent & value & Hx); [eauto|].
      exists content, key, cls, percent, value. now split.
    + reflexivity.
  - split; [now left|reflexivity]. }
split; [exact update_readable|].
intros content Hnone. cbn [parse_fuzzer_stats]. unfold parse_content, field.
rewrite !Hnone by (unfold patterns; cbn; tauto).
reflexivity.
Qed.

Lemma update_fails_only_on_refused_token_witness :
  update (fresh_analyzer 1793000000%float) (Some "execs_per_sec : 1.2.3")
    1793000060%float
  = (false, fresh_analyzer 1793000000%float).
Proof.
apply (proj1 update_fails_only_on_refused_token). vm_compute. reflexivity.
Defined.

(** ** The strategy catalog *)

Lemma lookup_in_range (action : Z) :
  0 <= action < 8 →
  ∃ s, Strategy.lookup action = Ok s ∧ Strategy.value s = action.
Proof.
intros Hr.
assert (Hc : action = 0 ∨ action = 1 ∨ action = 2 ∨ action = 3
             ∨ action = 4 ∨ action = 5 ∨ action = 6 ∨ action = 7) by lia.
repeat (destruct Hc as [->|Hc]; [eexists; split; reflexivity|]).
subst. eexists; split; reflexivity.
Qed.

Section Catalog.

Context {F : Type} `{PyFloat F}.

Lemma count_selection_ok (strategy : MutationStrategy)
    (stats : gmap MutationStrategy (StrategyStats F)) :
  (∀ s, is_Some (stats !! s)) →
  ∃ stats', count_selection strategy stats = Some stats'
            ∧ ∀ s, is_Some (stats' !! s).
Proof.
intros Hall. unfold count_selection.
destruct (Hall strategy) as [entry ->].
eexists. split; [reflexivity|].
intros s. destruct (decide (strategy = s)) as [->|Hne].
- rewrite lookup_insert_eq. eauto.
- rewrite lookup_insert_ne by exact Hne. apply Hall.
Qed.

Lemma select_strategy_value (self : MutationStrategySelector F)
    (action : Z) :
  catalog_ok self →
  ∃ strategy self',
    select_strategy self action = Ok (strategy, self')
    ∧ Strategy.value strategy
      = (if (action <? 0) || (8 <=? action) then 5 else action)
    ∧ current_strategy self' = Some strategy
    ∧ strategy_history self' = strategy_history self ++ [strategy]
    ∧ catalog_ok self'.
Proof.
intros [Hn Hall]. unfold select_strategy. rewrite Hn.
set (chosen := if (action <? 0) || (8 <=? action)
               then Strategy.value HAVOC_MEDIUM else action).
assert (Hr : 0 <= chosen < 8).
{ unfold chosen. destruct (action <? 0) eqn:E1;
    destruct (8 <=? action) eqn:E2; cbn; lia. }
destruct (lookup_in_range chosen Hr) as (s & Hs & Hv).
rewrite Hs. cbn [mbind res_bind].
destruct (count_selection_ok s (strategy_stats self) Hall)
  as (stats' & -> & Hall').
exists s. eexists. split; [reflexivity|].
split; [exact Hv|]. cbn. repeat split; try assumption.
Qed.

End Catalog.



(** ** Checkpoints *)

(** C8: saving the agent and loading the file back, into this agent or
    another one of the same architecture, restores the network and the
    optimizer; the deterministic action, its log-probability and the value
    for any state are then those the saving agent gives, whatever the
    random generator is at. *)
Theorem checkpoint_round_trip {F : Type} `{Torch F}
    (self other : PPOAgent) (filepath : string)
    (files : gmap string Checkpoint) (state : list F) (rng rng' : Rng) :
  ∃ loaded : PPOAgent,
    load other filepath (save self filepath files) = Ok loaded
    ∧ network loaded = network self
    ∧ optimizer loaded = optimizer self
    ∧ states loaded = states other
    ∧ get_action (network loaded) (FloatTensor state) true rng'
      = get_action (network self) (FloatTensor state) true rng
    ∧ fst (select_action loaded state true rng')
      = fst (select_action self state true rng).
Proof.
unfold load, save. rewrite lookup_insert_eq.
eexists. split; [reflexivity|]. cbn.
repeat split; reflexivity.
Qed.

(** ** Generalized advantage estimation *)

Section GAE.

Context {F : Type} `{PyFloat F} `{Torch F}.

Lemma gae_formula_length (g l : F) (rs vs : list F) (ds : list bool)
    (nv : F) :
  length vs = length rs → length ds = length rs →
  length (gae_formula g l rs vs ds nv) = length rs.
Proof.
revert vs ds. induction rs as [|r rs IH]; intros [|v vs] [|d ds];
  cbn; try discriminate; try reflexivity.
intros Hv Hd. f_equal. apply IH; congruence.
Qed.

Lemma gae_formula_drop (g l : F) (rs vs : list F) (ds : list bool) (nv : F)
    (t : nat) :
  length vs = length rs → length ds = length rs →
  drop t (gae_formula g l rs vs ds nv)
  = gae_formula g l (drop t rs) (drop t vs) (drop t ds) nv.
Proof.
revert rs vs ds. induction t as [|t IH]; intros rs vs ds Hv Hd.
- now rewrite !drop_0.
- destruct rs as [|r rs], vs as [|v vs], ds as [|d ds];
    try discriminate; try reflexivity.
  cbn [gae_formula drop]. apply IH; cbn in *; congruence.
Qed.

Lemma at_index_some {A : Type} (a : list A) (t : nat) (x : A) :
  a !! t = Some x → at_index a t = Ok x.
Proof. unfold at_index. now intros ->. Qed.

(** One round of the loop writes the advantage of step [t] in front of
    those of the later steps. *)
Lemma gae_step_formula (self : PPOAgent) (nv : F) (t : nat) :
  let n := length (rewards self) in
  let spec := gae_formula (gamma self) (gae_lambda self) (rewards self)
                (values self) (dones self) nv in
  length (values self) = n → length (dones self) = n → (t < n)%nat →
  gae_step self nv (values self ++ [nv]) t
    (zeros (S t) ++ drop (S t) spec, hd (of_decimal 0 0) (drop (S t) spec))
  = Ok (zeros t ++ drop t spec, hd (of_decimal 0 0) (drop t spec)).
Proof.
intros n spec Hv Hd Ht.
destruct (lookup_lt_is_Some_2 (rewards self) t Ht) as [r Hr].
destruct (lookup_lt_is_Some_2 (values self) t ltac:(lia)) as [v Hvt].
destruct (lookup_lt_is_Some_2 (dones self) t ltac:(lia)) as [d Hdt].
assert (Hspec : drop t spec
          = fadd (fsub (fadd r (fmul (fmul (gamma self)
                                        (hd nv (drop (S t) (values self))))
                                  (non_terminal d))) v)
              (fmul (fmul (fmul (gamma self) (gae_lambda self))
                       (non_terminal d))
                 (hd (of_decimal 0 0) (drop (S t) spec)))
            :: drop (S t) spec).
{ unfold spec. rewrite !gae_formula_drop by assumption.
  rewrite (drop_S _ _ _ Hr), (drop_S _ _ _ Hvt), (drop_S _ _ _ Hdt).
  reflexivity. }
assert (Hnext : (if (t =? n - 1)%nat then Ok nv
                 else at_index (values self ++ [nv]) (t + 1))
                = Ok (hd nv (drop (S t) (values self)))).
{ destruct (Nat.eqb_spec t (n - 1)) as [E|E].
  - rewrite drop_ge by lia. reflexivity.
  - destruct (lookup_lt_is_Some_2 (values self) (S t) ltac:(lia))
      as [v' Hv'].
    unfold at_index. rewrite lookup_app_l by lia.
    replace (t + 1)%nat with (S t) by lia. rewrite Hv'.
    now rewrite (drop_S _ _ _ Hv'). }
assert (Hall : at_index (values self ++ [nv]) t = Ok v).
{ unfold at_index. now rewrite lookup_app_l, Hvt by lia. }
unfold gae_step. fold n.
rewrite (at_index_some _ _ _ Hdt). cbn [mbind res_bind].
rewrite Hnext. cbn [mbind res_bind].
rewrite (at_index_some _ _ _ Hr). cbn [mbind res_bind].
rewrite Hall. cbn [mbind res_bind].
rewrite Hspec. cbn [hd]. f_equal. f_equal.
unfold zeros. cbn [replicate]. rewrite replicate_cons_app, <- app_assoc.
rewrite insert_app_r_alt by (rewrite length_replicate; lia).
rewrite length_replicate, Nat.sub_diag. reflexivity.
Qed.

Lemma gae_loop_formula (self : PPOAgent) (nv : F) (k : nat) :
  let n := length (rewards self) in
  let spec := gae_formula (gamma self) (gae_lambda self) (rewards self)
                (values self) (dones self) nv in
  length (values self) = n → length (dones self) = n → (k ≤ n)%nat →
  gae_loop self nv (values self ++ [nv]) k
    (zeros k ++ drop k spec, hd (of_decimal 0 0) (drop k spec))
  = Ok (spec, hd (of_decimal 0 0) spec).
Proof.
intros n spec Hv Hd. subst n spec. induction k as [|k IH]; intros Hk.
- reflexivity.
- cbn [gae_loop].
  rewrite (gae_step_formula self nv k Hv Hd ltac:(lia)).
  cbn [mbind res_bind]. apply IH. lia.
Qed.

(** On a buffer whose lists have one length, [compute_gae] returns the
    advantages of the formula, and the returns are advantages plus
    values. *)
Lemma compute_gae_formula (self : PPOAgent) (nv : F) :
  length (values self) = length (rewards self) →
  length (dones self) = length (rewards self) →
  compute_gae self nv
  = Ok (gae_formula (gamma self) (gae_lambda self) (rewards self)
          (values self) (dones self) nv,
        zip_with fadd
          (gae_formula (gamma self) (gae_lambda self) (rewards self)
             (values self) (dones self) nv)
          (values self)).
Proof.
intros Hv Hd. unfold compute_gae.
pose proof (gae_loop_formula self nv (length (rewards self)) Hv Hd
              (Nat.le_refl _)) as Hloop.
cbn zeta in Hloop.
rewrite drop_ge in Hloop by (rewrite gae_formula_length by assumption; lia).
rewrite app_nil_r in Hloop. cbn [hd] in Hloop.
rewrite Hloop. cbn [mbind res_bind fst].
unfold np_add.
rewrite gae_formula_length, Hv, Nat.eqb_refl by assumption.
reflexivity.
Qed.

End GAE.

(** *** A single terminal step, in binary64

    With [done] the products with [1.0 - True] are zeros of either sign
    (as long as the other factor is finite), and adding such a zero changes
    at most the sign of a zero. *)

Module Zeros.

Lemma alike_trans (X Y Z : spec_float) : alike X Y → alike Y Z → alike X Z.
Proof.
intros [->|(s & s' & -> & ->)] [E|(t & t' & E1 & E2)]; subst.
- now left.
- right. eauto.
- right. eauto.
- right. eauto.
Qed.

Lemma add_zero (X : spec_float) (s : bool) :
  alike (SF64add X (S754_zero s)) X.
Proof.
destruct X as [sx|sx| |sx mx ex]; cbn; try (now left).
destruct sx, s; cbn; (now left) || (right; eauto).
Qed.

Lemma sub_alike (X X' V : spec_float) :
  alike X X' → alike (SF64sub X V) (SF64sub X' V).
Proof.
intros [->|(s & s' & -> & ->)]; [now left|].
destruct V as [sv|sv| |sv mv ev]; cbn; try (now left).
destruct s, s', sv; cbn; (now left) || (right; eauto).
Qed.

Lemma finite_shape (x : float) :
  is_finite x = true →
  (∃ s, Prim2SF x = S754_zero s) ∨ (∃ s m e, Prim2SF x = S754_finite s m e).
Proof.
unfold is_finite. intros Hf. apply negb_true_iff, orb_false_iff in Hf.
destruct Hf as [Hn Hi]. unfold Prim2SF. rewrite Hn, Hi.
destruct (is_zero x); [left; eauto|].
destruct (Z.frexp x) as [r exp].
destruct (shr_fexp prec emax (Uint63Axioms.to_Z (normfr_mantissa r))
            (exp - prec)%Z loc_Exact) as [shr e'].
destruct (shr_m shr); eauto 6.
Qed.

Lemma finite_times_zero (x : float) :
  is_finite x = true → ∃ s, Prim2SF (x * 0)%float = S754_zero s.
Proof.
intros Hf. rewrite mul_spec.
assert (E0 : Prim2SF 0 = S754_zero false) by (vm_compute; reflexivity).
rewrite E0.
destruct (finite_shape x Hf) as [[s ->]|(s & m & e & ->)]; cbn; eauto.
Qed.

Lemma zero_times_zero (x : float) (s : bool) :
  Prim2SF x = S754_zero s → ∃ s', Prim2SF (x * 0)%float = S754_zero s'.
Proof.
intros Hx. rewrite mul_spec, Hx.
assert (E0 : Prim2SF 0 = S754_zero false) by (vm_compute; reflexivity).
rewrite E0. cbn. eauto.
Qed.

Lemma alike_same_number (x y : float) :
  alike (Prim2SF x) (Prim2SF y) → same_number x y.
Proof.
intros [E|(s & s' & Ex & Ey)].
- apply Prim2SF_inj in E. subst y. unfold same_number, is_nan.
  destruct (x =? x)%float; [now left|right; now split].
- left. rewrite FloatAxioms.eqb_spec, Ex, Ey. reflexivity.
Qed.

(** The advantage of a single terminal step is [reward - value]. *)
Lemma terminal_advantage (g l r v nv : float) :
  is_finite (g * nv)%float = true →
  is_finite (g * l)%float = true →
  same_number (r + g * nv * 0 - v + g * l * 0 * 0)%float (r - v)%float.
Proof.
intros Hnv Hl. apply alike_same_number.
destruct (finite_times_zero _ Hnv) as [s1 E1].
destruct (finite_times_zero _ Hl) as [s2 E2].
destruct (zero_times_zero _ _ E2) as [s3 E3].
rewrite add_spec, E3, sub_spec, add_spec, E1, (sub_spec r v).
eapply alike_trans; [apply add_zero|].
apply sub_alike, add_zero.
Qed.

End Zeros.

(** C6, as the claim states it, fails in binary64: the bootstrap value of
    a terminal step is not left out but multiplied by [1.0 - True], and
    infinity times 0.0 is NaN.  For the single terminal transition with
    reward 1.0 and value 0.5, a bootstrap value of infinity gives the
    advantage NaN, which is not [reward - value]. *)
Lemma terminal_advantage_of_infinite_bootstrap :
  @compute_gae float binary64 Toy.torch Toy.agent infinity
  = Ok ([nan], [(nan + 0.5)%float])
  ∧ is_nan nan = true
  ∧ (nan =? 1 - 0.5)%float = false
  ∧ ¬ same_number nan (1 - 0.5)%float.
Proof.
split; [vm_compute; reflexivity|].
split; [reflexivity|]. split; [reflexivity|].
intros [E|[_ E]]; vm_compute in E; discriminate E.
Qed.

(** C6 (amended): on a buffer whose lists have one length, [compute_gae]
    returns the advantages of the recurrence
    delta_t = r_t + gamma*V(s_{t+1})*(1-done_t) - V(s_t),
    A_t = delta_t + gamma*lambda*(1-done_t)*A_{t+1}, where [1-done_t] is
    1.0 for a step that goes on and 0.0 for a terminal one, and returns
    equal to advantages plus values; for a single transition with [done]
    true the advantage is [reward - value] (as numbers: Python's [==], a
    zero may differ in sign) provided [gamma*next_value] and
    [gamma*lambda] are finite, and always so over the rationals. *)
Theorem gae_recurrence_and_terminal_step :
  (∀ (F : Type) (P : PyFloat F) (T : Torch F) (self : PPOAgent) (nv : F),
     length (values self) = length (rewards self) →
     length (dones self) = length (rewards self) →
     compute_gae self nv
     = Ok (gae_formula (gamma self) (gae_lambda self) (rewards self)
             (values self) (dones self) nv,
           zip_with fadd
             (gae_formula (gamma self) (gae_lambda self) (rewards self)
                (values self) (dones self) nv)
             (values self)))
  ∧ (non_terminal (F:=float) false = 1%float
     ∧ non_terminal (F:=float) true = 0%float
     ∧ (non_terminal (F:=Q) false == 1)%Q
     ∧ (non_terminal (F:=Q) true == 0)%Q)
  ∧ (∀ (T : Torch float) (self : PPOAgent) (r v nv : float),
       rewards self = [r] → values self = [v] → dones self = [true] →
       is_finite (gamma self * nv)%float = true →
       is_finite (gamma self * gae_lambda self)%float = true →
       ∃ a : float,
         compute_gae self nv = Ok ([a], [(a + v)%float])
         ∧ same_number a (r - v)%float)
  ∧ (∀ (T : Torch Q) (self : PPOAgent) (r v nv : Q),
       rewards self = [r] → values self = [v] → dones self = [true] →
       ∃ a : Q,
         compute_gae self nv = Ok ([a], [(a + v)%Q]) ∧ (a == r - v)%Q).
Proof.
split; [intros F P T; exact compute_gae_formula|].
split.
{ split; [reflexivity|]. split; [reflexivity|].
  split; vm_compute; reflexivity. }
split.
- intros T self r v nv Hr Hv Hd Hnv Hl.
  eexists. split.
  + rewrite compute_gae_formula by (rewrite Hr, ?Hv, ?Hd; reflexivity).
    rewrite Hr, Hv, Hd. reflexivity.
  + exact (Zeros.terminal_advantage _ _ r v nv Hnv Hl).
- intros T self r v nv Hr Hv Hd.
  eexists. split.
  + rewrite compute_gae_formula by (rewrite Hr, ?Hv, ?Hd; reflexivity).
    rewrite Hr, Hv, Hd. reflexivity.
  + cbn. unfold non_terminal. cbn. unfold Exact.of_decimal. cbn. ring.
Qed.

Lemma gae_recurrence_and_terminal_step_witness :
  (∃ a : float,
     @compute_gae float binary64 Toy.torch Toy.agent 0.25%float
     = Ok ([a], [(a + 0.5)%float])
     ∧ same_number a (1 - 0.5)%float)
  ∧ @compute_gae float binary64 Toy.torch
      (with_buffer Toy.agent [] [] [] [1; 2]%float [0.5; 0.25]%float
         [false; true]) 4%float
    = Ok (gae_formula (gamma Toy.agent) (gae_lambda Toy.agent) [1; 2]%float
            [0.5; 0.25]%float [false; true] 4%float,
          zip_with fadd
            (gae_formula (gamma Toy.agent) (gae_lambda Toy.agent)
               [1; 2]%float [0.5; 0.25]%float [false; true] 4%float)
            [0.5; 0.25]%float).
Proof.
split.
- apply (proj1 (proj2 (proj2 gae_recurrence_and_terminal_step))
           Toy.torch Toy.agent); reflexivity.
- apply (proj1 gae_recurrence_and_terminal_step float binary64 Toy.torch
           (with_buffer Toy.agent [] [] [] [1; 2]%float [0.5; 0.25]%float
              [false; true]) 4%float); reflexivity.
Defined.

(** ** The PPO update and its threshold *)

Section Update.

Context {F : Type} `{PyFloat F} `{Torch F} `{!Optimiser F}.

Lemma ppo_update_empty (self : PPOAgent) (n_epochs batch_size : Z)
    (rng : nat → Rng) :
  states self = [] → ppo_update self n_epochs batch_size rng = (Ok ∅, self).
Proof. unfold ppo_update. now intros ->. Qed.

(** On a buffer that is not empty an update that returns has trained:
    the buffer is cleared and the statistics are the five averages. *)
Lemma ppo_update_trains (self trained : PPOAgent) (n_epochs batch_size : Z)
    (rng : nat → Rng) (stats : gmap string F) :
  states self ≠ [] →
  ppo_update self n_epochs batch_size rng = (Ok stats, trained) →
  states trained = [] ∧ rewards trained = [] ∧ values trained = []
  ∧ dom stats = {["policy_loss"; "value_loss"; "entropy"; "mean_return";
                  "mean_advantage"]}
  ∧ stats ≠ ∅.
Proof.
intros Hne. unfold ppo_update.
destruct (states self) as [|first others]; [contradiction|].
destruct (compute_gae self _) as [[advantages returns]|e]; [|discriminate].
destruct (epochs self _ _ rng _ batch_size 0 _ _) as [p|e]; [|discriminate].
destruct (average (total_policy_loss p) (n_updates p)) as [pl|e];
  cbn [mbind res_bind]; [|discriminate].
destruct (average (total_value_loss p) (n_updates p)) as [vl|e];
  cbn [mbind res_bind]; [|discriminate].
destruct (average (total_entropy p) (n_updates p)) as [en|e];
  cbn [mbind res_bind]; [|discriminate].
intros [= <- <-].
split; [reflexivity|]. split; [reflexivity|]. split; [reflexivity|].
split.
- rewrite !dom_insert_L, dom_empty_L. set_solver.
- intros E. apply (f_equal (λ m : gmap string F, m !! "policy_loss")) in E.
  rewrite lookup_insert_eq, lookup_empty in E. discriminate.
Qed.

Lemma select_action_buffer (self acting : PPOAgent) (state : list F)
    (deterministic : bool) (rng : Rng) (action : Z) :
  select_action self state deterministic rng = (action, acting) →
  network acting = network self
  ∧ optimizer acting = optimizer self
  ∧ states acting = states self ++ [state]
  ∧ rewards acting = rewards self
  ∧ dones acting = dones self.
Proof.
unfold select_action.
destruct (get_action (network self) (FloatTensor state) deterministic rng)
  as [[a l] v].
intros [= _ <-]. repeat split; reflexivity.
Qed.

(** Below the threshold of [training_step] the agent's [update] is not
    called: the model stays, the buffer grows by the step's transition,
    and the step reports no update statistics. *)
Lemma training_step_below_threshold (self : FuzzingController)
    (world : World) :
  (length (states (agent self)) + 1 < 32)%nat →
  network (agent (snd (training_step self world))) = network (agent self)
  ∧ optimizer (agent (snd (training_step self world)))
    = optimizer (agent self)
  ∧ total_updates (snd (training_step self world)) = total_updates self
  ∧ ∀ stats : StepStats,
      fst (training_step self world) = Ok (Some stats) →
      update_stats stats = ∅
      ∧ states (agent (snd (training_step self world)))
        = states (agent self) ++ [stat_state stats]
      ∧ rewards (agent (snd (training_step self world)))
        = rewards (agent self) ++ [stat_reward stats]
      ∧ dones (agent (snd (training_step self world)))
        = dones (agent self) ++ [stat_done stats].
Proof.
intros Hlen. unfold training_step.
destruct (update (feedback_analyzer self) (stats_file world) (clock world))
  as [polled analyzer].
cbn zeta.
cbn [agent mutation_selector feedback_analyzer episodes total_updates].
destruct polled; cbn [negb];
  [|cbn; do 3 (split; [reflexivity|]); intros ? ?; discriminate].
destruct (get_state_and_reward analyzer) as [[state reward]|e];
  [|cbn; do 3 (split; [reflexivity|]); intros ? ?; discriminate].
destruct (select_action (agent self) state false (action_rng world))
  as [action acting] eqn:Hact.
apply select_action_buffer in Hact.
destruct Hact as (Hnet & Hopt & Hst & Hrw & Hdn).
cbn [agent mutation_selector feedback_analyzer episodes total_updates].
destruct (select_strategy (mutation_selector self) action)
  as [[strategy selector]|e];
  [|cbn; do 3 (split; [assumption || reflexivity|]); intros ? ?;
    discriminate].
destruct (attribute_outcome analyzer selector world) as [selector'|e];
  [|cbn; do 3 (split; [assumption || reflexivity|]); intros ? ?;
    discriminate].
assert (Hb : (32 <=? Z.of_nat (length (states
                (store_transition acting reward (is_done analyzer)))))
             = false).
{ apply Z.leb_gt. cbn. rewrite Hst, length_app. cbn. lia. }
rewrite Hb. cbn.
do 3 (split; [assumption || reflexivity|]).
intros stats [= <-]. cbn. rewrite Hst, Hrw, Hdn. repeat split; reflexivity.
Qed.
End Update.

(** C2, as the claim states it, fails: [update] itself has no threshold
    of 32.  With one stored transition it trains (ten epochs of one
    minibatch here), returns the five statistics and clears the buffer. *)
Lemma update_trains_below_32 :
  ∃ (stats : gmap string float) (trained : @PPOAgent float Toy.torch),
    @ppo_update float binary64 Toy.torch Toy.optimiser Toy.agent 10 32
      (λ _, tt)
    = (Ok stats, trained)
    ∧ length (@states float Toy.torch Toy.agent) = 1%nat
    ∧ stats !! "policy_loss" = Some 0%float
    ∧ @states float Toy.torch trained = []
    ∧ @optimizer float Toy.torch trained = 10%nat.
Proof.
eexists. eexists. split; [vm_compute; reflexivity|].
repeat split; vm_compute; reflexivity.
Qed.

(** C2 (amended): [update] does nothing and returns the empty statistics
    only on the empty buffer; on any other buffer an update that returns
    has trained on it, cleared it and returns the five statistics.  The
    threshold of 32 is in the controller: a [training_step] that leaves
    fewer than 32 stored transitions does not call [update], so the model
    and the count of updates stay, the buffer keeps its transitions and
    gains the one of the step, and no update statistics are reported. *)
Theorem update_threshold_is_in_training_step :
  (∀ (F : Type) (P : PyFloat F) (T : Torch F) (O : Optimiser F)
     (self : PPOAgent) (n_epochs batch_size : Z) (rng : nat → Rng),
     states self = [] →
     ppo_update self n_epochs batch_size rng = (Ok ∅, self))
  ∧ (∀ (F : Type) (P : PyFloat F) (T : Torch F) (O : Optimiser F)
       (self trained : PPOAgent) (n_epochs batch_size : Z)
       (rng : nat → Rng) (stats : gmap string F),
       states self ≠ [] →
       ppo_update self n_epochs batch_size rng = (Ok stats, trained) →
       states trained = [] ∧ rewards trained = [] ∧ values trained = []
       ∧ dom stats = {["policy_loss"; "value_loss"; "entropy";
                       "mean_return"; "mean_advantage"]}
       ∧ stats ≠ ∅)
  ∧ (∀ (F : Type) (P : PyFloat F) (T : Torch F) (O : Optimiser F)
       (self : FuzzingController) (world : World),
       (length (states (agent self)) + 1 < 32)%nat →
       network (agent (snd (training_step self world)))
       = network (agent self)
       ∧ optimizer (agent (snd (training_step self world)))
         = optimizer (agent self)
       ∧ total_updates (snd (training_step self world))
         = total_updates self
       ∧ ∀ stats : StepStats,
           fst (training_step self world) = Ok (Some stats) →
           update_stats stats = ∅
           ∧ states (agent (snd (training_step self world)))
             = states (agent self) ++ [stat_state stats]
           ∧ rewards (agent (snd (training_step self world)))
             = rewards (agent self) ++ [stat_reward stats]
           ∧ dones (agent (snd (training_step self world)))
             = dones (agent self) ++ [stat_done stats]).
Proof.
split; [intros F P T O; exact ppo_update_empty|].
split; [intros F P T O; exact ppo_update_trains|].
intros F P T O. exact training_step_below_threshold.
Qed.

Lemma update_threshold_is_in_training_step_witness :
  @total_updates float Toy.torch
    (snd (@training_step float binary64 Toy.torch Toy.optimiser
            toy_controller toy_world)) = 0
  ∧ @optimizer float Toy.torch
      (@agent float Toy.torch
         (snd (@training_step float binary64 Toy.torch Toy.optimiser
                 toy_controller toy_world))) = 0%nat.
Proof.
destruct (proj2 (proj2 update_threshold_is_in_training_step)
            float binary64 Toy.torch Toy.optimiser toy_controller toy_world)
  as (_ & Ho & Hu & _).
- cbn. lia.
- split; [exact Hu|exact Ho].
Defined.

(** ** Monotonicity of the reward *)

(** C9, as the claim states it, fails in binary64, where a sum can absorb
    the difference.  After a step that found a million paths, a coverage of
    50.00000000000001 earns the reward of a coverage of 50.0; and after a
    step that found 10^19 paths, two new crashes earn the reward of one. *)
Lemma larger_delta_same_reward :
  ∃ r r' : float,
    compute_reward
      (analyzer_with
         [snapshot (PFloat 0%float) (PInt 0) (PInt 0) (PInt 0) (PInt 0);
          snapshot (PFloat 50%float) (PInt 0) (PInt 1000000) (PInt 0)
            (PInt 0)] 1793000000%float) = Ok r
    ∧ compute_reward
        (analyzer_with
           [snapshot (PFloat 0%float) (PInt 0) (PInt 0) (PInt 0) (PInt 0);
            set_coverage
              (snapshot (PFloat 50%float) (PInt 0) (PInt 1000000) (PInt 0)
                 (PInt 0))
              (PFloat (of_decimal 5000000000000001 14))]
           1793000000%float) = Ok r
    ∧ fltb 50%float (of_decimal 5000000000000001 14) = true
    ∧ compute_reward
        (analyzer_with
           [snapshot (PFloat 0%float) (PInt 0) (PInt 0) (PInt 0) (PInt 0);
            snapshot (PFloat 0%float) (PInt 1) (PInt (10 ^ 19)) (PInt 0)
              (PInt 0)] 1793000000%float) = Ok r'
    ∧ compute_reward
        (analyzer_with
           [snapshot (PFloat 0%float) (PInt 0) (PInt 0) (PInt 0) (PInt 0);
            set_unique_crashes
              (snapshot (PFloat 0%float) (PInt 1) (PInt (10 ^ 19)) (PInt 0)
                 (PInt 0))
              (PInt 2)] 1793000000%float) = Ok r'.
Proof.
eexists. eexists.
split; [vm_compute; reflexivity|].
split; [vm_compute; reflexivity|].
split; [vm_compute; reflexivity|].
split; vm_compute; reflexivity.
Qed.

Section RewardExact.

#[local] Open Scope Q_scope.

Lemma exact_to_float (a : pynum Q) : to_float a = Ok (value a).
Proof. destruct a; reflexivity. Qed.

Lemma exact_delta (a b : pynum Q) :
  ∃ d : Q, delta a b = Ok d ∧ d == value a - value b.
Proof.
unfold delta. destruct a as [x|x], b as [y|y]; cbn; eexists;
  (split; [reflexivity|]); try reflexivity.
unfold Z.sub. rewrite inject_Z_plus, inject_Z_opp. reflexivity.
Qed.

(** The reward over the rationals, in terms of the differences. *)
Lemma exact_reward (self : FeedbackAnalyzer Q)
    (older : list (FuzzingMetrics Q)) (previous current : FuzzingMetrics Q) :
  metrics_history self = older ++ [previous; current] →
  ∃ r : Q,
    compute_reward self = Ok r
    ∧ r == 10 * (value (coverage current) - value (coverage previous))
           + 50 * (value (unique_crashes current)
                   - value (unique_crashes previous))
           + 1 * (value (paths_total current) - value (paths_total previous))
           + 0.5 * py_min (value (execs_per_sec current) / 1000) 1
           + 0.5 * (value (stability current) / 100).
Proof.
intros Hh.
destruct (exact_delta (coverage current) (coverage previous))
  as (dc & Hc & Ec).
destruct (exact_delta (unique_crashes current) (unique_crashes previous))
  as (dk & Hk & Ek).
destruct (exact_delta (paths_total current) (paths_total previous))
  as (dp & Hp & Ep).
unfold compute_reward. rewrite Hh, rev_snoc2.
rewrite (weighted_delta _ _ _ _ _ Hc), (weighted_delta _ _ _ _ _ Hk),
  (weighted_delta _ _ _ _ _ Hp).
rewrite (normalised_reading _ _ _ _ (exact_to_float _)) by reflexivity.
rewrite (normalised_reading _ _ _ _ (exact_to_float _)) by reflexivity.
eexists. split; [reflexivity|].
cbn [fadd fmul fdiv exact of_decimal].
assert (E10 : Exact.of_decimal 100 1 == 10) by reflexivity.
assert (E50 : Exact.of_decimal 500 1 == 50) by reflexivity.
assert (E1 : Exact.of_decimal 10 1 == 1) by reflexivity.
assert (E05 : Exact.of_decimal 5 1 == 0.5) by reflexivity.
assert (E1000 : Exact.of_decimal 10000 1 == 1000) by reflexivity.
assert (E100 : Exact.of_decimal 1000 1 == 100) by reflexivity.
assert (Emin : py_min (value (execs_per_sec current)
                       / Exact.of_decimal 10000 1) (Exact.of_decimal 10 1)
               == py_min (value (execs_per_sec current) / 1000) 1).
{ unfold py_min. cbn [fltb exact]. unfold Exact.ltb.
  rewrite E1000 at 1. rewrite E1 at 1.
  destruct (1 ?= value (execs_per_sec current) / 1000);
    rewrite ?E1000; reflexivity || exact E1. }
rewrite Emin, E10, E50, E1, E05, E100, Ec, Ek, Ep. ring.
Qed.

End RewardExact.

Section RewardOrder.

#[local] Open Scope float_scope.

Lemma weighted_inv (a b : pynum float) (w : float) {B : Type}
    (k : float → res B) (r : B) :
  (v ← py_sub a b; x ← py_mul v w; k x) = Ok r →
  ∃ d, delta a b = Ok d ∧ k (fmul d w) = Ok r.
Proof.
unfold delta, py_mul.
destruct (py_sub a b) as [v|]; cbn [mbind res_bind]; [|discriminate].
destruct (to_float v) as [x|]; cbn [mbind res_bind]; [|discriminate].
intros Hk. now exists x.
Qed.

Lemma reading_inv (a : pynum float) (c : float) {B : Type}
    (k : float → res B) (r : B) :
  (x ← py_truediv a c; k x) = Ok r → ∃ x, to_float a = Ok x.
Proof.
unfold py_truediv.
destruct (to_float a) as [x|]; cbn [mbind res_bind]; [|discriminate].
intros _. now exists x.
Qed.

(** A reward that is returned is the weighted sum of the differences. *)
Lemma reward_inv (self : FeedbackAnalyzer float)
    (older : list (FuzzingMetrics float))
    (previous current : FuzzingMetrics float) (r : float) :
  metrics_history self = older ++ [previous; current] →
  compute_reward self = Ok r →
  ∃ dc dk dp thr stab : float,
    delta (coverage current) (coverage previous) = Ok dc
    ∧ delta (unique_crashes current) (unique_crashes previous) = Ok dk
    ∧ delta (paths_total current) (paths_total previous) = Ok dp
    ∧ to_float (execs_per_sec current) = Ok thr
    ∧ to_float (stability current) = Ok stab
    ∧ r = 10 * dc + 50 * dk + 1 * dp
          + 0.5 * py_min (thr / 1000) 1 + 0.5 * (stab / 100).
Proof.
intros Hh Hr. pose proof Hr as Hr0.
unfold compute_reward in Hr. rewrite Hh, rev_snoc2 in Hr.
apply weighted_inv in Hr as (dc & Hc & Hr).
apply weighted_inv in Hr as (dk & Hk & Hr).
apply weighted_inv in Hr as (dp & Hp & Hr).
destruct (reading_inv _ _ _ _ Hr) as (thr & Ht).
rewrite (normalised_reading _ _ _ _ Ht) in Hr by reflexivity.
destruct (reading_inv _ _ _ _ Hr) as (stab & Hs).
exists dc, dk, dp, thr, stab. repeat (split; [assumption|]).
rewrite (reward_weighted_sum self older previous current dc dk dp thr stab
           Hh Hc Hk Hp Ht Hs) in Hr0.
now inversion Hr0.
Qed.

Lemma finite_add_l (x y : float) :
  Nearest.finite (Prim2SF (x + y)) = true → Nearest.finite (Prim2SF x) = true.
Proof.
rewrite add_spec. intros Hf. exact (proj1 (Monotone.add_finite _ _ Hf)).
Qed.

(** The sum of the five terms, in the first and in the second of them. *)
Lemma sum_le_first (a a' b c d e : float) :
  (a <=? a') = true →
  Nearest.finite (Prim2SF (a + b + c + d + e)) = true →
  Nearest.finite (Prim2SF (a' + b + c + d + e)) = true →
  (a + b + c + d + e <=? a' + b + c + d + e) = true.
Proof.
intros Hle F F'.
pose proof (finite_add_l _ _ F) as F3. pose proof (finite_add_l _ _ F') as F3'.
pose proof (finite_add_l _ _ F3) as F2. pose proof (finite_add_l _ _ F3') as F2'.
pose proof (finite_add_l _ _ F2) as F1. pose proof (finite_add_l _ _ F2') as F1'.
apply Monotone.add_le_l; [|assumption|assumption].
apply Monotone.add_le_l; [|assumption|assumption].
apply Monotone.add_le_l; [|assumption|assumption].
now apply Monotone.add_le_l.
Qed.

Lemma sum_le_second (a b b' c d e : float) :
  (b <=? b') = true →
  Nearest.finite (Prim2SF (a + b + c + d + e)) = true →
  Nearest.finite (Prim2SF (a + b' + c + d + e)) = true →
  (a + b + c + d + e <=? a + b' + c + d + e) = true.
Proof.
intros Hle F F'.
pose proof (finite_add_l _ _ F) as F3. pose proof (finite_add_l _ _ F') as F3'.
pose proof (finite_add_l _ _ F3) as F2. pose proof (finite_add_l _ _ F3') as F2'.
pose proof (finite_add_l _ _ F2) as F1. pose proof (finite_add_l _ _ F2') as F1'.
apply Monotone.add_le_l; [|assumption|assumption].
apply Monotone.add_le_l; [|assumption|assumption].
apply Monotone.add_le_l; [|assumption|assumption].
now apply Monotone.add_le_r.
Qed.

Lemma finite_mul_of_sum (w x b c d e : float) :
  Nearest.finite (Prim2SF (w * x + b + c + d + e)) = true →
  Nearest.finite (Prim2SF (w * x)) = true.
Proof.
intros F. now repeat apply finite_add_l in F.
Qed.

Lemma finite_mul_in_sum (a w x c d e : float) :
  Nearest.finite (Prim2SF (a + w * x + c + d + e)) = true →
  Nearest.finite (Prim2SF (w * x)) = true.
Proof.
intros F. do 3 apply finite_add_l in F.
rewrite add_spec in F. exact (proj2 (Monotone.add_finite _ _ F)).
Qed.

(** In binary64 the reward does not decrease with the coverage delta. *)
Lemma reward_le_coverage (self self' : FeedbackAnalyzer float)
    (older : list (FuzzingMetrics float))
    (previous current : FuzzingMetrics float) (c' : pynum float)
    (dc dc' r r' : float) :
  metrics_history self = older ++ [previous; current] →
  metrics_history self' = older ++ [previous; set_coverage current c'] →
  delta (coverage current) (coverage previous) = Ok dc →
  delta c' (coverage previous) = Ok dc' →
  (dc <=? dc') = true →
  compute_reward self = Ok r → compute_reward self' = Ok r' →
  is_finite r = true → is_finite r' = true →
  (r <=? r') = true.
Proof.
intros Hh Hh' Hc Hc' Hle Hr Hr' F F'.
destruct (reward_inv self older previous current r Hh Hr)
  as (dc0 & dk & dp & thr & stab & Hc0 & Hk & Hp & Ht & Hs & ->).
destruct (reward_inv self' older previous _ r' Hh' Hr')
  as (dc1 & dk1 & dp1 & thr1 & stab1 & Hc1 & Hk1 & Hp1 & Ht1 & Hs1 & ->).
cbn [set_coverage coverage unique_crashes paths_total execs_per_sec
     stability] in Hc1, Hk1, Hp1, Ht1, Hs1.
assert (dc0 = dc) as -> by congruence.
assert (dc1 = dc') as -> by congruence.
assert (dk1 = dk) as -> by congruence.
assert (dp1 = dp) as -> by congruence.
assert (thr1 = thr) as -> by congruence.
assert (stab1 = stab) as -> by congruence.
apply Monotone.is_finite_spec in F, F'.
apply sum_le_first; [|assumption|assumption].
apply (Monotone.mul_le 10 dc dc' 5629499534213120 (-49));
  [vm_compute; reflexivity|lia|exact Hle| |].
- exact (finite_mul_of_sum _ _ _ _ _ _ F).
- exact (finite_mul_of_sum _ _ _ _ _ _ F').
Qed.

(** In binary64 the reward does not decrease with the crash delta. *)
Lemma reward_le_crashes (self self' : FeedbackAnalyzer float)
    (older : list (FuzzingMetrics float))
    (previous current : FuzzingMetrics float) (k' : pynum float)
    (dk dk' r r' : float) :
  metrics_history self = older ++ [previous; current] →
  metrics_history self' = older ++ [previous; set_unique_crashes current k'] →
  delta (unique_crashes current) (unique_crashes previous) = Ok dk →
  delta k' (unique_crashes previous) = Ok dk' →
  (dk <=? dk') = true →
  compute_reward self = Ok r → compute_reward self' = Ok r' →
  is_finite r = true → is_finite r' = true →
  (r <=? r') = true.
Proof.
intros Hh Hh' Hk Hk' Hle Hr Hr' F F'.
destruct (reward_inv self older previous current r Hh Hr)
  as (dc & dk0 & dp & thr & stab & Hc & Hk0 & Hp & Ht & Hs & ->).
destruct (reward_inv self' older previous _ r' Hh' Hr')
  as (dc1 & dk1 & dp1 & thr1 & stab1 & Hc1 & Hk1 & Hp1 & Ht1 & Hs1 & ->).
cbn [set_unique_crashes coverage unique_crashes paths_total execs_per_sec
     stability] in Hc1, Hk1, Hp1, Ht1, Hs1.
assert (dk0 = dk) as -> by congruence.
assert (dk1 = dk') as -> by congruence.
assert (dc1 = dc) as -> by congruence.
assert (dp1 = dp) as -> by congruence.
assert (thr1 = thr) as -> by congruence.
assert (stab1 = stab) as -> by congruence.
apply Monotone.is_finite_spec in F, F'.
apply sum_le_second; [|assumption|assumption].
apply (Monotone.mul_le 50 dk dk' 7036874417766400 (-47));
  [vm_compute; reflexivity|lia|exact Hle| |].
- exact (finite_mul_in_sum _ _ _ _ _ _ F).
- exact (finite_mul_in_sum _ _ _ _ _ _ F').
Qed.

End RewardOrder.

(** C9 (amended): of two histories that differ only in the coverage of the
    most recent snapshot, or only in its crash count, the one with the
    larger delta has a reward that is at least as large, whenever both
    rewards are finite doubles; and it has the strictly larger reward when
    no operation rounds (the reward over the rationals).  In binary64 the
    two rewards can be equal. *)
Theorem reward_monotone :
  (∀ (self self' : FeedbackAnalyzer float)
     (older : list (FuzzingMetrics float))
     (previous current : FuzzingMetrics float) (c' : pynum float)
     (dc dc' r r' : float),
     metrics_history self = older ++ [previous; current] →
     metrics_history self' = older ++ [previous; set_coverage current c'] →
     delta (coverage current) (coverage previous) = Ok dc →
     delta c' (coverage previous) = Ok dc' →
     fleb dc dc' = true →
     compute_reward self = Ok r → compute_reward self' = Ok r' →
     is_finite r = true → is_finite r' = true →
     fleb r r' = true)
  ∧ (∀ (self self' : FeedbackAnalyzer float)
       (older : list (FuzzingMetrics float))
       (previous current : FuzzingMetrics float) (k' : pynum float)
       (dk dk' r r' : float),
       metrics_history self = older ++ [previous; current] →
       metrics_history self'
       = older ++ [previous; set_unique_crashes current k'] →
       delta (unique_crashes current) (unique_crashes previous) = Ok dk →
       delta k' (unique_crashes previous) = Ok dk' →
       fleb dk dk' = true →
       compute_reward self = Ok r → compute_reward self' = Ok r' →
       is_finite r = true → is_finite r' = true →
       fleb r r' = true)
  ∧ (∀ (self self' : FeedbackAnalyzer Q) (older : list (FuzzingMetrics Q))
       (previous current : FuzzingMetrics Q) (c' : pynum Q),
       metrics_history self = older ++ [previous; current] →
       metrics_history self' = older ++ [previous; set_coverage current c'] →
       (value (coverage current) - value (coverage previous)
        < value c' - value (coverage previous))%Q →
       ∃ r r' : Q,
         compute_reward self = Ok r ∧ compute_reward self' = Ok r'
         ∧ (r < r')%Q)
  ∧ (∀ (self self' : FeedbackAnalyzer Q) (older : list (FuzzingMetrics Q))
       (previous current : FuzzingMetrics Q) (k' : pynum Q),
       metrics_history self = older ++ [previous; current] →
       metrics_history self'
       = older ++ [previous; set_unique_crashes current k'] →
       (value (unique_crashes current) - value (unique_crashes previous)
        < value k' - value (unique_crashes previous))%Q →
       ∃ r r' : Q,
         compute_reward self = Ok r ∧ compute_reward self' = Ok r'
         ∧ (r < r')%Q).
Proof.
split; [exact reward_le_coverage|].
split; [exact reward_le_crashes|].
split.
- intros self self' older previous current c' Hh Hh' Hlt.
  destruct (exact_reward self older previous current Hh) as (r & Hr & Er).
  destruct (exact_reward self' older previous _ Hh') as (r' & Hr' & Er').
  exists r, r'. split; [exact Hr|]. split; [exact Hr'|].
  cbn [set_coverage coverage unique_crashes paths_total execs_per_sec
       stability] in Er'.
  rewrite Er, Er'. lra.
- intros self self' older previous current k' Hh Hh' Hlt.
  destruct (exact_reward self older previous current Hh) as (r & Hr & Er).
  destruct (exact_reward self' older previous _ Hh') as (r' & Hr' & Er').
  exists r, r'. split; [exact Hr|]. split; [exact Hr'|].
  cbn [set_unique_crashes coverage unique_crashes paths_total execs_per_sec
       stability] in Er'.
  rewrite Er, Er'. lra.
Qed.

Lemma reward_monotone_witness :
  fleb 1000500%float 1000500%float = true
  ∧ ∃ r r' : Q,
      compute_reward
        (analyzer_with
           [snapshot (PFloat 0%Q) (PInt 0) (PInt 0) (PInt 0) (PInt 0);
            snapshot (PFloat 50%Q) (PInt 0) (PInt 1000000) (PInt 0) (PInt 0)]
           1793000000%Q) = Ok r
      ∧ compute_reward
          (analyzer_with
             [snapshot (PFloat 0%Q) (PInt 0) (PInt 0) (PInt 0) (PInt 0);
              set_coverage
                (snapshot (PFloat 50%Q) (PInt 0) (PInt 1000000) (PInt 0)
                   (PInt 0))
                (PFloat (of_decimal (F:=Q) 5000000000000001 14))]
             1793000000%Q) = Ok r'
      ∧ (r < r')%Q.
Proof.
split.
- apply (proj1 reward_monotone
           (analyzer_with
              [snapshot (PFloat 0%float) (PInt 0) (PInt 0) (PInt 0) (PInt 0);
               snapshot (PFloat 50%float) (PInt 0) (PInt 1000000) (PInt 0)
                 (PInt 0)] 1793000000%float)
           (analyzer_with
              [snapshot (PFloat 0%float) (PInt 0) (PInt 0) (PInt 0) (PInt 0);
               set_coverage
                 (snapshot (PFloat 50%float) (PInt 0) (PInt 1000000) (PInt 0)
                    (PInt 0))
                 (PFloat (of_decimal 5000000000000001 14))]
              1793000000%float)
           []
           (snapshot (PFloat 0%float) (PInt 0) (PInt 0) (PInt 0) (PInt 0))
           (snapshot (PFloat 50%float) (PInt 0) (PInt 1000000) (PInt 0)
              (PInt 0))
           (PFloat (of_decimal 5000000000000001 14))
           50%float (of_decimal 5000000000000001 14));
    vm_compute; reflexivity.
- apply (proj1 (proj2 (proj2 reward_monotone)) _ _ []
           (snapshot (PFloat 0%Q) (PInt 0) (PInt 0) (PInt 0) (PInt 0))
           (snapshot (PFloat 50%Q) (PInt 0) (PInt 1000000) (PInt 0) (PInt 0))
           (PFloat (of_decimal 5000000000000001 14)));
    [reflexivity|reflexivity|vm_compute; reflexivity].
Defined.

(** * Further properties of the code *)

(** ** What a parsed snapshot looks like *)

Section ParsedSnapshot.

Context {F : Type} `{PyFloat F}.

Lemma span_class (cls : ascii → bool) (s tok rest : string) :
  Scan.span cls s = (tok, rest) → Scan.count (fun c => negb (cls c)) tok = 0%nat.
Proof.
revert tok rest. induction s as [|c s IH]; intros tok rest; cbn [Scan.span].
- now intros [= <- <-].
- destruct (cls c) eqn:Ec.
  + destruct (Scan.span cls s) as [tok' rest'].
    intros [= <- <-]. cbn [Scan.count]. rewrite Ec.
    now rewrite (IH tok' rest' eq_refl).
  + now intros [= <- <-].
Qed.

Lemma match_at_class (key : string) (cls : ascii → bool) (percent : bool)
    (s tok : string) :
  Scan.match_at key cls percent s = Some tok →
  Scan.count (fun c => negb (cls c)) tok = 0%nat.
Proof.
unfold Scan.match_at.
destruct (Scan.strip_prefix key s) as [rest|]; [|discriminate].
destruct (Scan.skip_space rest) as [|c rest']; [discriminate|].
destruct (Ascii.eqb_spec c ":"%char) as [->|Hc].
- destruct (Scan.span cls (Scan.skip_space rest')) as [tok' after] eqn:Es.
  pose proof (span_class _ _ _ _ Es) as Hcls.
  destruct tok' as [|c0 tok0]; [discriminate|].
  destruct percent.
  + destruct after as [|c1 after']; [discriminate|].
    destruct c1 as [[] [] [] [] [] [] [] []]; try discriminate.
    now intros [= <-].
  + now intros [= <-].
- destruct c as [[] [] [] [] [] [] [] []]; try discriminate.
  now contradict Hc.
Qed.

Lemma search_class (key : string) (cls : ascii → bool) (percent : bool)
    (content tok : string) :
  Scan.search key cls percent content = Some tok →
  Scan.count (fun c => negb (cls c)) tok = 0%nat.
Proof.
induction content as [|c content IH]; cbn [Scan.search].
- destruct (Scan.match_at key cls percent "") eqn:Em; [|discriminate].
  intros [= <-]. exact (match_at_class _ _ _ _ _ Em).
- destruct (Scan.match_at key cls percent (String c content)) eqn:Em.
  + intros [= <-]. exact (match_at_class _ _ _ _ _ Em).
  + exact IH.
Qed.

Lemma digit_is_no_dot (c : ascii) :
  Scan.is_digit c = true → Scan.is_dot c = false.
Proof.
destruct c as [[] [] [] [] [] [] [] []]; vm_compute; congruence.
Qed.

Lemma digits_have_no_dot (tok : string) :
  Scan.count (fun c => negb (Scan.digit_class c)) tok = 0%nat →
  Scan.has_dot tok = false.
Proof.
intros Hd. unfold Scan.has_dot.
assert (Scan.count Scan.is_dot tok = 0%nat) as ->; [|reflexivity].
induction tok as [|c tok IH]; [reflexivity|].
cbn [Scan.count] in *. unfold Scan.digit_class in Hd at 1.
destruct (Scan.is_digit c) eqn:Ec; cbn [negb] in Hd; [|discriminate].
rewrite (digit_is_no_dot c Ec). now apply IH.
Qed.

Lemma digit_value_nonneg (c : ascii) :
  Scan.is_digit c = true → 0 <= Scan.digit_value c.
Proof.
destruct c as [[] [] [] [] [] [] [] []]; vm_compute; congruence.
Qed.

Lemma digits_value_nonneg (tok : string) (acc : Z) :
  0 <= acc → 0 <= Scan.digits_value acc tok.
Proof.
revert acc. induction tok as [|c tok IH]; intros acc Hacc; [exact Hacc|].
cbn [Scan.digits_value].
destruct (Scan.is_digit c) eqn:Ec; [|now apply IH].
apply IH. pose proof (digit_value_nonneg c Ec). lia.
Qed.

Lemma count_field (key : string) (content : string) (v : pynum F) :
  field key Scan.digit_class false content (PInt 0) = Ok v → is_count v.
Proof.
unfold field.
destruct (Scan.search key Scan.digit_class false content) as [tok|] eqn:Es.
- pose proof (digits_have_no_dot tok (search_class _ _ _ _ _ Es)) as Hdot.
  unfold convert. rewrite Hdot. unfold py_int.
  destruct (_ <? _)%nat; [discriminate|].
  intros [= <-]. eexists. split; [reflexivity|].
  now apply digits_value_nonneg.
- intros [= <-]. exists 0. now split.
Qed.

(** X18: what every parsed snapshot looks like, whatever the file holds:
    [coverage] is [bitmap_cvg] and [paths_found] is [paths_total]; the
    nine readings taken with [\d+] are [int]s that are not negative; and
    [levels] and [last_hang], which no pattern reads, are 0. *)
Theorem parsed_snapshot_shape (file : option string)
    (metrics : FuzzingMetrics F) :
  parse_fuzzer_stats file = Some metrics →
  coverage metrics = bitmap_cvg metrics
  ∧ paths_found metrics = paths_total metrics
  ∧ levels metrics = PInt 0 ∧ last_hang metrics = PInt 0
  ∧ Forall is_count
      [total_execs metrics; paths_total metrics; unique_crashes metrics;
       unique_hangs metrics; pending_favs metrics; pending_total metrics;
       cycles_done metrics; last_crash metrics; last_path metrics].
Proof.
unfold parse_fuzzer_stats. destruct file as [content|]; [|discriminate].
destruct (parse_content content) as [m|e] eqn:Hp; [|discriminate].
intros [= <-]. unfold parse_content in Hp.
repeat match type of Hp with
       | (mbind _ ?c) = Ok _ =>
           let E := fresh "E" in
           destruct c eqn:E; cbn [mbind res_bind] in Hp; [|discriminate Hp]
       end.
injection Hp as <-.
cbn [coverage bitmap_cvg paths_found paths_total levels last_hang
     total_execs unique_crashes unique_hangs pending_favs pending_total
     cycles_done last_crash last_path FuzzingMetrics_init].
repeat split.
repeat constructor; eapply count_field; eassumption.
Qed.

End ParsedSnapshot.

Lemma parsed_snapshot_shape_witness :
  is_count (F:=float) (unique_crashes (default FuzzingMetrics_init
                           (parse_fuzzer_stats (Some sample_stats)))).
Proof.
destruct (parse_fuzzer_stats (F:=float) (Some sample_stats))
  as [metrics|] eqn:Hp.
- destruct (parsed_snapshot_shape (Some sample_stats) metrics Hp)
    as (_ & _ & _ & _ & Hcounts).
  cbn [default]. 
  exact (proj1 (Forall_forall _ _) Hcounts (unique_crashes metrics)
           ltac:(rewrite !elem_of_cons; tauto)).
- vm_compute in Hp. discriminate Hp.
Defined.

(** ** The telemetry history over a run of polls *)

Section Polls.

Context {F : Type} `{PyFloat F}.

Lemma tail_length {A : Type} (l : list A) :
  length (tail l) = Nat.pred (length l).
Proof. now destruct l. Qed.

Lemma update_size (self : FeedbackAnalyzer F) (file : option string)
    (now : F) :
  history_size (snd (update self file now)) = history_size self.
Proof. unfold update. now destruct (get_current_metrics file). Qed.

Lemma update_length (self : FeedbackAnalyzer F) (file : option string)
    (now : F) :
  (length (metrics_history (snd (update self file now)))
   <= S (length (metrics_history self)))%nat.
Proof.
unfold update.
destruct (get_current_metrics file) as [m|]; cbn [snd metrics_history]; [|lia].
destruct (_ <? _); rewrite ?tail_length, length_app; cbn; lia.
Qed.

Lemma update_bounded (self : FeedbackAnalyzer F) (file : option string)
    (now : F) :
  0 <= history_size self →
  Z.of_nat (length (metrics_history self)) <= history_size self →
  Z.of_nat (length (metrics_history (snd (update self file now))))
  <= history_size self.
Proof.
intros H0 Hb. unfold update.
destruct (get_current_metrics file) as [m|]; cbn [snd metrics_history];
  [|exact Hb].
destruct (Z.ltb_spec (history_size self)
            (Z.of_nat (length (metrics_history self ++ [m])))) as [Hlt|Hge].
- rewrite tail_length. rewrite length_app in *. cbn in *. lia.
- exact Hge.
Qed.

Lemma update_newest (self : FeedbackAnalyzer F) (file : option string)
    (now : F) (metrics : FuzzingMetrics F) :
  parse_fuzzer_stats file = Some metrics →
  1 <= history_size self →
  last (metrics_history (snd (update self file now))) = Some metrics.
Proof.
intros Hp H1. unfold update, get_current_metrics. rewrite Hp.
cbn [snd metrics_history].
destruct (Z.ltb_spec (history_size self)
            (Z.of_nat (length (metrics_history self ++ [metrics]))))
  as [Hlt|Hge]; [|apply last_snoc].
destruct (metrics_history self) as [|x l]; cbn in *; [lia|].
apply last_snoc.
Qed.

Lemma polls_snoc (self : FeedbackAnalyzer F)
    (readings : list (option string * F)) (reading : option string * F) :
  polls self (readings ++ [reading])
  = snd (update (polls self readings) (fst reading) (snd reading)).
Proof. unfold polls. now rewrite foldl_snoc. Qed.

Lemma polls_size (self : FeedbackAnalyzer F)
    (readings : list (option string * F)) :
  history_size (polls self readings) = history_size self.
Proof.
induction readings as [|r readings IH] using rev_ind; [reflexivity|].
now rewrite polls_snoc, update_size.
Qed.

Lemma polls_length (self : FeedbackAnalyzer F)
    (readings : list (option string * F)) :
  (length (metrics_history (polls self readings))
   <= length (metrics_history self) + length readings)%nat.
Proof.
induction readings as [|r readings IH] using rev_ind; [cbn; lia|].
rewrite polls_snoc, length_app. cbn.
pose proof (update_length (polls self readings) (fst r) (snd r)). lia.
Qed.

(** X1: an analyzer whose history is within [history_size] keeps it
    there over any run of polls, successful or not, and a successful poll
    leaves its snapshot as the newest entry. *)
Theorem history_stays_within_its_size (self : FeedbackAnalyzer F)
    (readings : list (option string * F)) :
  0 <= history_size self →
  Z.of_nat (length (metrics_history self)) <= history_size self →
  history_size (polls self readings) = history_size self
  ∧ Z.of_nat (length (metrics_history (polls self readings)))
    <= history_size self
  ∧ ∀ file now metrics,
      parse_fuzzer_stats file = Some metrics →
      1 <= history_size self →
      last (metrics_history (polls self (readings ++ [(file, now)])))
      = Some metrics.
Proof.
intros H0 Hb. split; [apply polls_size|]. split.
- induction readings as [|r readings IH] using rev_ind; [exact Hb|].
  rewrite polls_snoc. rewrite <- (polls_size self readings) in *.
  now apply update_bounded.
- intros file now metrics Hp H1. rewrite polls_snoc. cbn [fst snd].
  apply update_newest; [exact Hp|now rewrite polls_size].
Qed.

Lemma polls_baseline (self : FeedbackAnalyzer F)
    (readings : list (option string * F)) :
  baseline_metrics (polls self readings)
  = match baseline_metrics self with
    | Some baseline => Some baseline
    | None =>
        head (omap (fun reading => parse_fuzzer_stats (fst reading))
                readings)
    end.
Proof.
revert self. induction readings as [|r readings IH]; intros self.
- cbn. now destruct (baseline_metrics self).
- change (polls self (r :: readings))
    with (polls (snd (update self (fst r) (snd r))) readings).
  rewrite IH. unfold update, get_current_metrics.
  change (omap ?f (r :: readings))
    with (match f r with
          | Some m => m :: omap f readings
          | None => omap f readings
          end).
  cbn beta.
  destruct (parse_fuzzer_stats (fst r)) as [m|]; cbn [snd baseline_metrics];
    now destruct (baseline_metrics self).
Qed.

Lemma polls_window (self : FeedbackAnalyzer F)
    (readings : list (option string * F)) :
  metrics_history self = [] →
  metrics_history (polls self readings)
  = drop (length (omap (fun reading => parse_fuzzer_stats (fst reading))
                    readings)
          - Z.to_nat (history_size self))
      (omap (fun reading => parse_fuzzer_stats (fst reading)) readings).
Proof.
intros Hempty.
induction readings as [|r readings IH] using rev_ind; [exact Hempty|].
rewrite polls_snoc, omap_app. unfold update, get_current_metrics.
rewrite polls_size, IH.
set (parsed := omap _ readings).
cbn [omap list_omap].
destruct (parse_fuzzer_stats (fst r)) as [m|]; cbn [snd metrics_history];
  [|now rewrite app_nil_r].
rewrite !length_app, length_drop. cbn [length].
destruct (Z.ltb_spec (history_size self)
            (Z.of_nat (length parsed
                       - (length parsed - Z.to_nat (history_size self))
                       + 1))) as [Hlt|Hge].
- change (tail ?l) with (drop 1 l).
  rewrite <- drop_app_le by lia. rewrite drop_drop. f_equal. lia.
- replace (length parsed - Z.to_nat (history_size self))%nat with 0%nat
    by lia.
  replace (length parsed + 1 - Z.to_nat (history_size self))%nat with 0%nat
    by lia.
  reflexivity.
Qed.

(** X2: the baseline is set by the first poll that succeeds and is never
    replaced: after any run of polls it is the baseline the analyzer had,
    or else the first snapshot that could be parsed. *)
Theorem baseline_is_the_first_snapshot (self : FeedbackAnalyzer F)
    (readings : list (option string * F)) :
  baseline_metrics (polls self readings)
  = match baseline_metrics self with
    | Some baseline => Some baseline
    | None =>
        head (omap (fun reading => parse_fuzzer_stats (fst reading))
                readings)
    end.
Proof. exact (polls_baseline self readings). Qed.

(** X3: an episode cannot end before the history is full: while the
    snapshots held and the polls made are together fewer than
    [history_size], [is_done] is false. *)
Theorem episode_needs_a_full_history (self : FeedbackAnalyzer F)
    (readings : list (option string * F)) :
  Z.of_nat (length (metrics_history self) + length readings)
  < history_size self →
  is_done (polls self readings) = false.
Proof.
intros Hlt. unfold is_done.
destruct (rev (metrics_history (polls self readings))); [reflexivity|].
rewrite polls_size.
pose proof (polls_length self readings) as Hl.
destruct (Z.leb_spec (history_size self)
            (Z.of_nat (length (metrics_history (polls self readings)))));
  [lia|reflexivity].
Qed.

(** X16: polled from an empty history, the history is the window of the
    latest [history_size] snapshots that could be parsed, oldest first;
    polls that fail leave no trace in it. *)
Theorem history_is_the_latest_snapshots (self : FeedbackAnalyzer F)
    (readings : list (option string * F)) :
  metrics_history self = [] →
  metrics_history (polls self readings)
  = drop (length (omap (fun reading => parse_fuzzer_stats (fst reading))
                    readings)
          - Z.to_nat (history_size self))
      (omap (fun reading => parse_fuzzer_stats (fst reading)) readings).
Proof. exact (polls_window self readings). Qed.

(** X17: the improvement that [get_summary] reports is measured from the
    first snapshot ever parsed, also when that snapshot has left the
    history: after a run of polls on an analyzer that starts with an empty
    history and no baseline, and whose [history_size] is at least 1, the
    summary holds the newest snapshot, the number of snapshots kept and
    the differences between the newest and the first.  With no snapshot
    parsed, or with a [history_size] below 1 (the history then stays
    empty), the summary is empty. *)
Theorem summary_measures_from_the_first_snapshot (self : FeedbackAnalyzer F)
    (readings : list (option string * F)) :
  metrics_history self = [] → baseline_metrics self = None →
  match omap (fun reading => parse_fuzzer_stats (fst reading)) readings with
  | [] => get_summary (polls self readings) = Ok None
  | first :: later =>
      if history_size self <? 1
      then get_summary (polls self readings) = Ok None
      else
        let current := default first (last later) in
        get_summary (polls self readings)
        = (d_coverage ← py_sub (coverage current) (coverage first);
           d_crashes ←
             py_sub (unique_crashes current) (unique_crashes first);
           d_paths ← py_sub (paths_total current) (paths_total first);
           Ok (Some {|
                 current_metrics := to_dict current;
                 history_length :=
                   Z.min (Z.of_nat (S (length later))) (history_size self);
                 baseline_set := true;
                 improvement := Some (d_coverage, d_crashes, d_paths)
               |}))
  end.
Proof.
intros Hempty Hbase. unfold get_summary.
rewrite polls_baseline, Hbase, polls_window by exact Hempty.
destruct (omap _ readings) as [|first later] eqn:Hparsed;
  [reflexivity|].
destruct (Z.ltb_spec (history_size self) 1) as [Hsmall|Hsize].
{ replace (Z.to_nat (history_size self)) with 0%nat by lia.
  rewrite Nat.sub_0_r, drop_all. reflexivity. }
cbn zeta.
destruct (exists_last (l:=first :: later) ltac:(discriminate))
  as (earlier & current & Hsplit).
assert (Hcur : default first (last later) = current).
{ assert (Hl : last (first :: later) = Some current)
    by (rewrite Hsplit; apply last_snoc).
  rewrite last_cons in Hl. destruct (last later); cbn; congruence. }
assert (Hlen : S (length later) = (length earlier + 1)%nat).
{ change (S (length later)) with (length (first :: later)).
  now rewrite Hsplit, length_app. }
rewrite Hcur. change (length (first :: later)) with (S (length later)).
rewrite Hlen, Hsplit.
rewrite drop_app_le by lia. rewrite rev_app_distr. cbn [rev app head].
rewrite !length_app, length_drop. cbn [length].
replace (Z.of_nat (length earlier
                   - (length earlier + 1 - Z.to_nat (history_size self))
                   + 1))
  with (Z.min (Z.of_nat (length earlier + 1)) (history_size self)) by lia.
replace (head (earlier ++ [current])) with (Some first)
  by (now rewrite <- Hsplit).
destruct (py_sub (coverage current) (coverage first));
  cbn [mbind res_bind]; [|reflexivity].
destruct (py_sub (unique_crashes current) (unique_crashes first));
  cbn [mbind res_bind]; [|reflexivity].
destruct (py_sub (paths_total current) (paths_total first));
  reflexivity.
Qed.

End Polls.

Lemma history_stays_within_its_size_witness :
  ∃ metrics,
    last (metrics_history
            (polls (fresh_analyzer 1793000000%float)
               ([(None, 1793000060%float)]
                ++ [(Some sample_stats, 1793000120%float)])))
    = Some metrics
    ∧ coverage metrics = PFloat 0x1.6d5c28f5c28f6p+5%float.
Proof.
destruct (history_stays_within_its_size (fresh_analyzer 1793000000%float)
            [(None, 1793000060%float)]) as (_ & _ & Hlast);
  [cbn; lia|cbn; lia|].
eexists. split.
- apply Hlast; [vm_compute; reflexivity|cbn; lia].
- reflexivity.
Defined.

Lemma episode_needs_a_full_history_witness :
  is_done (polls (fresh_analyzer 1793000000%float)
             [(Some sample_stats, 1793000060%float);
              (Some sample_stats, 1793000120%float)]) = false.
Proof.
apply episode_needs_a_full_history. cbn. lia.
Defined.

Lemma history_is_the_latest_snapshots_witness :
  metrics_history
    (polls (fresh_analyzer 1793000000%float)
       [(Some sample_stats, 1793000060%float); (None, 1793000120%float)])
  = metrics_history (polled sample_stats).
Proof.
rewrite (history_is_the_latest_snapshots (fresh_analyzer 1793000000%float))
  by reflexivity.
vm_compute. reflexivity.
Defined.

Lemma summary_measures_from_the_first_snapshot_witness :
  ∃ summary,
    get_summary
      (polls (fresh_analyzer 1793000000%float)
         [(Some sample_stats, 1793000060%float);
          (Some sample_stats, 1793000120%float)])
    = Ok (Some summary)
    ∧ history_length summary = 2
    ∧ improvement summary = Some (PFloat 0%float, PInt 0, PInt 0).
Proof.
pose proof (summary_measures_from_the_first_snapshot
              (fresh_analyzer 1793000000%float)
              [(Some sample_stats, 1793000060%float);
               (Some sample_stats, 1793000120%float)]
              eq_refl eq_refl) as Hs.
eexists. split; [rewrite Hs; vm_compute; reflexivity|].
split; reflexivity.
Defined.

(** ** History files *)

Section HistoryFile.

Context {F : Type} `{PyFloat F}.

Lemma from_to_dict (m : FuzzingMetrics F) : from_dict (to_dict m) = saved_part m.
Proof. reflexivity. Qed.

Lemma reward_of_saved_part (self loaded : FeedbackAnalyzer F) :
  metrics_history loaded = map saved_part (metrics_history self) →
  compute_reward loaded = compute_reward self.
Proof.
intros Hh. unfold compute_reward. rewrite Hh, <- map_rev.
destruct (rev (metrics_history self)) as [|c [|p r]]; reflexivity.
Qed.

Lemma done_of_saved_part (self loaded : FeedbackAnalyzer F) :
  metrics_history loaded = map saved_part (metrics_history self) →
  history_size loaded = history_size self →
  is_done loaded = is_done self.
Proof.
intros Hh Hs. unfold is_done. rewrite Hh, Hs, <- map_rev, length_map.
destruct (rev (metrics_history self)) as [|c r]; [reflexivity|].
destruct (metrics_history self) as [|f l]; reflexivity.
Qed.

Lemma load_saved (self other : FeedbackAnalyzer F) (filepath : string)
    (files : gmap string (list (gmap string (pynum F)))) :
  load_history other filepath (save_history self filepath files)
  = Ok {|
      history_size := history_size other;
      metrics_history := map saved_part (metrics_history self);
      last_update_time := last_update_time other;
      baseline_metrics := baseline_metrics other
    |}.
Proof.
unfold load_history, save_history. rewrite lookup_insert_eq.
now rewrite map_map.
Qed.

Lemma saved_part_twice (m : FuzzingMetrics F) :
  saved_part (saved_part m) = saved_part m.
Proof. reflexivity. Qed.

(** X4: a history written by [save_history] and read back by
    [load_history] holds the same snapshots except that the six attributes
    [to_dict] leaves out are back at their defaults; reading it back
    changes neither the reward nor (into an analyzer of the same
    [history_size]) whether the episode is done, it leaves the baseline of
    the loading analyzer alone, and a second round trip changes nothing
    more.  Loading a file that is not there raises [FileNotFoundError]. *)
Theorem history_file_round_trip (self other : FeedbackAnalyzer F)
    (filepath : string) (files : gmap string (list (gmap string (pynum F)))) :
  (∃ loaded,
     load_history other filepath (save_history self filepath files)
     = Ok loaded
     ∧ metrics_history loaded = map saved_part (metrics_history self)
     ∧ baseline_metrics loaded = baseline_metrics other
     ∧ history_size loaded = history_size other
     ∧ compute_reward loaded = compute_reward self
     ∧ (history_size other = history_size self →
        is_done loaded = is_done self)
     ∧ load_history loaded filepath (save_history loaded filepath files)
       = Ok loaded)
  ∧ (files !! filepath = None →
     load_history other filepath files = Raise FileNotFoundError).
Proof.
split.
- eexists. split; [apply load_saved|].
  cbn [metrics_history baseline_metrics history_size last_update_time].
  split; [reflexivity|]. split; [reflexivity|]. split; [reflexivity|].
  split; [now apply reward_of_saved_part|].
  split; [intros Hs; now apply done_of_saved_part|].
  rewrite load_saved. cbn [metrics_history baseline_metrics history_size
      last_update_time]. rewrite map_map. reflexivity.
- intros Hn. unfold load_history. now rewrite Hn.
Qed.

End HistoryFile.

Lemma history_file_round_trip_witness :
  load_history (fresh_analyzer 1793000000%float) "h.json" ∅
  = Raise FileNotFoundError
  ∧ ∃ loaded,
      load_history (fresh_analyzer 1793000000%float) "h.json"
        (save_history (polled sample_stats) "h.json" ∅)
      = Ok loaded
      ∧ is_done loaded = is_done (polled sample_stats).
Proof.
destruct (history_file_round_trip (polled sample_stats)
            (fresh_analyzer 1793000000%float) "h.json" ∅)
  as [(loaded & Hload & _ & _ & _ & _ & Hdone & _) Hnone].
split; [apply Hnone; reflexivity|].
exists loaded. split; [exact Hload|]. apply Hdone. vm_compute. reflexivity.
Defined.

Ltac step_in H :=
  match type of H with
  | (mbind _ ?c) = Ok _ =>
      let E := fresh "E" in
      destruct c eqn:E; cbn [mbind res_bind] in H; [|discriminate H]
  end.

(** X5: what the round trip loses shows in the state vector: read back
    from its own history file, an analyzer gives the state vector it gave
    before with the last component, the pending items, at 0.0. *)
Theorem history_file_forgets_pending (self loaded : FeedbackAnalyzer float)
    (filepath : string) (files : gmap string (list (gmap string (pynum float)))) (v : list float) :
  load_history self filepath (save_history self filepath files) = Ok loaded →
  get_state_vector self = Ok v →
  get_state_vector loaded = Ok (take 9 v ++ [0%float]).
Proof.
rewrite load_saved. intros [= <-].
unfold get_state_vector. cbn [metrics_history last_update_time].
rewrite <- map_rev.
destruct (rev (metrics_history self)) as [|c earlier]; cbn [map].
- intros [= <-]. reflexivity.
- replace (match map saved_part earlier with
           | [] => Ok (of_decimal 0 1, of_decimal 0 1, of_decimal 0 1)
           | previous :: _ => rates (last_update_time self) (saved_part c) previous
           end)
    with (match earlier with
          | [] => Ok (of_decimal 0 1, of_decimal 0 1, of_decimal 0 1)
          | previous :: _ => rates (last_update_time self) c previous
          end) by (now destruct earlier).
  intros Hv. step_in Hv. destruct a as [[cr kr] pr].
  do 7 step_in Hv. injection Hv as <-.
  cbn [saved_part coverage unique_crashes execs_per_sec paths_total
       stability cycles_done pending_favs].
  rewrite E0, E1, E2, E3, E4, E5. cbn [mbind res_bind].
  reflexivity.
Qed.

Lemma history_file_forgets_pending_witness :
  ∃ v : list float,
    get_state_vector (polled sample_stats) = Ok v
    ∧ v !! 9%nat = Some (10 / 100)%float
    ∧ get_state_vector
        {| history_size := 10;
           metrics_history :=
             map saved_part (metrics_history (polled sample_stats));
           last_update_time := last_update_time (polled sample_stats);
           baseline_metrics := baseline_metrics (polled sample_stats) |}
      = Ok (take 9 v ++ [0%float]).
Proof.
eexists. split; [vm_compute; reflexivity|]. split; [reflexivity|].
apply (history_file_forgets_pending (polled sample_stats) _ "h.json" ∅);
  [apply load_saved|vm_compute; reflexivity].
Defined.

(** ** The experience buffer *)

Section Buffer.

Context {F : Type} `{PyFloat F} `{Torch F}.

Lemma record_transition_fields (self : PPOAgent) (t : Transition) :
  states (record_transition self t) = states self ++ [tr_state t]
  ∧ rewards (record_transition self t) = rewards self ++ [tr_reward t]
  ∧ dones (record_transition self t) = dones self ++ [tr_done t]
  ∧ network (record_transition self t) = network self
  ∧ optimizer (record_transition self t) = optimizer self
  ∧ length (actions (record_transition self t)) = S (length (actions self))
  ∧ length (log_probs (record_transition self t))
    = S (length (log_probs self))
  ∧ length (values (record_transition self t)) = S (length (values self)).
Proof.
unfold record_transition, select_action.
destruct (get_action (network self) (FloatTensor (tr_state t))
            (tr_deterministic t) (tr_rng t)) as [[a l] v].
cbn. rewrite !length_app. cbn. repeat split; lia.
Qed.

Lemma record_all_snoc (self : PPOAgent) (ts : list Transition)
    (t : Transition) :
  record_all self (ts ++ [t]) = record_transition (record_all self ts) t.
Proof. unfold record_all. now rewrite foldl_snoc. Qed.

Lemma record_all_fields (self : PPOAgent) (ts : list Transition) (n : nat) :
  buffer_holds self n →
  buffer_holds (record_all self ts) (n + length ts)
  ∧ states (record_all self ts) = states self ++ map tr_state ts
  ∧ rewards (record_all self ts) = rewards self ++ map tr_reward ts
  ∧ dones (record_all self ts) = dones self ++ map tr_done ts
  ∧ network (record_all self ts) = network self
  ∧ optimizer (record_all self ts) = optimizer self.
Proof.
intros Hn. induction ts as [|t ts IH] using rev_ind.
- unfold record_all. cbn [foldl map length].
  rewrite Nat.add_0_r, !app_nil_r. split; [exact Hn|]. now repeat split.
- destruct IH as ((Hs & Ha & Hl & Hr & Hv & Hd) & Es & Er & Ed & En & Eo).
  rewrite record_all_snoc.
  destruct (record_transition_fields (record_all self ts) t)
    as (Fs & Fr & Fd & Fn & Fo & Fa & Fl & Fv).
  rewrite !map_app, !app_assoc, length_app. cbn [map length].
  split; [|now rewrite Fs, Fr, Fd, Fn, Fo, Es, Er, Ed, En, Eo].
  unfold buffer_holds.
  rewrite Fs, Fr, Fd, Fa, Fl, Fv, !length_app. cbn [length].
  repeat split; lia.
Qed.

(** X6: [select_action] and [store_transition] keep the buffer in step.
    From a buffer whose six lists hold [n] entries each, any run of
    transitions leaves them with one more entry per transition, the
    states, rewards and flags in the order given, and the model untouched;
    and [compute_gae] then returns one advantage and one return for every
    transition held. *)
Theorem buffer_stays_in_step (self : PPOAgent) (ts : list Transition)
    (n : nat) (next_value : F) :
  buffer_holds self n →
  buffer_holds (record_all self ts) (n + length ts)
  ∧ states (record_all self ts) = states self ++ map tr_state ts
  ∧ rewards (record_all self ts) = rewards self ++ map tr_reward ts
  ∧ dones (record_all self ts) = dones self ++ map tr_done ts
  ∧ network (record_all self ts) = network self
  ∧ ∃ advantages returns,
      compute_gae (record_all self ts) next_value = Ok (advantages, returns)
      ∧ length advantages = (n + length ts)%nat
      ∧ length returns = (n + length ts)%nat.
Proof.
intros Hn.
destruct (record_all_fields self ts n Hn)
  as (Hb & Es & Er & Ed & En & _).
do 4 (split; [assumption|]). split; [assumption|].
destruct Hb as (_ & _ & _ & Hr & Hv & Hd).
eexists _, _. split.
- apply compute_gae_formula; congruence.
- rewrite length_zip_with, gae_formula_length by congruence.
  split; lia.
Qed.

Lemma at_index_none {A : Type} (a : list A) (t : nat) :
  (length a <= t)%nat → at_index a t = Raise IndexError.
Proof. intros Hl. unfold at_index. now rewrite lookup_ge_None_2. Qed.

Lemma gae_loop_runs (self : PPOAgent) (nv : F) (k : nat)
    (acc : list F * F) :
  (k <= length (rewards self))%nat →
  (length (rewards self) <= length (dones self))%nat →
  (length (rewards self) <= S (length (values self)))%nat →
  ∃ acc', gae_loop self nv (values self ++ [nv]) k acc = Ok acc'
          ∧ length (fst acc') = length (fst acc).
Proof.
intros Hk Hd Hv. revert acc. induction k as [|k IH]; intros [adv last].
- eexists. split; reflexivity.
- cbn [gae_loop]. unfold gae_step.
  destruct (lookup_lt_is_Some_2 (dones self) k ltac:(lia)) as [d Hdk].
  destruct (lookup_lt_is_Some_2 (rewards self) k ltac:(lia)) as [r Hrk].
  destruct (lookup_lt_is_Some_2 (values self ++ [nv]) k
              ltac:(rewrite length_app; cbn; lia)) as [v Hvk].
  rewrite (at_index_some _ _ _ Hdk). cbn [mbind res_bind].
  assert (Hnext : ∃ x,
            (if (k =? length (rewards self) - 1)%nat then Ok nv
             else at_index (values self ++ [nv]) (k + 1)) = Ok x).
  { destruct (Nat.eqb_spec k (length (rewards self) - 1)); [now eexists|].
    destruct (lookup_lt_is_Some_2 (values self ++ [nv]) (k + 1)
                ltac:(rewrite length_app; cbn; lia)) as [x Hx].
    exists x. now apply at_index_some. }
  destruct Hnext as [x ->]. cbn [mbind res_bind].
  rewrite (at_index_some _ _ _ Hrk). cbn [mbind res_bind].
  rewrite (at_index_some _ _ _ Hvk). cbn [mbind res_bind].
  match goal with
  | |- ∃ acc', gae_loop _ _ _ _ ?a = _ ∧ _ =>
      destruct (IH ltac:(lia) a) as (acc' & Hacc & Hl)
  end.
  exists acc'. split; [exact Hacc|].
  rewrite Hl. cbn [fst]. apply length_insert.
Qed.

(** X7: [compute_gae] on a buffer that is out of step.  With fewer flags
    than rewards, or with two values or more missing, the loop indexes
    past the end: [IndexError].  With the flags in step and the values
    not, the loop runs, and adding the values to the advantages fails in
    numpy: [ValueError], unless one of the two arrays has exactly one
    entry and is stretched. *)
Theorem compute_gae_out_of_step (self : PPOAgent) (next_value : F) :
  ((length (dones self) < length (rewards self))%nat →
   compute_gae self next_value = Raise IndexError)
  ∧ ((length (values self) + 2 <= length (rewards self))%nat →
     (length (rewards self) <= length (dones self))%nat →
     compute_gae self next_value = Raise IndexError)
  ∧ ((length (rewards self) <= length (dones self))%nat →
     (length (rewards self) <= S (length (values self)))%nat →
     length (values self) ≠ length (rewards self) →
     (2 <= length (rewards self))%nat → (2 <= length (values self))%nat →
     compute_gae self next_value = Raise ValueError).
Proof.
split; [|split].
- intros Hlt. unfold compute_gae.
  destruct (length (rewards self)) as [|k] eqn:En; [lia|].
  cbn [gae_loop]. unfold gae_step at 1.
  rewrite (at_index_none (dones self) k) by lia. reflexivity.
- intros Hlt Hd. unfold compute_gae.
  destruct (length (rewards self)) as [|k] eqn:En; [lia|].
  cbn [gae_loop]. unfold gae_step at 1.
  destruct (lookup_lt_is_Some_2 (dones self) k ltac:(lia)) as [d Hdk].
  replace (length (rewards self)) with (S k).
  rewrite (at_index_some _ _ _ Hdk). cbn [mbind res_bind].
  replace (S k - 1)%nat with k by lia. rewrite Nat.eqb_refl.
  cbn [mbind res_bind].
  destruct (lookup_lt_is_Some_2 (rewards self) k ltac:(lia)) as [r Hrk].
  rewrite (at_index_some _ _ _ Hrk). cbn [mbind res_bind].
  rewrite (at_index_none (values self ++ [next_value]) k)
    by (rewrite length_app; cbn; lia).
  reflexivity.
- intros Hd Hv Hne Hr2 Hv2. unfold compute_gae.
  destruct (gae_loop_runs self next_value (length (rewards self))
              (zeros (length (rewards self)), of_decimal 0 0)
              (Nat.le_refl _) Hd Hv) as (acc' & -> & Hl).
  cbn [mbind res_bind]. cbn [fst] in Hl.
  unfold zeros in Hl. rewrite length_replicate in Hl.
  unfold np_add. rewrite Hl.
  destruct (Nat.eqb_spec (length (rewards self)) (length (values self)));
    [congruence|].
  destruct (fst acc') as [|a [|a' l]]; cbn in Hl; try lia.
  destruct (values self) as [|b [|b' l']]; cbn in Hv2; try lia.
  reflexivity.
Qed.

End Buffer.

Lemma buffer_stays_in_step_witness :
  @buffer_holds float Toy.torch
    (@record_all float Toy.torch Toy.agent
       [{| tr_state := []; tr_deterministic := false;
           tr_rng := tt : @Rng float Toy.torch;
           tr_reward := 2%float; tr_done := false |}]) 2.
Proof.
apply (@buffer_stays_in_step float binary64 Toy.torch Toy.agent
         [{| tr_state := []; tr_deterministic := false;
             tr_rng := tt : @Rng float Toy.torch;
             tr_reward := 2%float; tr_done := false |}] 1 0%float).
repeat split.
Defined.

Lemma compute_gae_out_of_step_witness :
  @compute_gae float binary64 Toy.torch
    (with_buffer Toy.agent [] [] [] [1%float] [0.5%float] []) 0%float
  = Raise IndexError
  ∧ @compute_gae float binary64 Toy.torch
      (with_buffer Toy.agent [] [] [] [1%float; 1%float] [] [true; true])
      0%float
    = Raise IndexError
  ∧ @compute_gae float binary64 Toy.torch
      (with_buffer Toy.agent [] [] [] [1%float; 1%float; 1%float]
         [0.5%float; 0.5%float] [false; false; true]) 0%float
    = Raise ValueError.
Proof.
split; [|split].
- apply (proj1 (@compute_gae_out_of_step float binary64 Toy.torch _ _)).
  cbn. lia.
- apply (proj1 (proj2 (@compute_gae_out_of_step float binary64 Toy.torch
                         _ _))); cbn; lia.
- apply (proj2 (proj2 (@compute_gae_out_of_step float binary64 Toy.torch
                         _ _))); cbn; lia.
Defined.

(** ** The minibatches of an epoch *)

Lemma starts_from_concat (indices : list nat) (n step fuel start : nat)
    (batch_size : Z) :
  step = Z.to_nat batch_size → (0 < step)%nat → length indices = n →
  (n <= start + fuel * step)%nat →
  concat (map (batch_of indices n batch_size)
            (starts_from fuel start n step))
  = drop start indices.
Proof.
intros Hs Hpos Hl. revert start. induction fuel as [|fuel IH]; intros start Hf.
- cbn. rewrite drop_ge by lia. reflexivity.
- cbn [starts_from]. destruct (Nat.ltb_spec start n) as [Hlt|Hge].
  + cbn [map concat]. rewrite IH by lia.
    unfold batch_of. rewrite <- Hs.
    destruct (Nat.le_gt_cases (start + step) n) as [Hle|Hgt].
    * rewrite Nat.min_l by lia.
      replace (start + step - start)%nat with step by lia.
      rewrite <- (drop_drop indices step start). apply take_drop.
    * rewrite Nat.min_r by lia.
      rewrite (drop_ge indices (start + step)) by lia.
      rewrite app_nil_r. apply take_ge. rewrite length_drop. lia.
  + cbn. rewrite drop_ge by lia. reflexivity.
Qed.

Lemma starts_from_bounds (n step fuel start : nat) :
  Forall (fun s => (s < n)%nat) (starts_from fuel start n step).
Proof.
revert start. induction fuel as [|fuel IH]; intros start;
  cbn [starts_from]; [constructor|].
destruct (Nat.ltb_spec start n); [|constructor].
constructor; [assumption|apply IH].
Qed.

Lemma ceil_step (m s : Z) :
  0 < s → 0 < m → (m + s - 1) / s = 1 + (Z.max (m - s) 0 + s - 1) / s.
Proof.
intros Hs Hm. destruct (Z_le_gt_dec s m) as [Hle|Hgt].
- rewrite Z.max_l by lia.
  replace (m + s - 1) with ((m - s + s - 1) + 1 * s) by ring.
  rewrite Z.div_add by lia. ring.
- rewrite Z.max_r by lia.
  rewrite (Z.div_small (0 + s - 1) s) by lia.
  symmetry. apply Z.div_unique with (m - 1); lia.
Qed.

Lemma starts_from_length (n step fuel start : nat) :
  (0 < step)%nat → (start <= n)%nat → (n <= start + fuel * step)%nat →
  Z.of_nat (length (starts_from fuel start n step))
  = batches (n - start) (Z.of_nat step).
Proof.
intros Hpos. revert start. induction fuel as [|fuel IH]; intros start Hs Hf.
- cbn. unfold batches. replace (n - start)%nat with 0%nat by lia.
  symmetry. apply Z.div_small. lia.
- cbn [starts_from]. destruct (Nat.ltb_spec start n) as [Hlt|Hge].
  + cbn [length]. rewrite Nat2Z.inj_succ.
    destruct (Nat.le_gt_cases (start + step) n) as [Hle|Hgt].
    * rewrite IH by lia. unfold batches.
      rewrite (ceil_step (Z.of_nat (n - start)) (Z.of_nat step)) by lia.
      rewrite Z.max_l by lia.
      replace (Z.of_nat (n - start) - Z.of_nat step)
        with (Z.of_nat (n - (start + step))) by lia.
      lia.
    * assert (E : starts_from fuel (start + step) n step = []).
      { destruct fuel; [reflexivity|]. cbn [starts_from].
        destruct (Nat.ltb_spec (start + step) n); [lia|reflexivity]. }
      rewrite E. cbn [length]. unfold batches.
      rewrite (ceil_step (Z.of_nat (n - start)) (Z.of_nat step)) by lia.
      rewrite Z.max_r by lia.
      rewrite (Z.div_small (0 + Z.of_nat step - 1)) by lia. lia.
  + cbn. unfold batches. replace (n - start)%nat with 0%nat by lia.
    symmetry. apply Z.div_small. lia.
Qed.

Lemma batch_starts_length (n : nat) (batch_size : Z) :
  0 < batch_size →
  ∃ starts,
    batch_starts n batch_size = Some starts
    ∧ starts = starts_from n 0 n (Z.to_nat batch_size)
    ∧ Z.of_nat (length starts) = batches n batch_size.
Proof.
intros Hb. unfold batch_starts.
destruct (Z.eqb_spec batch_size 0); [lia|].
destruct (Z.ltb_spec batch_size 0); [lia|].
eexists. split; [reflexivity|]. split; [reflexivity|].
rewrite (starts_from_length n (Z.to_nat batch_size) n 0) by nia.
rewrite Nat.sub_0_r, Z2Nat.id by lia. reflexivity.
Qed.

(** X8: the minibatches of an epoch split the shuffled indices: for a
    positive [batch_size] there are [ceil(n / batch_size)] of them, none is
    empty or longer than [batch_size], and one after the other they are the
    permutation again, so every stored transition is in exactly one. *)
Theorem minibatches_split_the_permutation (indices : list nat) (n : nat)
    (batch_size : Z) :
  0 < batch_size → length indices = n →
  ∃ starts,
    batch_starts n batch_size = Some starts
    ∧ concat (map (batch_of indices n batch_size) starts) = indices
    ∧ Z.of_nat (length starts) = batches n batch_size
    ∧ Forall (fun start =>
                (0 < length (batch_of indices n batch_size start))%nat
                ∧ Z.of_nat (length (batch_of indices n batch_size start))
                  <= batch_size) starts.
Proof.
intros Hb Hl.
destruct (batch_starts_length n batch_size Hb) as (starts & Hs & -> & Hn).
eexists. split; [exact Hs|].
assert (Hpos : (0 < Z.to_nat batch_size)%nat) by lia.
split; [|split; [exact Hn|]].
- rewrite (starts_from_concat indices n (Z.to_nat batch_size) n 0
             batch_size eq_refl Hpos Hl) by nia.
  apply drop_0.
- eapply Forall_impl; [apply starts_from_bounds|].
  intros s Hlt. cbn beta in Hlt. unfold batch_of.
  rewrite length_take, length_drop. lia.
Qed.

Lemma minibatches_split_the_permutation_witness :
  ∃ starts,
    batch_starts 5 2 = Some starts
    ∧ concat (map (batch_of [3; 0; 4; 1; 2]%nat 5 2) starts)
      = [3; 0; 4; 1; 2]%nat
    ∧ Z.of_nat (length starts) = 3.
Proof.
destruct (minibatches_split_the_permutation [3; 0; 4; 1; 2]%nat 5 2)
  as (starts & Hs & Hc & Hn & _); [lia|reflexivity|].
exists starts. now repeat split.
Defined.

(** ** The PPO update *)

Section UpdateBinary64.

Context `{Torch float} `{!Optimiser float}.

Lemma fits_zero : fits (PInt 0).
Proof. vm_compute. reflexivity. Qed.

Lemma py_add_float (a : pynum float) (y : float) :
  fits a → ∃ z, py_add a (PFloat y) = Ok (PFloat z).
Proof.
intros Ha. destruct (fits_to_float a Ha) as [x Hx].
destruct a as [z|x']; cbn [py_add]; rewrite ?Hx; cbn; eauto.
Qed.

Lemma batch_round_runs (self : PPOAgent) (advantages returns : list float)
    (indices : list nat) (n : nat) (batch_size : Z) (p : Progress)
    (start_idx : nat) :
  fits (total_policy_loss p) → fits (total_value_loss p) →
  fits (total_entropy p) →
  ∃ p',
    batch_round self advantages returns indices n batch_size (Ok p) start_idx
    = Ok p'
    ∧ fits (total_policy_loss p') ∧ fits (total_value_loss p')
    ∧ fits (total_entropy p')
    ∧ n_updates p' = n_updates p + 1.
Proof.
intros Hp Hv He. unfold batch_round. cbn [mbind res_bind].
destruct (minibatch_step _ _ _ _) as [trained [[pl vl] en]].
destruct (py_add_float _ pl Hp) as [tp ->].
destruct (py_add_float _ vl Hv) as [tv ->].
destruct (py_add_float _ en He) as [te ->].
cbn [mbind res_bind]. eexists. split; [reflexivity|]. now cbn.
Qed.

Lemma batch_rounds_run (self : PPOAgent) (advantages returns : list float)
    (indices : list nat) (n : nat) (batch_size : Z) (starts : list nat)
    (p : Progress) :
  fits (total_policy_loss p) → fits (total_value_loss p) →
  fits (total_entropy p) →
  ∃ p',
    foldl (batch_round self advantages returns indices n batch_size)
      (Ok p) starts = Ok p'
    ∧ fits (total_policy_loss p') ∧ fits (total_value_loss p')
    ∧ fits (total_entropy p')
    ∧ n_updates p' = n_updates p + Z.of_nat (length starts).
Proof.
revert p. induction starts as [|s starts IH]; intros p Hp Hv He.
- exists p. cbn. repeat split; try assumption. lia.
- cbn [foldl].
  destruct (batch_round_runs self advantages returns indices n batch_size
              p s Hp Hv He) as (p1 & -> & Hp1 & Hv1 & He1 & Hn1).
  destruct (IH p1 Hp1 Hv1 He1) as (p' & -> & Hp' & Hv' & He' & Hn').
  exists p'. repeat split; try assumption. cbn [length]. lia.
Qed.

Lemma epochs_run (self : PPOAgent) (advantages returns : list float)
    (rng : nat → Rng) (n : nat) (batch_size : Z) (epoch remaining : nat)
    (p : Progress) :
  0 < batch_size →
  fits (total_policy_loss p) → fits (total_value_loss p) →
  fits (total_entropy p) →
  ∃ p',
    epochs self advantages returns rng n batch_size epoch remaining (Ok p)
    = Ok p'
    ∧ fits (total_policy_loss p') ∧ fits (total_value_loss p')
    ∧ fits (total_entropy p')
    ∧ n_updates p'
      = n_updates p + Z.of_nat remaining * batches n batch_size.
Proof.
intros Hb. revert epoch p.
induction remaining as [|remaining IH]; intros epoch p Hp Hv He.
- exists p. cbn. repeat split; try assumption. lia.
- cbn [epochs].
  destruct (batch_starts_length n batch_size Hb) as (starts & -> & _ & Hn).
  destruct (batch_rounds_run self advantages returns
              (permutation (rng epoch) n) n batch_size starts p Hp Hv He)
    as (p1 & -> & Hp1 & Hv1 & He1 & Hn1).
  destruct (IH (S epoch) p1 Hp1 Hv1 He1) as (p' & -> & Hp' & Hv' & He' & Hn').
  exists p'. repeat split; try assumption. lia.
Qed.

Lemma average_runs (total : pynum float) (n : Z) :
  fits total → 0 < n → n < 2 ^ 1023 → ∃ x, average total n = Ok x.
Proof.
intros Ht H0 Hn. unfold average.
destruct (Z.eqb_spec n 0); [lia|].
destruct (fits_to_float total Ht) as [x ->].
destruct (int_to_float n) as [y ->]; [|cbn; eauto].
rewrite Z.abs_eq by lia. exact Hn.
Qed.

Lemma ppo_update_runs (self : PPOAgent) (n : nat)
    (n_epochs batch_size : Z) (rng : nat → Rng) :
  buffer_holds self n → (0 < n)%nat → 0 < n_epochs → 0 < batch_size →
  n_epochs * batches n batch_size < 2 ^ 1023 →
  ∃ (advantages returns : list float) (p : Progress)
    (stats : gmap string float),
    update_loops self advantages returns rng n_epochs batch_size = Ok p
    ∧ n_updates p = n_epochs * batches n batch_size
    ∧ ppo_update self n_epochs batch_size rng
      = (Ok stats,
         clear_buffer (with_model self (fst (model p)) (snd (model p))))
    ∧ dom stats = {["policy_loss"; "value_loss"; "entropy"; "mean_return";
                    "mean_advantage"]}.
Proof.
intros (Hs & _ & _ & Hr & Hv & Hd) Hn He Hb Hbound.
unfold ppo_update, update_loops.
destruct (states self) as [|first others] eqn:Es; [cbn in Hs; lia|].
rewrite compute_gae_formula by congruence.
match goal with
| |- context [epochs self ?a ?r rng ?k batch_size 0 ?e (Ok ?start)] =>
    destruct (epochs_run self a r rng k batch_size 0 e start Hb fits_zero
                fits_zero fits_zero)
      as (p & Hp & Fp & Fv & Fe & Np);
    exists a, r, p
end.
cbn [n_updates] in Np. rewrite Z.add_0_l, Z2Nat.id in Np by lia.
rewrite <- Es in *. rewrite Hs in *.
assert (Hpos : 0 < n_updates p).
{ rewrite Np. apply Z.mul_pos_pos; [lia|].
  unfold batches. apply Z.div_str_pos. lia. }
rewrite Hp.
destruct (average_runs _ (n_updates p) Fp Hpos ltac:(now rewrite Np))
  as [pl ->].
destruct (average_runs _ (n_updates p) Fv Hpos ltac:(now rewrite Np))
  as [vl ->].
destruct (average_runs _ (n_updates p) Fe Hpos ltac:(now rewrite Np))
  as [en ->].
cbn [mbind res_bind]. eexists.
split; [reflexivity|]. split; [exact Np|]. split; [reflexivity|].
rewrite !dom_insert_L, dom_empty_L. set_solver.
Qed.

(** X9: on a buffer in step that is not empty, with a positive number of
    epochs and a positive batch size, [update] does not raise: it clears
    the buffer, returns the five statistics, and leaves the model that
    [n_epochs * ceil(n / batch_size)] minibatch steps produce, each epoch
    taking the minibatches of a fresh permutation. *)
Theorem update_trains_a_buffer_in_step (self : PPOAgent) (n : nat)
    (n_epochs batch_size : Z) (rng : nat → Rng) :
  buffer_holds self n → (0 < n)%nat → 0 < n_epochs → 0 < batch_size →
  n_epochs * batches n batch_size < 2 ^ 1023 →
  ∃ (advantages returns : list float) (p : Progress)
    (stats : gmap string float),
    update_loops self advantages returns rng n_epochs batch_size = Ok p
    ∧ n_updates p = n_epochs * batches n batch_size
    ∧ ppo_update self n_epochs batch_size rng
      = (Ok stats,
         clear_buffer (with_model self (fst (model p)) (snd (model p))))
    ∧ dom stats = {["policy_loss"; "value_loss"; "entropy"; "mean_return";
                    "mean_advantage"]}.
Proof. exact (ppo_update_runs self n n_epochs batch_size rng). Qed.

End UpdateBinary64.

Lemma update_trains_a_buffer_in_step_witness :
  ∃ stats trained,
    @ppo_update float binary64 Toy.torch Toy.optimiser Toy.agent 10 32
      (λ _, tt : @Rng float Toy.torch)
    = (Ok stats, trained)
    ∧ dom stats = {["policy_loss"; "value_loss"; "entropy"; "mean_return";
                    "mean_advantage"]}.
Proof.
destruct (@update_trains_a_buffer_in_step Toy.torch Toy.optimiser
            Toy.agent 1 10 32 (λ _, tt : @Rng float Toy.torch))
  as (advantages & returns & p & stats & _ & _ & Hupdate & Hdom);
  [repeat split|lia|lia|lia|vm_compute; reflexivity|].
eexists _, _. split; [exact Hupdate|exact Hdom].
Defined.

Section UpdateEdges.

Context {F : Type} `{PyFloat F} `{Torch F} `{!Optimiser F}.

Lemma epochs_without_batches (self : PPOAgent) (advantages returns : list F)
    (rng : nat → Rng) (n : nat) (batch_size : Z) (epoch remaining : nat)
    (p : Progress) :
  batch_size < 0 →
  epochs self advantages returns rng n batch_size epoch remaining (Ok p)
  = Ok p.
Proof.
intros Hb. revert epoch. induction remaining as [|remaining IH];
  intros epoch; [reflexivity|].
cbn [epochs]. unfold batch_starts.
destruct (Z.eqb_spec batch_size 0); [lia|].
destruct (Z.ltb_spec batch_size 0); [|lia].
cbn [foldl]. apply IH.
Qed.

(** X10: the arguments [update] does not guard.  On a buffer in step
    that is not empty: without an epoch to run, or with a negative batch
    size, no minibatch step is taken, the buffer is cleared all the same,
    and the average over zero steps raises [ZeroDivisionError], so the
    transitions are lost untrained; with a batch size of zero the very
    first [range] raises [ValueError] and the buffer stays. *)
Theorem update_without_a_step (self : PPOAgent) (n : nat)
    (n_epochs batch_size : Z) (rng : nat → Rng) :
  buffer_holds self n → (0 < n)%nat →
  (n_epochs <= 0 ∨ batch_size < 0 →
   ppo_update self n_epochs batch_size rng
   = (Raise ZeroDivisionError, clear_buffer self))
  ∧ (0 < n_epochs → batch_size = 0 →
     ppo_update self n_epochs batch_size rng = (Raise ValueError, self)).
Proof.
intros (Hs & _ & _ & Hr & Hv & Hd) Hn.
split.
- intros Hcase. unfold ppo_update.
  destruct (states self) as [|first others] eqn:Es; [cbn in Hs; lia|].
  rewrite compute_gae_formula by congruence.
  match goal with
  | |- context [epochs self ?a ?r rng ?k batch_size 0 ?e (Ok ?start)] =>
      assert (Hp : epochs self a r rng k batch_size 0 e (Ok start)
                   = Ok start)
  end.
  { destruct Hcase as [He|Hb].
    - replace (Z.to_nat n_epochs) with 0%nat by lia. reflexivity.
    - now apply epochs_without_batches. }
  rewrite Hp. reflexivity.
- intros He ->. unfold ppo_update.
  destruct (states self) as [|first others] eqn:Es; [cbn in Hs; lia|].
  rewrite compute_gae_formula by congruence.
  destruct (Z.to_nat n_epochs) as [|k] eqn:Ek; [lia|].
  reflexivity.
Qed.

End UpdateEdges.

Lemma update_without_a_step_witness :
  @ppo_update float binary64 Toy.torch Toy.optimiser Toy.agent 0 32
    (λ _, tt : @Rng float Toy.torch)
  = (Raise ZeroDivisionError, clear_buffer Toy.agent)
  ∧ @ppo_update float binary64 Toy.torch Toy.optimiser Toy.agent 10 0
      (λ _, tt : @Rng float Toy.torch)
    = (Raise ValueError, Toy.agent).
Proof.
split.
- apply (proj1 (@update_without_a_step float binary64 Toy.torch
                  Toy.optimiser Toy.agent 1 0 32 _
                  ltac:(repeat split) ltac:(lia))).
  left. lia.
- apply (proj2 (@update_without_a_step float binary64 Toy.torch
                  Toy.optimiser Toy.agent 1 10 0 _
                  ltac:(repeat split) ltac:(lia))); [lia|reflexivity].
Defined.

(** ** The advantages, in exact arithmetic *)

Section AdvantagesExact.

Context `{Torch Q}.

#[local] Open Scope Q_scope.

Lemma Forall2_Qeq_trans (a b c : list Q) :
  Forall2 Qeq a b → Forall2 Qeq b c → Forall2 Qeq a c.
Proof.
intros Hab. revert c. induction Hab as [|x y a b Hxy Hab IH]; intros c Hbc;
  inversion Hbc; subst; constructor.
- now rewrite Hxy.
- now apply IH.
Qed.

Lemma exact_one : Exact.of_decimal 10 1 == 1.
Proof. reflexivity. Qed.

Lemma exact_zero : Exact.of_decimal 0 1 == 0.
Proof. reflexivity. Qed.

Lemma exact_int_zero : Exact.of_decimal 0 0 == 0.
Proof. reflexivity. Qed.

Lemma exact_non_terminal (d : bool) :
  non_terminal (F:=Q) d == (if d then 0 else 1).
Proof. destruct d; reflexivity. Qed.

(** The head of the returns is the head of the advantages plus the head
    of the values, also when there is none left. *)
Lemma returns_head (A vs R : list Q) (nv : Q) :
  length A = length vs →
  Forall2 Qeq (zip_with Qplus A vs) R →
  hd nv R == hd nv vs + hd (Exact.of_decimal 0 0) A.
Proof.
intros Hl HR. destruct A as [|a A], vs as [|v vs]; try discriminate.
- inversion HR. cbn. rewrite exact_int_zero. ring.
- inversion HR as [|x y l l' Hxy]. subst. cbn. rewrite <- Hxy. ring.
Qed.

Lemma gae_lambda_returns (g l : Q) (rs vs : list Q) (ds : list bool)
    (nv : Q) :
  length vs = length rs → length ds = length rs →
  Forall2 Qeq (zip_with Qplus (gae_formula g l rs vs ds nv) vs)
    (lambda_returns g l rs vs ds nv).
Proof.
revert vs ds. induction rs as [|r rs IH]; intros [|v vs] [|d ds] Hv Hd;
  try discriminate; [constructor|].
cbn [gae_formula lambda_returns zip_with].
assert (Hv' : length vs = length rs) by (cbn in Hv; lia).
assert (Hd' : length ds = length rs) by (cbn in Hd; lia).
specialize (IH vs ds Hv' Hd').
constructor; [|exact IH].
assert (Hlen : length (gae_formula g l rs vs ds nv) = length vs)
  by (rewrite gae_formula_length; congruence).
pose proof (returns_head _ vs _ nv Hlen IH) as Hh.
cbn [fadd fsub fmul exact of_decimal].
rewrite Hh, exact_one, exact_non_terminal. ring.
Qed.

Lemma lambda_one_is_discounted (g l : Q) (rs vs : list Q) (ds : list bool)
    (nv : Q) :
  l == 1 → length vs = length rs → length ds = length rs →
  Forall2 Qeq (lambda_returns g l rs vs ds nv)
    (discounted_returns g rs ds nv).
Proof.
intros Hl. revert vs ds.
induction rs as [|r rs IH]; intros [|v vs] [|d ds] Hv Hd;
  try discriminate; [constructor|].
cbn [lambda_returns discounted_returns].
assert (Hv' : length vs = length rs) by (cbn in Hv; lia).
assert (Hd' : length ds = length rs) by (cbn in Hd; lia).
specialize (IH vs ds Hv' Hd').
constructor; [|exact IH].
assert (Hh : hd nv (lambda_returns g l rs vs ds nv)
             == hd nv (discounted_returns g rs ds nv)).
{ inversion IH as [|x y a b Hxy]; [reflexivity|exact Hxy]. }
cbn [fadd fsub fmul exact of_decimal].
rewrite Hh, Hl, exact_one. ring.
Qed.

(** X11: in exact arithmetic the returns of [compute_gae] are the
    TD(lambda) returns
    [R_t = r_t + gamma * (1 - done_t) * ((1 - lambda) * V(s_{t+1})
    + lambda * R_{t+1})], bootstrapped from the next value; with
    [gae_lambda] equal to 1 they are the discounted sums of the rewards
    that follow, cut at every terminal step. *)
Theorem gae_returns_are_lambda_returns (self : PPOAgent) (next_value : Q) :
  length (values self) = length (rewards self) →
  length (dones self) = length (rewards self) →
  ∃ advantages returns,
    compute_gae self next_value = Ok (advantages, returns)
    ∧ Forall2 Qeq returns
        (lambda_returns (gamma self) (gae_lambda self) (rewards self)
           (values self) (dones self) next_value)
    ∧ (gae_lambda self == 1 →
       Forall2 Qeq returns
         (discounted_returns (gamma self) (rewards self) (dones self)
            next_value)).
Proof.
intros Hv Hd. eexists _, _.
split; [now apply compute_gae_formula|].
pose proof (gae_lambda_returns (gamma self) (gae_lambda self)
              (rewards self) (values self) (dones self) next_value Hv Hd)
  as HR.
split; [exact HR|].
intros Hl.
pose proof (lambda_one_is_discounted (gamma self) (gae_lambda self)
              (rewards self) (values self) (dones self) next_value Hl Hv Hd)
  as HD.
exact (Forall2_Qeq_trans _ _ _ HR HD).
Qed.

Lemma cut_head (A A' : list Q) (k : nat) :
  Forall2 Qeq (take (S k) A) A' →
  hd (Exact.of_decimal 0 0) A == hd (Exact.of_decimal 0 0) A'.
Proof.
destruct A as [|a A]; cbn; intros HF; inversion HF; subst; cbn;
  [reflexivity|assumption].
Qed.

Lemma gae_formula_cut (g l : Q) (rs1 rs2 vs1 vs2 : list Q)
    (ds1 ds2 : list bool) (r v nv nv' : Q) :
  length vs1 = length rs1 → length ds1 = length rs1 →
  Forall2 Qeq
    (take (S (length rs1))
       (gae_formula g l (rs1 ++ r :: rs2) (vs1 ++ v :: vs2)
          (ds1 ++ true :: ds2) nv))
    (gae_formula g l (rs1 ++ [r]) (vs1 ++ [v]) (ds1 ++ [true]) nv').
Proof.
revert vs1 ds1. induction rs1 as [|r1 rs1 IH]; intros [|v1 vs1] [|d1 ds1]
  Hv Hd; try discriminate.
- cbn [app gae_formula length take]. rewrite take_0. constructor; [|constructor].
  cbn [fadd fsub fmul exact of_decimal hd].
  rewrite (exact_non_terminal true). ring.
- assert (Hv' : length vs1 = length rs1) by (cbn in Hv; lia).
  assert (Hd' : length ds1 = length rs1) by (cbn in Hd; lia).
  specialize (IH vs1 ds1 Hv' Hd').
  cbn [app gae_formula length]. rewrite firstn_cons.
  constructor; [|exact IH].
  pose proof (cut_head _ _ _ IH) as Hh.
  assert (Hn : hd nv (vs1 ++ v :: vs2) = hd nv' (vs1 ++ [v]))
    by (now destruct vs1).
  cbn [fadd fsub fmul exact of_decimal].
  rewrite Hh, Hn. reflexivity.
Qed.

(** X12: a terminal step cuts the future off.  In exact arithmetic the
    advantages up to and including a step whose [done] flag is set are
    those of the buffer that ends with this step: the rewards, values and
    flags stored after it, and the bootstrap value, do not enter them. *)
Theorem terminal_step_cuts_the_future (self : PPOAgent)
    (s : list (list Q)) (a : list Z) (lp rs1 rs2 vs1 vs2 : list Q)
    (ds1 ds2 : list bool) (r v next_value other_value : Q) :
  length vs1 = length rs1 → length ds1 = length rs1 →
  length vs2 = length rs2 → length ds2 = length rs2 →
  ∃ advantages returns cut cut_returns,
    compute_gae
      (with_buffer self s a lp (rs1 ++ r :: rs2) (vs1 ++ v :: vs2)
         (ds1 ++ true :: ds2)) next_value
    = Ok (advantages, returns)
    ∧ compute_gae
        (with_buffer self s a lp (rs1 ++ [r]) (vs1 ++ [v]) (ds1 ++ [true]))
        other_value
      = Ok (cut, cut_returns)
    ∧ Forall2 Qeq (take (S (length rs1)) advantages) cut
    ∧ Forall2 Qeq (drop (length rs1) cut) [r - v].
Proof.
intros Hv1 Hd1 Hv2 Hd2. eexists _, _, _, _.
split; [apply compute_gae_formula; cbn; rewrite !length_app; cbn; lia|].
split; [apply compute_gae_formula; cbn; rewrite !length_app; cbn; lia|].
cbn [with_buffer gamma gae_lambda rewards values dones].
split; [now apply gae_formula_cut|].
rewrite gae_formula_drop by (rewrite !length_app; cbn; lia).
rewrite !drop_app_length' by lia.
cbn [gae_formula hd]. constructor; [|constructor].
cbn [fadd fsub fmul exact of_decimal].
rewrite (exact_non_terminal true). ring.
Qed.

End AdvantagesExact.

Lemma gae_returns_are_lambda_returns_witness :
  ∃ advantages returns,
    @compute_gae Q exact ToyExact.torch ToyExact.agent 7%Q
    = Ok (advantages, returns)
    ∧ Forall2 Qeq returns [(1 + (99 # 100) * 2)%Q; 2%Q].
Proof.
destruct (@gae_returns_are_lambda_returns ToyExact.torch ToyExact.agent 7%Q
            eq_refl eq_refl)
  as (advantages & returns & Hgae & _ & Hsum).
exists advantages, returns. split; [exact Hgae|].
eapply Forall2_Qeq_trans; [apply Hsum; reflexivity|].
repeat constructor; vm_compute; reflexivity.
Defined.

Lemma terminal_step_cuts_the_future_witness :
  ∃ advantages returns cut cut_returns,
    @compute_gae Q exact ToyExact.torch
      (with_buffer ToyExact.agent [] [] [] ([1%Q] ++ 2%Q :: [3%Q])
         ([(1 # 2)%Q] ++ (1 # 4)%Q :: [5%Q]) ([false] ++ true :: [false]))
      7%Q
    = Ok (advantages, returns)
    ∧ @compute_gae Q exact ToyExact.torch
        (with_buffer ToyExact.agent [] [] [] ([1%Q] ++ [2%Q])
           ([(1 # 2)%Q] ++ [(1 # 4)%Q]) ([false] ++ [true])) 0%Q
      = Ok (cut, cut_returns)
    ∧ Forall2 Qeq (take 2 advantages) cut.
Proof.
destruct (@terminal_step_cuts_the_future ToyExact.torch ToyExact.agent
            [] [] [] [1%Q] [3%Q] [(1 # 2)%Q] [5%Q] [false] [false]
            2%Q (1 # 4)%Q 7%Q 0%Q eq_refl eq_refl eq_refl eq_refl)
  as (advantages & returns & cut & cut_returns & Hfull & Hcut & Hsame & _).
exists advantages, returns, cut, cut_returns.
split; [exact Hfull|]. split; [exact Hcut|exact Hsame].
Defined.

(** ** The statistics of the strategies *)

Section SelectorRun.

Context {F : Type} `{PyFloat F}.


Lemma init_counted : selections_counted (MutationStrategySelector_init (F:=F)).
Proof.
split; [reflexivity|]. intros s. exists StrategyStats_init.
split; [destruct s; reflexivity|reflexivity].
Qed.


Lemma counted_ok (self : MutationStrategySelector F) :
  selections_counted self → catalog_ok self.
Proof.
intros [Hn Hall]. split; [exact Hn|].
intros s. destruct (Hall s) as (e & -> & _). eauto.
Qed.

Lemma filter_snoc_eq (l : list MutationStrategy) (s x : MutationStrategy) :
  length (filter (fun y => y = s) (l ++ [x]))
  = (length (filter (fun y => y = s) l) + (if decide (x = s) then 1 else 0))%nat.
Proof.
rewrite filter_app, length_app. f_equal.
rewrite filter_cons, filter_nil. now destruct (decide (x = s)).
Qed.

Lemma select_counted (self self' : MutationStrategySelector F) (action : Z)
    (strategy : MutationStrategy) :
  selections_counted self →
  select_strategy self action = Ok (strategy, self') →
  selections_counted self'.
Proof.
intros [Hn Hall]. unfold select_strategy.
destruct (Strategy.lookup _) as [chosen|e]; cbn [mbind res_bind];
  [|discriminate].
unfold count_selection.
destruct (Hall chosen) as (entry & Hentry & Hcount). rewrite Hentry.
intros [= <- <-]. split; [exact Hn|].
intros s. cbn [strategy_stats strategy_history].
rewrite filter_snoc_eq.
destruct (decide (chosen = s)) as [->|Hne].
- rewrite lookup_insert_eq. eexists. split; [reflexivity|].
  cbn [times_selected]. rewrite Hcount. lia.
- rewrite lookup_insert_ne by exact Hne.
  destruct (Hall s) as (e & He & Hc). exists e. split; [exact He|].
  rewrite Hc. lia.
Qed.

Lemma update_stats_counted (self self' : MutationStrategySelector F)
    (coverage_gain crashes paths : pynum F) :
  selections_counted self →
  update_strategy_stats self coverage_gain crashes paths = Ok self' →
  selections_counted self'.
Proof.
intros [Hn Hall]. unfold update_strategy_stats.
destruct (current_strategy self) as [current|]; [|now intros [= <-]].
destruct (Hall current) as (entry & Hentry & Hcount). rewrite Hentry.
destruct (py_add (coverage_gains entry) coverage_gain) as [g|];
  cbn [mbind res_bind]; [|discriminate].
destruct (py_add (crashes_found entry) crashes) as [c|];
  cbn [mbind res_bind]; [|discriminate].
destruct (py_add (paths_found_by entry) paths) as [p|];
  cbn [mbind res_bind]; [|discriminate].
intros [= <-]. split; [exact Hn|].
intros s. cbn [strategy_stats strategy_history].
destruct (decide (current = s)) as [->|Hne].
- rewrite lookup_insert_eq. eexists. split; [reflexivity|exact Hcount].
- rewrite lookup_insert_ne by exact Hne. apply Hall.
Qed.


Lemma py_add_raises (a b : pynum F) (e : exn) :
  py_add a b = Raise e → e = OverflowError.
Proof.
destruct a as [x|x], b as [y|y]; cbn; try discriminate;
  repeat (destruct (of_int _); cbn; try discriminate); congruence.
Qed.

Lemma selector_call_raises (self : MutationStrategySelector F)
    (c : SelectorCall F) (e : exn) :
  selections_counted self → selector_call self c = Raise e →
  e = OverflowError.
Proof.
intros Hc. destruct c as [action|g k p|]; cbn [selector_call];
  [| |discriminate].
- destruct (select_strategy_value self action (counted_ok self Hc))
    as (s & self' & -> & _). discriminate.
- unfold update_strategy_stats.
  destruct (current_strategy self) as [current|]; [|discriminate].
  destruct (proj2 Hc current) as (entry & -> & _).
  destruct (py_add (coverage_gains entry) g) eqn:E1; cbn [mbind res_bind];
    [|intros [= <-]; exact (py_add_raises _ _ _ E1)].
  destruct (py_add (crashes_found entry) k) eqn:E2; cbn [mbind res_bind];
    [|intros [= <-]; exact (py_add_raises _ _ _ E2)].
  destruct (py_add (paths_found_by entry) p) eqn:E3; cbn [mbind res_bind];
    [discriminate|intros [= <-]; exact (py_add_raises _ _ _ E3)].
Qed.


End SelectorRun.


(** ** The order of the doubles *)

Module Order.

Import Rounding Nearest Monotone.

Lemma scaled_below (s : bool) (m : positive) (e : Z) :
  valid_binary (S754_finite s m e) = true →
  Zpos m * 2 ^ (e + 1074) < 2 ^ 2200.
Proof.
intros Hv. destruct (valid_exponent s m e Hv) as [Hc He].
unfold valid_binary, bounded in Hv. apply andb_true_iff in Hv.
destruct Hv as [_ Hmax]. apply Z.leb_le in Hmax.
unfold emax, prec in Hmax.
rewrite fexp_eq, digits_log2 in Hc.
pose proof (Z.log2_spec (Zpos m) ltac:(lia)) as [_ Hu].
assert (Hm : Zpos m < 2 ^ 53).
{ apply Z.lt_le_trans with (2 ^ Z.succ (Z.log2 (Zpos m))); [exact Hu|].
  apply Z.pow_le_mono_r; lia. }
apply Z.lt_le_trans with (2 ^ 53 * 2 ^ (e + 1074)).
- apply Z.mul_lt_mono_pos_r; [apply pow2_pos; lia|exact Hm].
- rewrite <- Z.pow_add_r by lia. apply Z.pow_le_mono_r; lia.
Qed.

Lemma rank_finite (s : bool) (m : positive) (e : Z) :
  valid_binary (S754_finite s m e) = true →
  - 2 ^ 2200 < rank (S754_finite s m e) < 2 ^ 2200
  ∧ (if s then rank (S754_finite s m e) < 0
     else 0 < rank (S754_finite s m e)).
Proof.
intros Hv. pose proof (scaled_below s m e Hv) as Hb.
destruct (valid_exponent s m e Hv) as [_ He].
pose proof (scaled_pos m (e + 1074) ltac:(lia)) as Hp.
cbn [rank scaled]. destruct s; cbn [cond_Zopp]; lia.
Qed.

(** [x < y] on doubles is the order of their ranks, and false when one
    of them is NaN. *)
Lemma ltb_rank (x y : spec_float) :
  valid_binary x = true → valid_binary y = true →
  x ≠ S754_nan → y ≠ S754_nan →
  SFltb x y = true ↔ rank x < rank y.
Proof.
intros Hx Hy Nx Ny. pose proof (pow2_pos 2200 ltac:(lia)) as HP.
destruct x as [sx|sx| |sx mx ex], y as [sy|sy| |sy my ey];
  try contradiction; unfold SFltb; cbn [SFcompare].
- cbn [rank scaled]. split; [discriminate|lia].
- destruct sy; cbn [rank scaled]; split; intros; try lia; try reflexivity;
    discriminate.
- destruct (rank_finite sy my ey Hy) as [Hb Hs].
  destruct sy; split; intros; try lia; try reflexivity; try discriminate;
    cbn [rank scaled] in *; lia.
- destruct sx; cbn [rank scaled]; split; intros; try lia; try reflexivity;
    discriminate.
- destruct sx, sy; cbn [rank]; split; intros; try lia; try reflexivity;
    discriminate.
- destruct (rank_finite sy my ey Hy) as [Hb Hs].
  destruct sx; cbn [rank] in *; split; intros; try lia; try reflexivity;
    try discriminate.
- destruct (rank_finite sx mx ex Hx) as [Hb Hs].
  destruct sx; split; intros; try lia; try reflexivity; try discriminate;
    cbn [rank scaled] in *; lia.
- destruct (rank_finite sx mx ex Hx) as [Hb Hs].
  destruct sy; cbn [rank] in *; split; intros; try lia; try reflexivity;
    try discriminate.
- destruct (rank_finite sx mx ex Hx) as [Hbx Hsx].
  destruct (rank_finite sy my ey Hy) as [Hby Hsy].
  pose proof (canonical_compare sx sy mx my ex ey 1074 ltac:(lia) Hx Hy)
    as Hc.
  cbn [rank scaled] in *.
  destruct sx, sy; cbn [cond_Zopp] in *;
    try (split; intros; try lia; try reflexivity; discriminate).
  + replace (match ex ?= ey with
             | Eq => CompOpp (Pos.compare_cont Eq mx my)
             | Lt => Gt
             | Gt => Lt
             end)
      with (CompOpp (Zpos mx * 2 ^ (ex + 1074) ?= Zpos my * 2 ^ (ey + 1074)))
      by (rewrite <- Hc; now destruct (ex ?= ey)).
    destruct (Z.compare_spec (Zpos mx * 2 ^ (ex + 1074))
                (Zpos my * 2 ^ (ey + 1074)));
      cbn [CompOpp]; split; intros; try reflexivity; try discriminate; lia.
  + rewrite Hc.
    destruct (Z.compare_spec (Zpos mx * 2 ^ (ex + 1074))
                (Zpos my * 2 ^ (ey + 1074)));
      split; intros; try reflexivity; try discriminate; lia.
Qed.

Lemma ltb_nan_l (y : spec_float) : SFltb S754_nan y = false.
Proof. reflexivity. Qed.

Lemma ltb_nan_r (x : spec_float) : SFltb x S754_nan = false.
Proof. now destruct x. Qed.

#[local] Open Scope float_scope.

Lemma ltb_irrefl (x : float) : (x <? x) = false.
Proof.
rewrite FloatAxioms.ltb_spec.
destruct (Prim2SF x) as [s|s| |s m e] eqn:E; [| |reflexivity|].
- reflexivity.
- now destruct s.
- apply not_true_is_false. intros Hlt.
  apply ltb_rank in Hlt; try (rewrite <- E; apply Prim2SF_valid);
    try discriminate.
  lia.
Qed.

(** If [a < b] and not [a < c], then not [b < c]. *)
Lemma ltb_chain (a b c : float) :
  (a <? b) = true → (a <? c) = false → (b <? c) = false.
Proof.
rewrite !FloatAxioms.ltb_spec. intros Hab Hac.
pose proof (Prim2SF_valid a) as Va. pose proof (Prim2SF_valid b) as Vb.
pose proof (Prim2SF_valid c) as Vc.
destruct (Prim2SF c) as [sc|sc| |sc mc ec] eqn:Ec;
  try apply ltb_nan_r.
all: assert (Na : Prim2SF a ≠ S754_nan)
       by (intros E; rewrite E in Hab; discriminate).
all: assert (Nb : Prim2SF b ≠ S754_nan)
       by (intros E; rewrite E, ltb_nan_r in Hab; discriminate).
all: apply (ltb_rank _ _ Va Vb Na Nb) in Hab.
all: apply not_true_is_false; intros Hbc.
all: apply (ltb_rank _ _ Vb Vc Nb ltac:(discriminate)) in Hbc.
all: apply not_true_iff_false in Hac; apply Hac.
all: apply (ltb_rank _ _ Va Vc Na ltac:(discriminate)); lia.
Qed.

End Order.

(** ** The best strategy *)

Lemma members_all (s : MutationStrategy) : s ∈ Strategy.members.
Proof.
unfold Strategy.members. rewrite !elem_of_cons. destruct s; tauto.
Qed.

Section BestStrategy.

#[local] Open Scope float_scope.

(** What the loop of [get_best_strategy] has established after the
    strategies of [seen]. *)
Lemma best_rounds (stats : gmap MutationStrategy (StrategyStats float))
    (todo seen : list MutationStrategy) (b : MutationStrategy) (bs : float)
    (r : MutationStrategy * float) :
  (∀ s, is_Some (stats !! s)) →
  ((b = HAVOC_MEDIUM ∧ bs = neg_infinity)
   ∨ (∃ entry, stats !! b = Some entry ∧ times_selected entry ≠ 0%Z
               ∧ strategy_score entry = Ok bs)) →
  (∀ s entry, s ∈ seen → stats !! s = Some entry →
              times_selected entry ≠ 0%Z →
              ∃ x, strategy_score entry = Ok x ∧ (bs <? x) = false) →
  foldl (best_round stats) (Ok (b, bs)) todo = Ok r →
  ((fst r = HAVOC_MEDIUM ∧ snd r = neg_infinity)
   ∨ (∃ entry, stats !! fst r = Some entry ∧ times_selected entry ≠ 0%Z
               ∧ strategy_score entry = Ok (snd r)))
  ∧ (∀ s entry, s ∈ seen ++ todo → stats !! s = Some entry →
                times_selected entry ≠ 0%Z →
                ∃ x, strategy_score entry = Ok x ∧ (snd r <? x) = false).
Proof.
intros Hall. revert seen b bs.
induction todo as [|s todo IH]; intros seen b bs Hb Hseen.
- intros [= <-]. rewrite app_nil_r. split; assumption.
- cbn [foldl]. unfold best_round at 2. cbn [mbind res_bind].
  destruct (Hall s) as [entry Hentry]. rewrite Hentry.
  replace (seen ++ s :: todo) with ((seen ++ [s]) ++ todo)
    by now rewrite <- app_assoc.
  destruct (Z.eqb_spec (times_selected entry) 0) as [Hzero|Hsel].
  + apply IH; [exact Hb|].
    intros s' e' Hin He' Hne. apply elem_of_app in Hin as [Hin|Hin].
    * now apply (Hseen s' e').
    * apply list_elem_of_singleton in Hin as ->. congruence.
  + destruct (strategy_score entry) as [x|e] eqn:Hx; cbn [mbind res_bind].
    2:{ intros Hf. exfalso. clear -Hf.
        induction todo as [|s' todo IH']; [discriminate|].
        cbn [foldl] in Hf. apply IH'. exact Hf. }
    cbn [snd fltb binary64]. destruct (bs <? x) eqn:Hlt.
    * apply IH; [right; eauto|].
      intros s' e' Hin He' Hne. apply elem_of_app in Hin as [Hin|Hin].
      -- destruct (Hseen s' e' Hin He' Hne) as (y & Hy & Hby).
         exists y. split; [exact Hy|]. exact (Order.ltb_chain _ _ _ Hlt Hby).
      -- apply list_elem_of_singleton in Hin as ->.
         assert (e' = entry) as -> by congruence.
         exists x. split; [exact Hx|apply Order.ltb_irrefl].
    * apply IH; [exact Hb|].
      intros s' e' Hin He' Hne. apply elem_of_app in Hin as [Hin|Hin].
      -- now apply (Hseen s' e').
      -- apply list_elem_of_singleton in Hin as ->.
         assert (e' = entry) as -> by congruence.
         exists x. split; [exact Hx|exact Hlt].
Qed.

Lemma best_rounds_idle (stats : gmap MutationStrategy (StrategyStats float))
    (todo : list MutationStrategy) (b : MutationStrategy) (bs : float) :
  (∀ s entry, stats !! s = Some entry → times_selected entry = 0%Z) →
  (∀ s, is_Some (stats !! s)) →
  foldl (best_round stats) (Ok (b, bs)) todo = Ok (b, bs).
Proof.
intros Hzero Hall. induction todo as [|s todo IH]; [reflexivity|].
cbn [foldl]. unfold best_round at 2. cbn [mbind res_bind].
destruct (Hall s) as [entry Hentry]. rewrite Hentry.
rewrite (Hzero s entry Hentry). exact IH.
Qed.

(** X14: [get_best_strategy] returns a strategy that no selected
    strategy beats.  On a selector with all its entries, a strategy that
    is returned is [HAVOC_MEDIUM], the default, or one that has been
    selected; no selected strategy has a score greater than that of the
    strategy returned (greater than minus infinity, when the default is
    returned unselected); and when no strategy has been selected the
    default is returned. *)
Theorem best_strategy_is_unbeaten (self : MutationStrategySelector float) :
  catalog_ok self →
  (∀ best, get_best_strategy self = Ok best →
     ∃ best_score,
       ((best = HAVOC_MEDIUM ∧ best_score = neg_infinity)
        ∨ (∃ entry, strategy_stats self !! best = Some entry
                    ∧ times_selected entry ≠ 0%Z
                    ∧ strategy_score entry = Ok best_score))
       ∧ ∀ s entry, strategy_stats self !! s = Some entry →
                    times_selected entry ≠ 0%Z →
                    ∃ x, strategy_score entry = Ok x
                         ∧ (best_score <? x) = false)
  ∧ ((∀ s entry, strategy_stats self !! s = Some entry →
                 times_selected entry = 0%Z) →
     get_best_strategy self = Ok HAVOC_MEDIUM).
Proof.
intros [_ Hall]. split.
- intros best. unfold get_best_strategy.
  destruct (foldl _ _ _) as [r|e] eqn:Hr; cbn [mbind res_bind];
    [|discriminate].
  intros [= <-].
  destruct (best_rounds (strategy_stats self) Strategy.members []
              HAVOC_MEDIUM neg_infinity r Hall (or_introl (conj eq_refl eq_refl))
              ltac:(intros ? ? Hin; inversion Hin) Hr) as [Hbest Hmax].
  exists (snd r). split; [exact Hbest|].
  intros s entry Hs Hne. apply (Hmax s entry); [|exact Hs|exact Hne].
  cbn [app]. apply members_all.
- intros Hzero. unfold get_best_strategy.
  now rewrite best_rounds_idle.
Qed.

End BestStrategy.

Lemma best_strategy_is_unbeaten_witness :
  get_best_strategy MutationStrategySelector_init = Ok HAVOC_MEDIUM.
Proof.
apply (proj2 (best_strategy_is_unbeaten MutationStrategySelector_init
                ltac:(split; [reflexivity|];
                      intros s; destruct s; vm_compute; eauto))).
intros s entry Hentry.
destruct s; vm_compute in Hentry; injection Hentry as <-; reflexivity.
Defined.

(** ** A training step, in binary64 *)

Section StepBinary64.

Context `{Torch float} `{!Optimiser float}.

Lemma to_float_raises {F : Type} `{PyFloat F} (a : pynum F) (e : exn) :
  to_float a = Raise e → e = OverflowError.
Proof.
destruct a as [z|x]; cbn; [|discriminate].
destruct (of_int z); [discriminate|congruence].
Qed.

Lemma py_sub_raises {F : Type} `{PyFloat F} (a b : pynum F) (e : exn) :
  py_sub a b = Raise e → e = OverflowError.
Proof.
destruct a as [x|x], b as [y|y]; cbn; try discriminate;
  repeat (destruct (of_int _); cbn; try discriminate); congruence.
Qed.

Lemma py_mul_raises {F : Type} `{PyFloat F} (a : pynum F) (w : F) (e : exn) :
  py_mul a w = Raise e → e = OverflowError.
Proof.
unfold py_mul. destruct (to_float a) eqn:E; cbn; [discriminate|].
intros [= <-]. exact (to_float_raises _ _ E).
Qed.

Lemma py_truediv_raises (a : pynum float) (c : float) (e : exn) :
  feqb c (of_decimal 0 0) = false →
  py_truediv a c = Raise e → e = OverflowError.
Proof.
intros Hc. unfold py_truediv.
destruct (to_float a) eqn:E; cbn [mbind res_bind].
- rewrite Hc. discriminate.
- intros [= <-]. exact (to_float_raises _ _ E).
Qed.

Ltac raising lemma :=
  match goal with
  | |- (mbind _ ?c) = Raise _ → _ =>
      let E := fresh "E" in
      destruct c eqn:E; cbn [mbind res_bind];
      [|intros [= <-]; apply lemma in E; exact E]
  end.

Lemma rates_raises (t : float) (current previous : FuzzingMetrics float)
    (e : exn) :
  rates t current previous = Raise e → e = OverflowError.
Proof.
unfold rates. destruct (time_delta_nonzero t) as (dt & -> & Hdt).
cbn [mbind res_bind].
pose proof (fun a e => py_truediv_raises a dt e Hdt) as Hd.
pose proof (py_sub_raises (F:=float)) as Hsub.
raising Hsub. raising Hd. raising Hsub. raising Hd. raising Hsub. raising Hd.
discriminate.
Qed.

Lemma state_vector_raises (self : FeedbackAnalyzer float) (e : exn) :
  get_state_vector self = Raise e → e = OverflowError.
Proof.
unfold get_state_vector.
destruct (rev (metrics_history self)) as [|current earlier]; [discriminate|].
destruct (match earlier with
          | [] => _
          | previous :: _ => _
          end) as [[[cr kr] pr]|e0] eqn:Er; cbn [mbind res_bind].
- do 7 (match goal with
        | |- (mbind _ (py_truediv ?a ?c)) = Raise _ → _ =>
            let E := fresh "E" in
            destruct (py_truediv a c) eqn:E; cbn [mbind res_bind];
            [|intros [= <-];
              apply (py_truediv_raises a c) in E; [exact E|reflexivity]]
        end).
  discriminate.
- intros [= <-]. destruct earlier as [|previous older]; [discriminate|].
  exact (rates_raises _ _ _ _ Er).
Qed.

Lemma reward_raises (self : FeedbackAnalyzer float) (e : exn) :
  compute_reward self = Raise e → e = OverflowError.
Proof.
unfold compute_reward.
destruct (rev (metrics_history self)) as [|current [|previous older]];
  try discriminate.
pose proof (py_sub_raises (F:=float)) as Hsub.
pose proof (py_mul_raises (F:=float)) as Hmul.
raising Hsub. raising Hmul. raising Hsub. raising Hmul.
raising Hsub. raising Hmul.
match goal with
| |- (mbind _ (py_truediv ?a ?c)) = Raise _ → _ =>
    let E := fresh "E" in
    destruct (py_truediv a c) eqn:E; cbn [mbind res_bind];
    [|intros [= <-];
      apply (py_truediv_raises a c) in E; [exact E|reflexivity]]
end.
match goal with
| |- (mbind _ (py_truediv ?a ?c)) = Raise _ → _ =>
    let E := fresh "E" in
    destruct (py_truediv a c) eqn:E; cbn [mbind res_bind];
    [|intros [= <-];
      apply (py_truediv_raises a c) in E; [exact E|reflexivity]]
end.
discriminate.
Qed.

Lemma state_and_reward_raises (self : FeedbackAnalyzer float) (e : exn) :
  get_state_and_reward self = Raise e → e = OverflowError.
Proof.
unfold get_state_and_reward.
raising state_vector_raises. raising reward_raises. discriminate.
Qed.

Lemma attribute_outcome_counted (analyzer : FeedbackAnalyzer float)
    (selector : MutationStrategySelector float) (world : World) :
  selections_counted selector →
  match attribute_outcome analyzer selector world with
  | Ok selector' =>
      selections_counted selector'
      ∧ strategy_history selector' = strategy_history selector
  | Raise e => e = OverflowError
  end.
Proof.
intros Hc. unfold attribute_outcome.
destruct (get_current_metrics (stats_file_again world)) as [m|];
  [|now split].
destruct (rev (metrics_history analyzer)) as [|c [|p older]];
  try now split.
destruct (py_sub (coverage m) (coverage p)) as [g|e] eqn:Eg;
  cbn [mbind res_bind]; [|exact (py_sub_raises _ _ _ Eg)].
destruct (py_sub (unique_crashes m) (unique_crashes p)) as [k|e] eqn:Ek;
  cbn [mbind res_bind]; [|exact (py_sub_raises _ _ _ Ek)].
destruct (py_sub (paths_total m) (paths_total p)) as [q|e] eqn:Eq;
  cbn [mbind res_bind]; [|exact (py_sub_raises _ _ _ Eq)].
destruct (update_strategy_stats selector g k q) as [s'|e] eqn:Eu.
- split; [exact (update_stats_counted _ _ _ _ _ Hc Eu)|].
  unfold update_strategy_stats in Eu.
  destruct (current_strategy selector); [|now injection Eu as <-].
  destruct (strategy_stats selector !! _); [|discriminate].
  destruct (py_add _ g); cbn [mbind res_bind] in Eu; [|discriminate].
  destruct (py_add _ k); cbn [mbind res_bind] in Eu; [|discriminate].
  destruct (py_add _ q); cbn [mbind res_bind] in Eu; [|discriminate].
  now injection Eu as <-.
- exact (selector_call_raises selector (CallUpdate g k q) e Hc Eu).
Qed.

Lemma update_failed (analyzer analyzer' : FeedbackAnalyzer float)
    (file : option string) (now : float) :
  update analyzer file now = (false, analyzer') →
  analyzer' = analyzer ∧ parse_fuzzer_stats (F:=float) file = None.
Proof.
unfold update, get_current_metrics.
destruct (parse_fuzzer_stats file); [discriminate|].
intros [= <-]. now split.
Qed.

Lemma record_transition_holds (self : PPOAgent) (t : Transition) (n : nat) :
  buffer_holds self n → buffer_holds (record_transition self t) (S n).
Proof.
intros (Hs & Ha & Hl & Hr & Hv & Hd).
destruct (record_transition_fields self t)
  as (Fs & Fr & Fd & _ & _ & Fa & Fl & Fv).
unfold buffer_holds. rewrite Fs, Fr, Fd, Fa, Fl, Fv, !length_app.
cbn [length]. repeat split; lia.
Qed.

Lemma ten_steps : 10 * batches 32 32 < 2 ^ 1023.
Proof. vm_compute. reflexivity. Qed.

(** What one call of [training_step] does to a controller whose buffer
    holds fewer than 32 transitions. *)
Lemma training_step_cases (self : FuzzingController) (world : World)
    (n : nat) :
  buffer_holds (agent self) n → (n < 32)%nat →
  selections_counted (mutation_selector self) →
  match training_step self world with
  | (Ok None, self') =>
      self' = self ∧ parse_fuzzer_stats (F:=float) (stats_file world) = None
  | (Ok (Some stats), self') =>
      buffer_holds (agent self') (S n mod 32)
      ∧ total_updates self' = total_updates self + Z.of_nat (S n / 32)
      ∧ selections_counted (mutation_selector self')
      ∧ length (strategy_history (mutation_selector self'))
        = S (length (strategy_history (mutation_selector self)))
      ∧ episodes self'
        = episodes self + (if stat_done stats then 1 else 0)
      ∧ (update_stats stats = ∅ ↔ (S n < 32)%nat)
  | (Raise e, _) => e = OverflowError
  end.
Proof.
intros Hbuf Hn Hsel. unfold training_step.
destruct (update (feedback_analyzer self) (stats_file world) (clock world))
  as [polled analyzer] eqn:Hup.
cbn zeta.
cbn [agent mutation_selector feedback_analyzer episodes total_updates].
destruct polled; cbn [negb].
2:{ destruct (update_failed _ _ _ _ Hup) as [-> Hnone].
    split; [now destruct self|exact Hnone]. }
destruct (get_state_and_reward analyzer) as [[state reward]|e] eqn:Hsr;
  [|exact (state_and_reward_raises _ _ Hsr)].
pose (t := {| tr_state := state; tr_deterministic := false;
              tr_rng := action_rng world; tr_reward := reward;
              tr_done := is_done analyzer |}).
pose proof (record_transition_holds (agent self) t n Hbuf) as Hrec.
unfold record_transition in Hrec. cbn [tr_state tr_deterministic tr_rng
  tr_reward tr_done t] in Hrec.
destruct (select_action (agent self) state false (action_rng world))
  as [action acting] eqn:Hact.
cbn [snd] in Hrec.
cbn [agent mutation_selector feedback_analyzer episodes total_updates].
destruct (select_strategy (mutation_selector self) action)
  as [[strategy selector]|e] eqn:Hss.
2:{ destruct (select_strategy_value (mutation_selector self) action
                (counted_ok _ Hsel)) as (s & s' & Hs & _).
    rewrite Hs in Hss. discriminate. }
pose proof (select_counted _ _ _ _ Hsel Hss) as Hsel1.
assert (Hhist : strategy_history selector
                = strategy_history (mutation_selector self) ++ [strategy]).
{ destruct (select_strategy_value (mutation_selector self) action
              (counted_ok _ Hsel)) as (s & s' & Hs & _ & _ & Hh & _).
  rewrite Hs in Hss. now injection Hss as -> ->. }
pose proof (attribute_outcome_counted analyzer selector world Hsel1) as Hatt.
destruct (attribute_outcome analyzer selector world) as [selector'|e];
  [|exact Hatt].
destruct Hatt as [Hsel2 Hhist2].
set (recorded := store_transition acting reward (is_done analyzer)) in *.
assert (Hlen : length (states recorded) = S n) by apply Hrec.
rewrite Hlen.
destruct (Z.leb_spec 32 (Z.of_nat (S n))) as [Hfull|Hroom].
- assert (E32 : S n = 32%nat) by lia.
  rewrite E32 in Hrec.
  destruct (ppo_update_runs recorded 32 10 32 (update_rng world) Hrec
              ltac:(lia) ltac:(lia) ltac:(lia) ten_steps)
    as (adv & ret & p & stats & _ & _ & Hupd & Hdom).
  rewrite Hupd.
  cbn [agent mutation_selector feedback_analyzer episodes total_updates
       stat_done update_stats].
  rewrite E32. change (32 mod 32)%nat with 0%nat.
  change (32 / 32)%nat with 1%nat.
  split; [now repeat split|]. split; [lia|]. split; [exact Hsel2|].
  split; [rewrite Hhist2, Hhist, length_app; cbn; lia|].
  split; [destruct (is_done analyzer); lia|].
  split; [|lia]. intros Hempty. rewrite Hempty, dom_empty_L in Hdom.
  exfalso. set_solver.
- cbn [agent mutation_selector feedback_analyzer episodes total_updates
       stat_done update_stats].
  rewrite Nat.mod_small, Nat.div_small by lia.
  split; [exact Hrec|]. split; [lia|]. split; [exact Hsel2|].
  split; [rewrite Hhist2, Hhist, length_app; cbn; lia|].
  split; [destruct (is_done analyzer); lia|].
  split; [lia|reflexivity].
Qed.

Lemma training_steps_snoc (self : FuzzingController) (worlds : list World)
    (world : World) :
  training_steps self (worlds ++ [world])
  = (state ← training_steps self worlds;
     let '(outcome, controller) := training_step (fst state) world in
     stats ← outcome;
     Ok (controller, snd state ++ [stats])).
Proof. unfold training_steps. now rewrite foldl_snoc. Qed.

Lemma wrap_step (m : nat) :
  (S (m mod 32) mod 32 = S m mod 32
   ∧ m / 32 + S (m mod 32) / 32 = S m / 32)%nat.
Proof.
pose proof (Nat.div_mod_eq m 32%nat) as Hm.
pose proof (Nat.mod_upper_bound m 32%nat ltac:(lia)) as Hr.
set (q := (m / 32)%nat) in *. set (r := (m mod 32)%nat) in *.
destruct (Nat.eq_dec (S r) 32%nat) as [E|E].
- rewrite E. change (32 mod 32)%nat with 0%nat.
  change (32 / 32)%nat with 1%nat.
  split.
  + apply (Nat.mod_unique (S m) 32%nat (S q) 0%nat); lia.
  + apply (Nat.div_unique (S m) 32%nat (q + 1)%nat 0%nat); lia.
- rewrite Nat.mod_small, Nat.div_small by lia.
  split.
  + apply (Nat.mod_unique (S m) 32%nat q (S r)); lia.
  + rewrite Nat.add_0_r. apply (Nat.div_unique (S m) 32%nat q (S r)); lia.
Qed.

Lemma steps_with_data_snoc (outcomes : list (option (@StepStats float)))
    (outcome : option (@StepStats float)) :
  steps_with_data (outcomes ++ [outcome])
  = steps_with_data outcomes
    ++ match outcome with Some stats => [stats] | None => [] end.
Proof.
unfold steps_with_data. rewrite omap_app. now destruct outcome.
Qed.

(** X15: over a run of training steps from a controller whose buffer holds
    [n < 32] transitions, every step that has data adds one transition and
    one selection; the agent is trained, and the buffer emptied, at every
    32nd of them; the episode counter counts the steps that reported
    [done]; a step without data changes nothing.  The only exception a run
    can end with is [OverflowError]. *)
Theorem steps_train_every_32nd (self : FuzzingController)
    (worlds : list World) (n : nat) :
  buffer_holds (agent self) n → (n < 32)%nat →
  selections_counted (mutation_selector self) →
  match training_steps self worlds with
  | Ok (self', outcomes) =>
      let k := length (steps_with_data outcomes) in
      length outcomes = length worlds
      ∧ buffer_holds (agent self') ((n + k) mod 32)
      ∧ total_updates self'
        = total_updates self + Z.of_nat ((n + k) / 32)
      ∧ selections_counted (mutation_selector self')
      ∧ length (strategy_history (mutation_selector self'))
        = (length (strategy_history (mutation_selector self)) + k)%nat
      ∧ episodes self' = episodes self + Z.of_nat (episodes_ended outcomes)
  | Raise e => e = OverflowError
  end.
Proof.
intros Hbuf Hn Hsel.
induction worlds as [|world worlds IH] using rev_ind.
- change (training_steps self []) with (Ok (self, @nil (option (@StepStats float)))).
  cbn beta iota zeta. change (length (steps_with_data [])) with 0%nat.
  change (episodes_ended []) with 0%nat.
  rewrite Nat.add_0_r, Nat.mod_small, Nat.div_small by lia.
  repeat split; try apply Hbuf; try apply Hsel; lia.
- rewrite training_steps_snoc.
  destruct (training_steps self worlds) as [[c outcomes]|e];
    cbn [mbind res_bind fst snd]; [|exact IH].
  cbn zeta in IH. destruct IH as (Hlen & Hb & Hu & Hs & Hh & He).
  set (k := length (steps_with_data outcomes)) in *.
  pose proof (training_step_cases c world ((n + k) mod 32) Hb
                (Nat.mod_upper_bound _ 32%nat ltac:(lia)) Hs) as Hstep.
  destruct (training_step c world) as [[[stats|]|e] c'];
    cbn [mbind res_bind]; [| |exact Hstep].
  + destruct Hstep as (Hb' & Hu' & Hs' & Hh' & He' & _).
    destruct (wrap_step (n + k)) as [Hmod Hdiv].
    cbn zeta. unfold episodes_ended in *.
    rewrite steps_with_data_snoc, filter_app, !length_app. fold k.
    cbn [length].
    replace (n + (k + 1))%nat with (S (n + k)) by lia.
    split; [lia|]. split; [now rewrite <- Hmod|].
    split; [rewrite Hu', Hu, <- Hdiv; lia|]. split; [exact Hs'|].
    split; [lia|].
    rewrite He', He. rewrite filter_cons, filter_nil.
    destruct (stat_done stats); destruct (decide _); try congruence;
      cbn [length]; lia.
  + destruct Hstep as [-> _].
    cbn zeta. unfold episodes_ended in *.
    rewrite steps_with_data_snoc, app_nil_r, !length_app. fold k.
    cbn [length].
    split; [lia|]. split; [exact Hb|]. split; [exact Hu|].
    split; [exact Hs|]. split; [exact Hh|exact He].
Qed.

End StepBinary64.

Lemma steps_train_every_32nd_witness :
  match
    @training_steps float binary64 Toy.torch Toy.optimiser toy_controller
      [toy_world; toy_world]
  with
  | Ok (self', _) => selections_counted (mutation_selector self')
  | Raise e => e = OverflowError
  end.
Proof.
pose proof (@steps_train_every_32nd Toy.torch Toy.optimiser toy_controller
              [toy_world; toy_world] 1 ltac:(repeat split) ltac:(lia)
              init_counted) as Hrun.
destruct (training_steps toy_controller [toy_world; toy_world])
  as [[self' outcomes]|e]; [|exact Hrun].
exact (proj1 (proj2 (proj2 (proj2 Hrun)))).
Defined.
(** ** The custom mutator *)

Section MutatorFacts.

Context {F : Type} `{PyFloat F} `{NumpyRandom F}.

Lemma lxor_byte (old k : Z) :
  0 <= old < 256 → 0 <= k < 8 → 0 <= Z.lxor old (Z.shiftl 1 k) < 256.
Proof.
intros Ho Hk. rewrite Z.shiftl_1_l.
assert (Hp : 0 < 2 ^ k <= 2 ^ 7)
  by (split; [apply Z.pow_pos_nonneg; lia|apply Z.pow_le_mono_r; lia]).
change (2 ^ 7) with 128 in Hp.
assert (Hn : 0 <= Z.lxor old (2 ^ k)) by (apply Z.lxor_nonneg; lia).
split; [exact Hn|].
assert (Hs : Z.shiftr (Z.lxor old (2 ^ k)) 8 = 0).
{ rewrite Z.shiftr_lxor, !Z.shiftr_div_pow2 by lia.
  change (2 ^ 8) with 256. rewrite !Z.div_small by lia. reflexivity. }
rewrite Z.shiftr_div_pow2 in Hs by lia. change (2 ^ 8) with 256 in Hs.
pose proof (Z.div_mod (Z.lxor old (2 ^ k)) 256 ltac:(lia)) as Hd.
pose proof (Z.mod_pos_bound (Z.lxor old (2 ^ k)) 256 ltac:(lia)). lia.
Qed.

Lemma position_in_range (mutated : list Z) (i : nat) :
  (i < length mutated)%nat → position mutated (Z.of_nat i) = Ok i.
Proof.
intros Hi. unfold position.
destruct (Z.ltb_spec (Z.of_nat i) 0) as [|_]; [lia|].
destruct (Z.ltb_spec (Z.of_nat i) 0) as [|_]; [lia|].
destruct (Z.leb_spec (Z.of_nat (length mutated)) (Z.of_nat i)) as [|_];
  [lia|].
cbn [orb]. now rewrite Nat2Z.id.
Qed.

Lemma set_byte_in_range (mutated : list Z) (i : nat) (value : Z) :
  (i < length mutated)%nat → 0 <= value < 256 →
  set_byte mutated (Z.of_nat i) value = Ok (<[i := value]> mutated).
Proof.
intros Hi Hv. unfold set_byte. rewrite position_in_range by exact Hi.
cbn [mbind res_bind].
destruct (Z.ltb_spec value 0) as [|_]; [lia|].
destruct (Z.ltb_spec 255 value) as [|_]; [lia|]. reflexivity.
Qed.

Lemma insert_bytes (mutated : list Z) (i : nat) (value : Z) :
  is_bytes mutated → 0 <= value < 256 → is_bytes (<[i := value]> mutated).
Proof.
unfold is_bytes. intros Hb Hv. apply Forall_insert; assumption.
Qed.

(** The deterministic loop visits every index once, and leaves alone
    what it does not visit. *)
Lemma flip_bits_runs (indices : list nat) (mutated : list Z)
    (s : RandomState) :
  is_bytes mutated → NoDup indices →
  Forall (fun i => (i < length mutated)%nat) indices →
  ∃ out s',
    flip_bits indices mutated s = Ok (out, s')
    ∧ is_bytes out ∧ length out = length mutated
    ∧ ∀ j old, mutated !! j = Some old →
        ∃ b, out !! j = Some b
             ∧ (b = old ∨ (j ∈ indices ∧ one_bit_apart old b)).
Proof.
revert mutated s.
induction indices as [|i rest IH]; intros mutated s Hb Hnd Hin.
- exists mutated, s. repeat split; try assumption.
  intros j old Hj. exists old. split; [exact Hj|now left].
- apply NoDup_cons in Hnd as [Hi Hnd].
  apply Forall_cons in Hin as [Hlt Hin].
  cbn [flip_bits]. destruct (random s) as [x s1].
  destruct (fltb x (of_decimal 1 1)).
  + unfold get_byte. rewrite position_in_range by exact Hlt.
    cbn [mbind res_bind].
    destruct (lookup_lt_is_Some_2 mutated i Hlt) as [old0 Hold].
    rewrite Hold. cbn [mbind res_bind].
    pose proof (randint_range 0 8 s1 ltac:(lia)) as Hk.
    destruct (randint 0 8 s1) as [k s2]. cbn [fst] in Hk.
    unfold shift_one. destruct (Z.ltb_spec k 0) as [|_]; [lia|].
    cbn [mbind res_bind].
    assert (Hold_range : 0 <= old0 < 256).
    { unfold is_bytes in Hb. rewrite Forall_lookup in Hb.
      exact (Hb i old0 Hold). }
    pose proof (lxor_byte old0 k Hold_range Hk) as Hnew.
    rewrite set_byte_in_range by assumption. cbn [mbind res_bind].
    destruct (IH (<[i := Z.lxor old0 (Z.shiftl 1 k)]> mutated) s2)
      as (out & s' & Hrun & Hout & Hlen & Hsame).
    { now apply insert_bytes. }
    { exact Hnd. }
    { eapply Forall_impl; [exact Hin|]. intros j Hj.
      now rewrite length_insert. }
    exists out, s'. split; [exact Hrun|]. split; [exact Hout|].
    split; [now rewrite Hlen, length_insert|].
    intros j old Hj. destruct (decide (j = i)) as [->|Hne].
    * rewrite Hold in Hj. injection Hj as <-.
      destruct (Hsame i (Z.lxor old0 (Z.shiftl 1 k))) as (b & Hb1 & Hb2).
      { apply list_lookup_insert_eq. exact Hlt. }
      exists b. split; [exact Hb1|]. right.
      split; [apply elem_of_cons; now left|].
      destruct Hb2 as [->|[Hrest _]]; [|contradiction].
      right. exists k. split; [exact Hk|]. now rewrite Z.shiftl_1_l.
    * destruct (Hsame j old) as (b & Hb1 & Hb2).
      { rewrite list_lookup_insert_ne by congruence. exact Hj. }
      exists b. split; [exact Hb1|].
      destruct Hb2 as [->|[Hrest Hbit]]; [now left|].
      right. split; [apply elem_of_cons; now right|exact Hbit].
  + destruct (IH mutated s1 Hb Hnd Hin)
      as (out & s' & Hrun & Hout & Hlen & Hsame).
    exists out, s'. split; [exact Hrun|]. split; [exact Hout|].
    split; [exact Hlen|].
    intros j old Hj. destruct (Hsame j old Hj) as (b & Hb1 & Hb2).
    exists b. split; [exact Hb1|].
    destruct Hb2 as [->|[Hrest Hbit]]; [now left|].
    right. split; [apply elem_of_cons; now right|exact Hbit].
Qed.

Lemma differing_cons (x y : Z) (a b : list Z) :
  differing (x :: a) (y :: b)
  = ((if decide (x = y) then 0 else 1) + differing a b)%nat.
Proof.
unfold differing. cbn [zip zip_with]. rewrite filter_cons. cbn [fst snd].
destruct (decide (x ≠ y)) as [Hne|He]; destruct (decide (x = y));
  try contradiction; reflexivity.
Qed.

Lemma differing_insert (mutated data : list Z) (j : nat) (value : Z) :
  (differing (<[j := value]> mutated) data <= S (differing mutated data))%nat.
Proof.
revert data j. induction mutated as [|x mutated IH]; intros data j.
- destruct j; unfold differing; cbn; lia.
- destruct data as [|y data]; [destruct j; unfold differing; cbn; lia|].
  destruct j as [|j].
  + change (<[0%nat := value]> (x :: mutated)) with (value :: mutated).
    rewrite !differing_cons. repeat case_decide; lia.
  + change (<[S j := value]> (x :: mutated))
      with (x :: <[j := value]> mutated).
    rewrite !differing_cons. specialize (IH data j). case_decide; lia.
Qed.



Lemma havoc_runs (rounds : nat) (mutated data : list Z) (s : RandomState) :
  is_bytes mutated →
  ∃ out s',
    havoc rounds mutated s = Ok (out, s')
    ∧ is_bytes out ∧ length out = length mutated
    ∧ (differing out data <= differing mutated data + rounds)%nat.
Proof.
revert mutated s.
induction rounds as [|rounds IH]; intros mutated s Hb.
- exists mutated, s. repeat split; try assumption. lia.
- cbn [havoc]. destruct (Nat.eqb_spec (length mutated) 0) as [Hz|Hnz].
  + exists mutated, s. repeat split; try assumption. lia.
  + pose proof (randint_range 0 (Z.of_nat (length mutated)) s ltac:(lia))
      as Hidx.
    destruct (randint 0 (Z.of_nat (length mutated)) s) as [idx s1].
    cbn [fst] in Hidx.
    pose proof (randint_range 0 256 s1 ltac:(lia)) as Hv.
    destruct (randint 0 256 s1) as [value s2]. cbn [fst] in Hv.
    rewrite <- (Z2Nat.id idx) by lia.
    rewrite set_byte_in_range by lia. cbn [mbind res_bind].
    destruct (IH (<[Z.to_nat idx := value]> mutated) s2)
      as (out & s' & Hrun & Hout & Hlen & Hdiff);
      [now apply insert_bytes|].
    exists out, s'. split; [exact Hrun|]. split; [exact Hout|].
    split; [now rewrite Hlen, length_insert|].
    pose proof (differing_insert mutated data (Z.to_nat idx) value). lia.
Qed.

Lemma up_to_bytes (mutated : list Z) (max_size : Z) :
  is_bytes mutated → is_bytes (up_to mutated max_size).
Proof. unfold is_bytes, up_to. apply Forall_take. Qed.

Lemma up_to_length (mutated : list Z) (max_size : Z) :
  (length (up_to mutated max_size) <= length mutated)%nat
  ∧ (0 <= max_size →
     Z.of_nat (length (up_to mutated max_size))
     = Z.min (Z.of_nat (length mutated)) max_size).
Proof.
unfold up_to. rewrite length_take. split; [lia|].
intros Hm. destruct (Z.ltb_spec max_size 0); lia.
Qed.

(** X19: [mutate] never raises and never grows the input.  Without a
    strategy set it returns the data as it is, whatever [max_size]; with
    a strategy set the result is again a string of bytes, no longer than
    the data, and of [min(len(data), max_size)] bytes when [max_size] is
    not negative. *)
Theorem mutate_never_grows (self : AFLCustomMutator) (data : list Z)
    (max_size : Z) (s : RandomState) :
  is_bytes data →
  ∃ out s',
    mutate self data max_size s = Ok (out, s')
    ∧ is_bytes out
    ∧ match current_config self with
      | None => out = data ∧ s' = s
      | Some _ =>
          (length out <= length data)%nat
          ∧ (0 <= max_size →
             Z.of_nat (length out)
             = Z.min (Z.of_nat (length data)) max_size)
      end.
Proof.
intros Hb. unfold mutate.
destruct (current_config self) as [config|].
2:{ exists data, s. repeat split. exact Hb. }
destruct (deterministic_mode config).
- destruct (flip_bits_runs
              (seq 0 (Z.to_nat (Z.min (Z.of_nat (length data)) max_size)))
              data s Hb (NoDup_seq _ _))
    as (out & s' & -> & Hout & Hlen & _).
  { apply Forall_forall. intros i Hi. apply elem_of_seq in Hi. lia. }
  cbn [mbind res_bind fst snd].
  eexists _, _. split; [reflexivity|].
  split; [now apply up_to_bytes|].
  rewrite <- Hlen. apply up_to_length.
- destruct (havoc_runs (Z.to_nat (havoc_cycles config)) data data s Hb)
    as (out & s' & -> & Hout & Hlen & _).
  cbn [mbind res_bind fst snd].
  eexists _, _. split; [reflexivity|].
  split; [now apply up_to_bytes|].
  rewrite <- Hlen. apply up_to_length.
Qed.



End MutatorFacts.

Lemma mutate_never_grows_witness :
  ∃ s',
    @mutate float binary64 toy_random AFLCustomMutator_init [1; 2; 3] 2
      (0%nat : @RandomState float toy_random)
    = Ok ([1; 2; 3], s').
Proof.
destruct (@mutate_never_grows float binary64 toy_random
            AFLCustomMutator_init [1; 2; 3] 2
            (0%nat : @RandomState float toy_random)
            ltac:(repeat constructor; lia))
  as (out & s' & Hrun & _ & Hsame & _).
exists s'. rewrite Hrun, Hsame. reflexivity.
Defined.

